(* ===== verification/_CoqProject ===== *)
-Q . S2P
Prelude.v
GoInt.v
Fs.v
Paths.v
PidFile.v
Version.v
UtilTests.v
Pflag.v
Cli.v
