(* ===== verification/Prelude.v ===== *)
(** * Polly: the util test suite, the PID file, the prefix, the CLI commands

    The repository (jonasrosland/polly) contributes two files under
    [src/]: [src/util/util_test.go], the test suite of package [util],
    and [src/polly/cli/cmds_other.go], which builds the [version], [env],
    [install] and [uninstall] sub-commands and the global flags.  The
    package [util] the tests call (the prefix resolver and the PID file
    manager) is not among the sources; it is modelled from the
    specification (sections 4.1 and 4.2), as are the Go library calls
    the code makes.  How the parts interact: a test sets the prefix
    ([newPrefixDir] creates a temporary directory and makes it the
    prefix), asks for derived paths, then writes and reads the PID file
    under the run directory the resolver derives; the CLI adds commands
    whose [Run] closures call into the rest of the program.

    Files, in dependency order:
    - [Prelude]: [result A E], Go's [(value, error)], with [let?] in
      [polly_scope]; string lemmas; the hint databases [polly] and
      [polly_rw]; the tactics [inv_bind], [step_result] and [vm_decide]
      (closed decidable facts by evaluation in the virtual machine).
    - [GoInt] (Module [GoInt]): Go's 64-bit [int] as [Z] with its bounds,
      [format_int] ([%d]) and [parse_int], the parse rule of
      [ReadPidFile] (digits only, syntax and range errors of [strconv]).
    - [Fs] (Module [Fs]): the filesystem as a [gmap] from resolved paths
      to nodes; [read_file], [write_file], [mkdir], [mkdir_all],
      [remove], [remove_all], [temp_dir] with the error each returns
      ([temp_dir] gives up with the last [Mkdir] error, as Go's
      [ioutil.TempDir] of the code's time does); the
      well-formedness invariant [wf] (root is a directory, every node
      sits in a directory) and its preservation by [write_file],
      [mkdir], [mkdir_all], [remove], [remove_all] and [temp_dir].
    - [Paths]: the class [PidLocation], the resolver's promise to the PID
      manager (the PID file is in the run directory and is not the root),
      and Module [Paths]: the prefix state, [Prefix], [GetPrefix],
      [IsPrefixed] and the ten derived paths; the setoid [same_dir] of
      paths naming one directory, with [Proper] instances for every
      derived path; the layout, the [""]/["/"] equivalence and the
      disjointness of the install directories.
    - [PidFile] (Module [PidFile]): [WritePidFile], [ReadPidFile] and the
      caller's [RemovePidFile] over a world (resolver, filesystem,
      [os.Getpid()]), proved against [PidLocation] only: round trip,
      negative argument, the errors, the frame; the two-state machine of
      the specification ([spec_step]) and the refinement [run_refines]
      of any sequence of writes and removals.
    - [Version] (Module [Version]): [PrintVersion]'s text (section 6)
      with the epoch formatter as a parameter, and [TestPrintVersion]'s
      check on the values it reads of the process; the path
      [PrintVersion] writes on its [Binary] line is a value of its own,
      distinct from the test binary's path [gotil.GetThisPathParts]
      gives, since the specification does not say how it is obtained.
    - [UtilTests] (Module [UtilTests]): the tests as computations of a
      state monad [T] whose state is the process (prefix, filesystem,
      pid, clock, [ioutil.TempDir]'s random stream, [r10],
      [tmpPrefixDirs]) and whose [Fatal] ends a test; [TestMain] runs
      the ten tests in file order on one process through [m_Run]
      ([m.Run()]) and removes the recorded prefixes.  The routines the
      tests call that neither the sources nor the specification give
      ([StdOutAndLogFile], [EpochToRfc1123], [Install] and the two
      [...ChownRoot]) are the fields of the record [Ext], a parameter of
      the suite.  The tests of the prefix and of the PID file keep the
      filesystem well formed, and so does [TestStdOutAndLogFile] when
      [StdOutAndLogFile] does.  Claims C1-C6, C10-C13, C15, C20 and C21.
    - [Pflag] (Module [Pflag]): the flag sets of spf13/pflag: [AddFlag]
      and its panics, [AddFlagSet] (which adds the new set's flags in
      the order [VisitAll] gives, sorted by name), command-line flag
      parsing ([parseArgs], with [strconv.ParseBool] for bool flags), the
      exact condition under which [AddFlag] does not panic, and the
      well-formedness [flags_ok] of a flag set, which [AddFlag] and
      [AddFlagSet] keep.
    - [Cli] (Module [Cli]): cobra commands in a store of pointers (so the
      [uninstall] command reached through [c.uninstallCmd] and through
      the root is one object), [initOtherCmds], [initOtherFlags],
      [initOtherCmdsAndFlags] and a dispatch [Execute] of the built tree;
      invariants kept by every primitive, through [preserves I m] for an
      invariant [I] and the classes [StoreOnly]/[Framed] of invariants
      that read only the store (and the [CLI] pointers): the store has
      no dangling pointer ([store_inv]), every flag set is well formed
      ([flags_inv]) and each [CLI] pointer names a command running its
      own closure ([ptrs_typed]); the flat command table [cli_table]
      that the tree refines; [c.cfgFile], the variable [--config] is
      bound to.  Claims C7-C9, C14, C16-C19 and C22-C26.

    What the claims show.  Under the specification's PID manager, which
    never creates the run directory, the write/read checks of the tests
    pass whenever [var/run/polly] exists (C1, C2, C6) and fail cleanly
    when it is a file (C13), but [newPrefixDir] creates only the prefix:
    [TestWriteReadCurrentPidFile] and [TestWriteReadCustomPidFile] fail
    on every filesystem, so [TestMain] exits with 1 (C3, C4), and
    [TestReadPidFileWithErrors] passes through not-found instead of the
    parse error it means to check (C5).  [TestPrefixAndDirs] and
    [TestPrefix] pass (C10, C11), the latter only when run first (C12);
    [TestMain] leaves nothing below the prefixes it recorded (C15);
    [ioutil.TempDir] returns the first free name within its 10000 tries
    and gives up after them with the last [Mkdir] error (C20, C21).  The
    CLI builds the expected command tree and dispatches
    [uninstall --package] to [uninstall(true)] (C7, C8); [--package] is
    a flag of [uninstall] alone, while [--verbose] and [--config] are
    accepted by every sub-command (C14); [--config] is a string flag
    that takes the next argument and is refused without one, and
    [--verbose] and [--package] bool flags, [true] alone and refused
    with a text [strconv.ParseBool] does not accept (C23); of several
    [--package=b] the last given wins (C24); start-up leaves every
    other stored command unchanged and allocates the four commands at
    free pointers (C25); [--config=x] and [-c x] set [c.cfgFile] to [x]
    for every sub-command (C26); for every argument list its dispatch
    equals the flat command table (C9); it builds a well-typed tree:
    well-formed flag sets, and each command pointer of the [CLI] struct
    on a command with its own [Run] closure (C22); it panics when
    [initOtherFlags] runs first, twice, or with a configuration flag
    reusing [-v] (C16-C18), and C19 says exactly which configured
    shorthands are accepted.

    Bounds and fuel.  [digits_fuel] formats with fuel [N.size n + 1],
    at least the number of decimal digits of [n]; [parse_format_roundtrip]
    proves it enough.  [temp_dir] tries at most 10000 names, the bound
    of Go's [ioutil.TempDir]: [temp_dir_loop_first_free] shows the
    bound is enough whenever a free name comes within it, and
    [temp_dir_loop_exhausted] what happens past it; the random suffixes
    are a finite stream in the process state, and a stream that runs
    out gives up like the bound.  [m_Run] and pflag's [parse_flags] are
    structural on the test list and the argument list, so the suite and
    the dispatch always return.  Integers are [Z] with the Go [int]
    range checked where a value is parsed.

    Not modelled: the code of [StdOutAndLogFile], [Install],
    [InstallChownRoot] and [InstallDirChownRoot] (not among the sources,
    not described: the suite takes them as parameters), a panic in one
    of them (which would stop the whole test binary), how package
    [core/version] obtains its values, the [install()]/[uninstall()]
    routines of the CLI (recorded as effects), the CLI core (root
    command, configuration), cobra's handling of flags written before
    the sub-command name, of aliases and of help, and the filesystem's
    permissions, links and disk errors.  These parts have no code among
    the sources and no description in the specification, so nothing
    more of them can be modelled faithfully. *)

From stdpp Require Import base strings list gmap.
From Stdlib Require Import ZArith Lia Ascii.

Declare Scope polly_scope.
Delimit Scope polly_scope with polly.

(** ** Results: Go's [(value, error)] pairs *)

(** A Go function returning [(T, error)] either succeeds with a value or
    fails with an error; [result A E] is that pair with exactly one side
    meaningful. *)
Inductive result (A E : Type) : Type :=
| Ok (a : A)
| Err (e : E).
Arguments Ok {A E} a.
Arguments Err {A E} e.

#[global] Instance result_eq_dec {A E} `{EqDecision A, EqDecision E} : EqDecision (result A E).
Proof. solve_decision. Defined.

(** [if err != nil { return ..., err }]: propagate the first error. *)
Definition bind {A B E} (c : result A E) (k : A -> result B E) : result B E :=
  match c with
  | Ok a => k a
  | Err e => Err e
  end.

(** Re-tag the error of a call, as a wrapper type does. *)
Definition map_err {A E F} (f : E -> F) (c : result A E) : result A F :=
  match c with
  | Ok a => Ok a
  | Err e => Err (f e)
  end.

Definition is_ok {A E} (c : result A E) : bool :=
  match c with Ok _ => true | Err _ => false end.

Notation "'let?' x ':=' c 'in' k" := (bind c (fun x => k))
  (at level 100, x name, c at next level, right associativity) : polly_scope.

Open Scope polly_scope.

(** ** Generic lemmas shared by the components *)

Create HintDb polly.
Create Rewrite HintDb polly_rw.

Lemma bind_Ok {A B E} (a : A) (k : A -> result B E) : bind (Ok a) k = k a.
Proof. reflexivity. Qed.

Lemma bind_Err {A B E} (e : E) (k : A -> result B E) : bind (Err e) k = Err e.
Proof. reflexivity. Qed.

Lemma bind_eq_Ok {A B E} (c : result A E) (k : A -> result B E) b :
  bind c k = Ok b <-> exists a, c = Ok a /\ k a = Ok b.
Proof.
  destruct c as [a|e]; simpl; split.
  - eauto.
  - intros (a' & Ha & Hk). congruence.
  - discriminate.
  - intros (a' & Ha & _). discriminate.
Qed.

Lemma bind_eq_Err {A B E} (c : result A E) (k : A -> result B E) e :
  bind c k = Err e <-> c = Err e \/ exists a, c = Ok a /\ k a = Err e.
Proof.
  destruct c as [a|e']; simpl; split.
  - eauto.
  - intros [H|(a' & Ha & Hk)]; [discriminate|congruence].
  - intros H. left. congruence.
  - intros [H|(a' & Ha & _)]; [congruence|discriminate].
Qed.

Lemma map_err_Ok {A E F} (f : E -> F) (c : result A E) a :
  map_err f c = Ok a <-> c = Ok a.
Proof. destruct c; simpl; split; congruence. Qed.

(** stdpp makes [String.append] [simpl never]; these two equations are
    its computation rules. *)
Lemma string_app_nil_l (s : string) : "" +:+ s = s.
Proof. reflexivity. Qed.

Lemma string_app_cons (c : ascii) (s1 s2 : string) :
  String c s1 +:+ s2 = String c (s1 +:+ s2).
Proof. reflexivity. Qed.

Lemma string_app_nil_r (s : string) : s +:+ "" = s.
Proof. induction s as [|c s IH]; [done|by rewrite string_app_cons, IH]. Qed.

Lemma string_app_assoc (s1 s2 s3 : string) :
  s1 +:+ (s2 +:+ s3) = (s1 +:+ s2) +:+ s3.
Proof. induction s1 as [|c s IH]; [done|by rewrite !string_app_cons, IH]. Qed.

Lemma string_app_length (s1 s2 : string) :
  String.length (s1 +:+ s2) = String.length s1 + String.length s2.
Proof. induction s1 as [|c s IH]; [done|rewrite string_app_cons; simpl; lia]. Qed.

(** [List.last] of a list with a head: the head is the default of the rest. *)
Lemma last_cons_default {A} (x d : A) (l : list A) : List.last (x :: l) d = List.last l x.
Proof. destruct l; [done|]. simpl. induction l; simpl; [done|]. destruct l; done. Qed.

#[export] Hint Rewrite @bind_Ok @bind_Err string_app_nil_l string_app_cons
  string_app_nil_r : polly_rw.
#[export] Hint Resolve string_app_nil_r : polly.

(** [inv_bind H] splits a hypothesis [bind c k = Ok b] into the
    successful call [c = Ok a] and its continuation. *)
Ltac inv_bind H :=
  let a := fresh "a" in
  let Hc := fresh "Hc" in
  apply bind_eq_Ok in H as (a & Hc & H).

(** [vm_decide] proves a closed decidable proposition by evaluating its
    decision procedure in the virtual machine: the checker then compares
    booleans, not the (large) normal forms of both sides of an equation
    between file trees. *)
Ltac vm_decide := apply (bool_decide_unpack _); vm_compute; exact I.

(** [step_result] reduces the binds of a goal whose calls are known. *)
Ltac step_result :=
  repeat (first [rewrite bind_Ok | rewrite bind_Err]); simpl.
