(* ===== verification/GoInt.v ===== *)
(** * Go [int] values and their decimal text

    The PID file holds [fmt.Sprintf("%d", pid)] and is read back with a
    decimal parse.  Go's [int] is 64-bit: [max_int] bounds what a parse
    may return. *)

From stdpp Require Import base strings list.
From Stdlib Require Import ZArith Lia Ascii.
From S2P Require Import Prelude.

Module GoInt.

Definition max_int : Z := 2 ^ 63 - 1.
Definition min_int : Z := - 2 ^ 63.

(** [z] is representable as a Go [int] on a 64-bit platform. *)
Definition in_int_range (z : Z) : bool := (min_int <=? z)%Z && (z <=? max_int)%Z.

(** One decimal digit, '0' is code 48. *)
Definition digit_char (d : N) : ascii := ascii_of_N (48 + d).

Definition digit_value (c : ascii) : option N :=
  let n := N_of_ascii c in
  if (48 <=? n)%N && (n <=? 57)%N then Some (n - 48)%N else None.

(** Most significant digit first, one division by 10 per digit; the fuel
    bounds the number of digits ([format_nat] gives enough). *)
Fixpoint digits_fuel (fuel : nat) (n : N) : string :=
  match fuel with
  | O => EmptyString
  | S f =>
      if (n <? 10)%N then String (digit_char n) EmptyString
      else digits_fuel f (n / 10) +:+ String (digit_char (n mod 10)) EmptyString
  end.

(** [strconv.Itoa] on a non-negative value. *)
Definition format_nat (n : N) : string :=
  digits_fuel (S (N.to_nat (N.size n))) n.

(** [fmt.Sprintf("%d", z)]. *)
Definition format_int (z : Z) : string :=
  if (z <? 0)%Z then "-" +:+ format_nat (Z.to_N (- z))
  else format_nat (Z.to_N z).

(** Accumulate [acc * 10 + d] over the characters, failing on a
    non-digit. *)
Fixpoint parse_digits (acc : N) (s : string) : option N :=
  match s with
  | EmptyString => Some acc
  | String c s' =>
      match digit_value c with
      | Some d => parse_digits (acc * 10 + d)%N s'
      | None => None
      end
  end.

Inductive num_error_kind := ErrSyntax | ErrRange.

(** [strconv.NumError]: the function, the input and the cause. *)
Record NumError := mkNumError {
  ne_func : string;
  ne_num : string;
  ne_err : num_error_kind
}.

(** The PID file parse: a non-empty run of decimal digits whose value fits
    in a Go [int]; anything else is a syntax error, an overflow a range
    error. *)
Definition parse_int (s : string) : result Z NumError :=
  match s with
  | EmptyString => Err (mkNumError "Atoi" s ErrSyntax)
  | _ =>
      match parse_digits 0 s with
      | None => Err (mkNumError "Atoi" s ErrSyntax)
      | Some n =>
          if (Z.of_N n <=? max_int)%Z then Ok (Z.of_N n)
          else Err (mkNumError "Atoi" s ErrRange)
      end
  end.

(** ** Digits *)

Lemma digit_value_char (d : N) : (d < 10)%N -> digit_value (digit_char d) = Some d.
Proof.
  intros Hd. unfold digit_value, digit_char.
  rewrite N_ascii_embedding by lia.
  destruct (N.leb_spec 48 (48 + d)), (N.leb_spec (48 + d) 57); simpl; try lia.
  f_equal. lia.
Qed.

Lemma parse_digits_app (acc : N) (s t : string) :
  parse_digits acc (s +:+ t) =
    match parse_digits acc s with Some v => parse_digits v t | None => None end.
Proof.
  revert acc. induction s as [|c s IH]; intros acc; [done|].
  rewrite string_app_cons. simpl. destruct (digit_value c); [apply IH|done].
Qed.

Lemma parse_digits_one (acc d : N) :
  (d < 10)%N -> parse_digits acc (String (digit_char d) EmptyString) = Some (acc * 10 + d)%N.
Proof. intros Hd. simpl. by rewrite digit_value_char. Qed.

Lemma string_app_String_neq_nil (s t : string) (c : ascii) : s +:+ String c t <> EmptyString.
Proof. destruct s; rewrite ?string_app_cons; discriminate. Qed.

(** With fuel [f] and [n < 10^f], the digits read back as [n]. *)
Lemma digits_fuel_parse (f : nat) (n : N) :
  (n < 10 ^ N.of_nat f)%N -> parse_digits 0 (digits_fuel f n) = Some n.
Proof.
  revert n. induction f as [|f IH]; intros n Hn; simpl.
  - simpl in Hn; f_equal; lia.
  - destruct (N.ltb_spec n 10).
    + rewrite parse_digits_one by lia; f_equal; lia.
    + rewrite parse_digits_app, IH.
      * rewrite parse_digits_one by (apply N.mod_lt; lia).
        f_equal. rewrite (N.div_mod n 10) at 3 by lia. lia.
      * apply N.Div0.div_lt_upper_bound.
        rewrite Nat2N.inj_succ, N.pow_succ_r' in Hn. lia.
Qed.

Lemma digits_fuel_nonempty (f : nat) (n : N) : digits_fuel (S f) n <> EmptyString.
Proof.
  simpl. destruct (n <? 10)%N; [discriminate|apply string_app_String_neq_nil].
Qed.

(** The fuel of [format_nat] is enough: [n < 2^size n <= 10^size n]. *)
Lemma format_nat_parse (n : N) : parse_digits 0 (format_nat n) = Some n.
Proof.
  apply digits_fuel_parse.
  rewrite Nat2N.inj_succ, N2Nat.id.
  apply (N.lt_le_trans _ (2 ^ N.size n)); [apply N.size_gt|].
  apply (N.le_trans _ (10 ^ N.size n)); [apply N.pow_le_mono_l; lia|].
  apply N.pow_le_mono_r; lia.
Qed.

Lemma format_nat_nonempty (n : N) : format_nat n <> EmptyString.
Proof. apply digits_fuel_nonempty. Qed.

Lemma parse_int_nonempty (s : string) :
  s <> EmptyString ->
  parse_int s = match parse_digits 0 s with
                | None => Err (mkNumError "Atoi" s ErrSyntax)
                | Some n => if (Z.of_N n <=? max_int)%Z then Ok (Z.of_N n)
                            else Err (mkNumError "Atoi" s ErrRange)
                end.
Proof. destruct s; [done|reflexivity]. Qed.

Lemma format_int_nonneg (z : Z) : (0 <= z)%Z -> format_int z = format_nat (Z.to_N z).
Proof. intros Hz. unfold format_int. destruct (Z.ltb_spec z 0); [lia|done]. Qed.

(** ** Round trip and bounds of the PID text *)

(** Every value a Go [int] can hold at or above zero is printed by
    [fmt.Sprintf("%d", _)] to a text that the PID-file parse reads back as
    the same value. *)
Lemma parse_format_roundtrip (z : Z) :
  (0 <= z <= max_int)%Z -> parse_int (format_int z) = Ok z.
Proof.
  intros Hz. rewrite format_int_nonneg by lia.
  rewrite parse_int_nonempty by apply format_nat_nonempty.
  rewrite format_nat_parse, Z2N.id by lia.
  destruct (Z.leb_spec z max_int); [done|lia].
Qed.

(** Whatever text the parse accepts, its value is a non-negative Go
    [int]: at least 0 and at most [2^63 - 1]. *)
Theorem parse_int_range (s : string) (z : Z) :
  parse_int s = Ok z -> (0 <= z <= max_int)%Z.
Proof.
  unfold parse_int. destruct s as [|c s]; [discriminate|].
  destruct (parse_digits 0 (String c s)) as [n|]; [|discriminate].
  destruct (Z.leb_spec (Z.of_N n) max_int); intros Hok; simplify_eq; lia.
Qed.

Lemma parse_int_range_witness :
  parse_int "31337" = Ok 31337%Z /\ (0 <= 31337 <= max_int)%Z.
Proof.
  split; [vm_compute; reflexivity|].
  apply (parse_int_range "31337"). vm_compute. reflexivity.
Defined.

(** A decimal text whose value exceeds [max_int] is refused with a
    range error, never wrapped around. *)
Theorem parse_format_overflow (z : Z) :
  (max_int < z)%Z ->
  parse_int (format_int z) = Err (mkNumError "Atoi" (format_int z) ErrRange).
Proof.
  intros Hz. rewrite format_int_nonneg by (unfold max_int in Hz; lia).
  rewrite parse_int_nonempty by apply format_nat_nonempty.
  rewrite format_nat_parse, Z2N.id by (unfold max_int in Hz; lia).
  destruct (Z.leb_spec z max_int); [lia|done].
Qed.

Lemma parse_format_overflow_witness :
  (max_int < 2 ^ 63)%Z /\
  parse_int (format_int (2 ^ 63)) = Err (mkNumError "Atoi" (format_int (2 ^ 63)) ErrRange).
Proof.
  split; [unfold max_int; lia|].
  apply parse_format_overflow. unfold max_int; lia.
Defined.

Example format_int_1234 : format_int 1234 = "1234".
Proof. vm_compute. reflexivity. Qed.

Example format_int_negative : format_int (-7) = "-7".
Proof. vm_compute. reflexivity. Qed.

Example parse_int_hello : parse_int "hello" = Err (mkNumError "Atoi" "hello" ErrSyntax).
Proof. vm_compute. reflexivity. Qed.

End GoInt.
