(* ===== verification/Fs.v ===== *)
(** * The filesystem the PID file and the prefix directories live in

    The Go code reaches the filesystem through [ioutil.ReadFile],
    [gotil.WriteStringToFile], [os.Mkdir], [os.MkdirAll], [os.Remove],
    [os.RemoveAll] and [ioutil.TempDir].  They are modelled here on a tree stored as a map
    from a resolved path (its list of components) to a node, with the
    error each call returns.  These are library and kernel behaviours,
    not repository code: they are the environment of the components. *)

From stdpp Require Import base strings list gmap.
From Stdlib Require Import ZArith Lia Ascii.
From S2P Require Import Prelude.

Module Fs.

Inductive node := Dir | File (content : string).

#[global] Instance node_eq_dec : EqDecision node.
Proof. solve_decision. Defined.

Inductive errno := ENOENT | ENOTDIR | EISDIR | EEXIST | ENOTEMPTY.

#[global] Instance errno_eq_dec : EqDecision errno.
Proof. solve_decision. Defined.

(** [*os.PathError]: the operation, the path as given, the errno. *)
Record PathError := mkPathError {
  pe_op : string;
  pe_path : string;
  pe_err : errno
}.

#[global] Instance PathError_eq_dec : EqDecision PathError.
Proof. solve_decision. Defined.

(** The text of [syscall.Errno]. *)
Definition errno_text (e : errno) : string :=
  match e with
  | ENOENT => "no such file or directory"
  | ENOTDIR => "not a directory"
  | EISDIR => "is a directory"
  | EEXIST => "file exists"
  | ENOTEMPTY => "directory not empty"
  end.

(** [Error()] of a [PathError]: ["op path: errno"]. *)
Definition Error (e : PathError) : string :=
  pe_op e +:+ " " +:+ pe_path e +:+ ": " +:+ errno_text (pe_err e).

(** [os.IsNotExist]. *)
Definition IsNotExist (e : PathError) : bool :=
  match pe_err e with ENOENT => true | _ => false end.

Abbreviation fsys := (gmap (list string) node).

(** ** Path resolution

    The kernel splits a path at '/' and ignores empty components, so
    ["/a//b/"] and ["/a/b"] name the same node.  Paths are taken as
    absolute (the working directory of the process is the root), and
    ["."], [".."] and symbolic links are not interpreted. *)

Definition emit (cur : string) : list string :=
  match cur with EmptyString => [] | _ => [cur] end.

Fixpoint split_acc (cur s : string) : list string :=
  match s with
  | EmptyString => emit cur
  | String c s' =>
      if Ascii.eqb c "/" then emit cur ++ split_acc "" s'
      else split_acc (cur +:+ String c EmptyString) s'
  end.

Definition resolve (p : string) : list string := split_acc "" p.

(** ** Directory walk: the lookup of every component of a directory *)

Fixpoint walk (fs : fsys) (cur rest : list string) : result unit errno :=
  match rest with
  | [] => Ok ()
  | c :: r =>
      match fs !! (cur ++ [c]) with
      | Some Dir => walk fs (cur ++ [c]) r
      | Some (File _) => Err ENOTDIR
      | None => Err ENOENT
      end
  end.

(** The parent directory of a resolved path must be reachable. *)
Definition walk_parent (fs : fsys) (p : list string) : result unit errno :=
  walk fs [] (removelast p).

(** ** Calls *)

(** [ioutil.ReadFile]: open, then read the whole content. *)
Definition read_file (fs : fsys) (path : string) : result string PathError :=
  let p := resolve path in
  match walk_parent fs p with
  | Err e => Err (mkPathError "open" path e)
  | Ok _ =>
      match fs !! p with
      | None => Err (mkPathError "open" path ENOENT)
      | Some Dir => Err (mkPathError "read" path EISDIR)
      | Some (File s) => Ok s
      end
  end.

(** [gotil.WriteStringToFile]: create or truncate, then write. *)
Definition write_file (fs : fsys) (path content : string) : result fsys PathError :=
  let p := resolve path in
  match walk_parent fs p with
  | Err e => Err (mkPathError "open" path e)
  | Ok _ =>
      match fs !! p with
      | Some Dir => Err (mkPathError "open" path EISDIR)
      | _ =>
          if decide (p = []) then Err (mkPathError "open" path EISDIR)
          else Ok (<[p := File content]> fs)
      end
  end.

(** [os.Mkdir]. *)
Definition mkdir (fs : fsys) (path : string) : result fsys PathError :=
  let p := resolve path in
  match walk_parent fs p with
  | Err e => Err (mkPathError "mkdir" path e)
  | Ok _ =>
      match fs !! p with
      | Some _ => Err (mkPathError "mkdir" path EEXIST)
      | None =>
          if decide (p = []) then Err (mkPathError "mkdir" path EEXIST)
          else Ok (<[p := Dir]> fs)
      end
  end.

(** [os.MkdirAll]: create every missing component, fail on a file. *)
Fixpoint mkdir_all_from (fs : fsys) (cur rest : list string) : result fsys errno :=
  match rest with
  | [] => Ok fs
  | c :: r =>
      let d := cur ++ [c] in
      match fs !! d with
      | Some Dir => mkdir_all_from fs d r
      | Some (File _) => Err ENOTDIR
      | None => mkdir_all_from (<[d := Dir]> fs) d r
      end
  end.

Definition mkdir_all (fs : fsys) (path : string) : result fsys PathError :=
  map_err (mkPathError "mkdir" path) (mkdir_all_from fs [] (resolve path)).

(** [os.Remove]: a file, or an empty directory. *)
Definition has_child (fs : fsys) (p : list string) : bool :=
  bool_decide (exists k, k ∈ dom fs /\ removelast k = p /\ k <> []).

Definition remove (fs : fsys) (path : string) : result fsys PathError :=
  let p := resolve path in
  match walk_parent fs p with
  | Err e => Err (mkPathError "remove" path e)
  | Ok _ =>
      match fs !! p with
      | None => Err (mkPathError "remove" path ENOENT)
      | Some Dir =>
          if has_child fs p || bool_decide (p = [])
          then Err (mkPathError "remove" path ENOTEMPTY)
          else Ok (delete p fs)
      | Some (File _) => Ok (delete p fs)
      end
  end.

(** [ioutil.TempDir(dir, pattern)], as in the Go releases of the code's
    time: [os.Mkdir] of [filepath.Join(dir, pattern+suffix)] for
    successive suffixes of the random stream, at most 10000 tries; a
    name that exists is skipped, any other outcome ends the loop.  When
    the tries run out, the error is the last [os.Mkdir] error, whose
    path holds the last suffix tried ([last]; it starts as the error
    the loop would give without any try, which only a model's finite
    stream can reach).  [dir] is taken to be clean ([os.TempDir()]
    without a trailing separator), so [filepath.Join] is concatenation
    with '/'.  The stream that remains is returned with the outcome. *)
Fixpoint temp_dir_loop (tries : nat) (fs : fsys) (dir pattern : string) (sfx : list string)
  (last : PathError) : result (string * fsys) PathError * list string :=
  match tries, sfx with
  | O, _ | _, [] => (Err last, sfx)
  | S n, s :: rest =>
      let try := dir +:+ "/" +:+ pattern +:+ s in
      match mkdir fs try with
      | Ok fs' => (Ok (try, fs'), rest)
      | Err e =>
          match pe_err e with
          | EEXIST => temp_dir_loop n fs dir pattern rest e
          | _ => (Err e, rest)
          end
      end
  end.

Definition temp_dir (fs : fsys) (dir pattern : string) (sfx : list string)
  : result (string * fsys) PathError * list string :=
  temp_dir_loop 10000 fs dir pattern sfx (mkPathError "mkdir" (dir +:+ "/" +:+ pattern) EEXIST).

(** [os.RemoveAll]: the node and everything below it; a missing path is
    not an error, and the root itself is never removed. *)
Definition remove_all (fs : fsys) (path : string) : fsys :=
  let p := resolve path in
  filter (fun kv : list string * node => ~ p `prefix_of` kv.1 \/ kv.1 = []) fs.

(** ** Well-formed trees: the root is a directory and every other node
    sits in a directory. *)
Definition wf (fs : fsys) : Prop :=
  fs !! [] = Some Dir /\
  map_Forall (fun p _ => p <> [] -> fs !! removelast p = Some Dir) fs.

#[global] Instance wf_dec (fs : fsys) : Decision (wf fs).
Proof. unfold wf. apply _. Defined.

(** ** Path resolution lemmas *)

Lemma split_acc_slash (cur a b : string) :
  split_acc cur (a +:+ String "/" b) = split_acc cur a ++ split_acc "" b.
Proof.
  revert cur. induction a as [|c a IH]; intros cur; [reflexivity|].
  rewrite string_app_cons. simpl.
  destruct (Ascii.eqb c "/"); [rewrite IH; by rewrite List.app_assoc|apply IH].
Qed.

(** Joining with '/' resolves to the concatenation of the components. *)
Lemma resolve_slash (a b : string) :
  resolve (a +:+ String "/" b) = resolve a ++ resolve b.
Proof. apply split_acc_slash. Qed.

#[global] Hint Rewrite resolve_slash : polly_rw.

(** ** Walk lemmas *)

Lemma app_last_neq_nil {A} (l : list A) (x : A) : l ++ [x] <> [].
Proof. intros E. apply (f_equal length) in E. rewrite length_app in E. simpl in E. lia. Qed.

Lemma wf_ancestor (fs : fsys) (a b : list string) (n : node) :
  wf fs -> fs !! (a ++ b) = Some n -> b <> [] -> fs !! a = Some Dir.
Proof.
  intros [Hroot Hwf]. revert n. induction b as [|x b IH] using rev_ind; intros n Hn Hb;
    [done|].
  rewrite List.app_assoc in Hn.
  assert (Hp : fs !! (a ++ b) = Some Dir).
  { rewrite <- (removelast_last (a ++ b) x). apply (Hwf _ n Hn).
    apply app_last_neq_nil. }
  destruct b as [|y b]; [by rewrite List.app_nil_r in Hp|].
  eapply IH; [exact Hp|discriminate].
Qed.

Lemma walk_app (fs : fsys) (cur a b : list string) :
  walk fs cur (a ++ b) = bind (walk fs cur a) (fun _ => walk fs (cur ++ a) b).
Proof.
  revert cur. induction a as [|c a IH]; intros cur; simpl.
  - by rewrite List.app_nil_r.
  - destruct (fs !! (cur ++ [c])) as [[|s]|]; [|done|done].
    rewrite IH. by rewrite <- List.app_assoc.
Qed.

(** In a well-formed tree a walk succeeds exactly when its target is a
    directory. *)
Lemma walk_ok_iff (fs : fsys) (cur rest : list string) :
  wf fs -> walk fs cur rest = Ok () <-> rest = [] \/ fs !! (cur ++ rest) = Some Dir.
Proof.
  intros Hwf. revert cur. induction rest as [|c r IH]; intros cur; simpl.
  - split; auto.
  - destruct (fs !! (cur ++ [c])) as [[|s]|] eqn:Hc.
    + rewrite IH. rewrite <- List.app_assoc. simpl. split.
      * intros [->|H]; right; [exact Hc|exact H].
      * intros [H|H]; [discriminate|by right].
    + split; [discriminate|]. intros [H|H]; [discriminate|].
      destruct r as [|y r]; [congruence|].
      pose proof (wf_ancestor fs (cur ++ [c]) (y :: r) Dir Hwf) as Ha.
      rewrite <- List.app_assoc in Ha. specialize (Ha H ltac:(discriminate)). congruence.
    + split; [discriminate|]. intros [H|H]; [discriminate|].
      destruct r as [|y r]; [congruence|].
      pose proof (wf_ancestor fs (cur ++ [c]) (y :: r) Dir Hwf) as Ha.
      rewrite <- List.app_assoc in Ha. specialize (Ha H ltac:(discriminate)). congruence.
Qed.

(** The parent of a node of a well-formed tree is reachable. *)
Lemma walk_parent_of_node (fs : fsys) (p : list string) (n : node) :
  wf fs -> fs !! p = Some n -> walk_parent fs p = Ok ().
Proof.
  intros Hwf Hp. unfold walk_parent. apply walk_ok_iff; [done|]. simpl.
  destruct (decide (removelast p = [])) as [E|E]; [by left|right].
  destruct p as [|x p]; [done|]. apply (proj2 Hwf _ n Hp). discriminate.
Qed.

(** A regular file on the way makes the walk fail with ENOTDIR. *)
Lemma walk_to_file (fs : fsys) (d : list string) (s : string) :
  wf fs -> fs !! d = Some (File s) -> walk fs [] d = Err ENOTDIR.
Proof.
  intros Hwf Hd. destruct d as [|x d] using rev_ind; [destruct Hwf; congruence|].
  clear IHd. rewrite walk_app.
  rewrite (proj2 (walk_ok_iff fs [] d Hwf)).
  - simpl. by rewrite Hd.
  - destruct d as [|y d]; [by left|right]. simpl.
    eapply (wf_ancestor fs _ [x]); [done|exact Hd|discriminate].
Qed.

Lemma walk_parent_ok_iff (fs : fsys) (p : list string) :
  wf fs -> walk_parent fs p = Ok () <-> fs !! removelast p = Some Dir.
Proof.
  intros Hwf. unfold walk_parent. rewrite walk_ok_iff by done. simpl.
  split; [intros [->|H]; [apply Hwf|done]|by right].
Qed.

(** ** Preservation of well-formedness *)

Lemma removelast_neq {A} (p : list A) : p <> [] -> removelast p <> p.
Proof.
  intros Hp E. destruct (exists_last Hp) as (l & x & ->).
  rewrite removelast_last in E. apply (f_equal length) in E.
  rewrite length_app in E. simpl in E. lia.
Qed.

Lemma wf_insert (fs : fsys) (p : list string) (n : node) :
  wf fs -> p <> [] -> fs !! removelast p = Some Dir ->
  (n = Dir \/ fs !! p <> Some Dir) -> wf (<[p := n]> fs).
Proof.
  intros [Hroot Hwf] Hp Hpar Hn. split.
  - rewrite lookup_insert_ne; [done|congruence].
  - intros q m Hq Hq0. destruct (decide (q = p)) as [->|Hne].
    + rewrite lookup_insert_ne; [done|]. intros E. by apply (removelast_neq p).
    + rewrite lookup_insert_ne in Hq by congruence.
      specialize (Hwf q m Hq Hq0). destruct (decide (removelast q = p)) as [E|E].
      * rewrite E, lookup_insert_eq. destruct Hn as [->|Hn]; [done|].
        rewrite <- E in Hn. contradiction.
      * rewrite lookup_insert_ne; [done|congruence].
Qed.

(** Under a regular file there is nothing. *)
Lemma wf_file_no_child (fs : fsys) (p q : list string) (s : string) (n : node) :
  wf fs -> fs !! p = Some (File s) -> fs !! q = Some n -> q <> [] -> removelast q <> p.
Proof. intros [_ Hwf] Hp Hq Hq0 E. specialize (Hwf q n Hq Hq0). congruence. Qed.

Lemma wf_delete (fs : fsys) (p : list string) :
  wf fs -> p <> [] ->
  (forall q n, fs !! q = Some n -> q <> [] -> removelast q <> p) ->
  wf (delete p fs).
Proof.
  intros [Hroot Hwf] Hp Hnochild. split.
  - rewrite lookup_delete_ne; [done|congruence].
  - intros q m Hq Hq0. destruct (decide (q = p)) as [->|Hne].
    + by rewrite lookup_delete_eq in Hq.
    + rewrite lookup_delete_ne in Hq by congruence.
      rewrite lookup_delete_ne; [by apply (Hwf q m)|].
      intros E. by apply (Hnochild q m).
Qed.

(** ** The calls on a well-formed tree *)

Lemma read_file_file (fs : fsys) (path s : string) :
  wf fs -> fs !! resolve path = Some (File s) -> read_file fs path = Ok s.
Proof.
  intros Hwf Hp. unfold read_file.
  by rewrite (walk_parent_of_node fs _ (File s) Hwf Hp), Hp.
Qed.

Lemma write_file_inv (fs fs' : fsys) (path c : string) :
  write_file fs path c = Ok fs' ->
  fs' = <[resolve path := File c]> fs /\ walk_parent fs (resolve path) = Ok () /\
  resolve path <> [] /\ fs !! resolve path <> Some Dir.
Proof.
  unfold write_file. destruct (walk_parent fs (resolve path)) as [[]|e]; [|discriminate].
  destruct (fs !! resolve path) as [[|s]|] eqn:Hp; [discriminate| |];
    (case_decide as Hne; [discriminate|]); intros Hw; simplify_eq; split_and!; congruence.
Qed.

Lemma write_file_ok (fs : fsys) (path c : string) :
  wf fs -> resolve path <> [] -> fs !! removelast (resolve path) = Some Dir ->
  fs !! resolve path <> Some Dir ->
  write_file fs path c = Ok (<[resolve path := File c]> fs).
Proof.
  intros Hwf Hp Hpar Hd. unfold write_file.
  rewrite (proj2 (walk_parent_ok_iff fs _ Hwf) Hpar).
  destruct (fs !! resolve path) as [[|s]|]; [done| |]; by case_decide.
Qed.

Lemma write_file_wf (fs fs' : fsys) (path c : string) :
  wf fs -> write_file fs path c = Ok fs' -> wf fs'.
Proof.
  intros Hwf H. apply write_file_inv in H as (-> & Hw & Hp & Hd).
  apply wf_insert; [done|done| |by right]. by apply walk_parent_ok_iff.
Qed.

(** [os.MkdirAll] leaves a directory at its target, keeps every existing
    node and well-formedness. *)
Lemma mkdir_all_from_spec (fs fs' : fsys) (cur rest : list string) :
  wf fs -> fs !! cur = Some Dir -> mkdir_all_from fs cur rest = Ok fs' ->
  wf fs' /\ fs' !! (cur ++ rest) = Some Dir /\
  (forall q n, fs !! q = Some n -> fs' !! q = Some n).
Proof.
  revert fs cur. induction rest as [|c r IH]; intros fs cur Hwf Hcur H; simpl in H.
  - simplify_eq. rewrite List.app_nil_r. auto.
  - replace (cur ++ c :: r) with ((cur ++ [c]) ++ r) by by rewrite <- List.app_assoc.
    destruct (fs !! (cur ++ [c])) as [[|s]|] eqn:Hd; [by apply IH|discriminate|].
    assert (Hwf' : wf (<[cur ++ [c] := Dir]> fs)).
    { apply wf_insert; [done|apply app_last_neq_nil|by rewrite removelast_last|by left]. }
    destruct (IH _ _ Hwf' (lookup_insert_eq _ _ _) H) as (? & ? & Hkeep).
    split_and!; [done|done|]. intros q n Hq. apply Hkeep.
    rewrite lookup_insert_ne; [done|congruence].
Qed.

(** On a path whose existing components are all directories, [os.MkdirAll]
    succeeds. *)
Lemma mkdir_all_from_ok (fs : fsys) (cur rest : list string) :
  wf fs -> fs !! cur = Some Dir ->
  (forall k s, k <> [] -> prefix k rest -> fs !! (cur ++ k) <> Some (File s)) ->
  exists fs', mkdir_all_from fs cur rest = Ok fs'.
Proof.
  revert fs cur. induction rest as [|c r IH]; intros fs cur Hwf Hcur Hnf; simpl; [eauto|].
  assert (Hshift : forall fs0 : fsys, (forall k s, k <> [] -> prefix k (c :: r) ->
                                  fs0 !! (cur ++ k) <> Some (File s)) ->
                   forall k s, k <> [] -> prefix k r -> fs0 !! ((cur ++ [c]) ++ k) <> Some (File s)).
  { intros fs0 H0 k s Hk Hpre. rewrite <- List.app_assoc. apply (H0 (c :: k));
      [discriminate|by apply prefix_cons]. }
  destruct (fs !! (cur ++ [c])) as [[|s]|] eqn:Hd.
  - apply IH; [done|done|by apply Hshift].
  - exfalso. apply (Hnf [c] s); [discriminate|by apply prefix_cons, prefix_nil|done].
  - apply IH; [apply wf_insert; [done|apply app_last_neq_nil|by rewrite removelast_last|by left]
              |apply lookup_insert_eq|].
    apply Hshift. intros k s Hk Hpre. destruct (decide (cur ++ k = cur ++ [c])) as [E|E].
    + rewrite E, lookup_insert_eq. discriminate.
    + rewrite lookup_insert_ne by congruence. by apply Hnf.
Qed.

(** [os.Remove] of a regular file deletes exactly that node. *)
Lemma remove_file (fs : fsys) (path s : string) :
  wf fs -> fs !! resolve path = Some (File s) ->
  remove fs path = Ok (delete (resolve path) fs).
Proof.
  intros Hwf Hp. unfold remove.
  by rewrite (walk_parent_of_node fs _ (File s) Hwf Hp), Hp.
Qed.

Lemma remove_file_wf (fs : fsys) (path s : string) :
  wf fs -> fs !! resolve path = Some (File s) -> wf (delete (resolve path) fs).
Proof.
  intros Hwf Hp. apply wf_delete; [done| |].
  - intros E. rewrite E in Hp. destruct Hwf; congruence.
  - intros q n Hq Hq0. by apply (wf_file_no_child fs _ q s n).
Qed.

(** A walk fails only with ENOENT or ENOTDIR, and with ENOENT when no
    regular file lies on the way. *)
Lemma walk_no_file (fs : fsys) (cur rest : list string) (e : errno) :
  (forall k s, k <> [] -> k `prefix_of` rest -> fs !! (cur ++ k) <> Some (File s)) ->
  walk fs cur rest = Err e -> e = ENOENT.
Proof.
  revert cur. induction rest as [|c r IH]; intros cur Hnf; simpl; [discriminate|].
  destruct (fs !! (cur ++ [c])) as [[|s]|] eqn:Hc.
  - apply IH. intros k s Hk Hpre. rewrite <- List.app_assoc.
    apply (Hnf (c :: k)); [discriminate|by apply prefix_cons].
  - exfalso. apply (Hnf [c] s); [discriminate|by apply prefix_cons, prefix_nil|done].
  - congruence.
Qed.

(** Every ancestor of a directory of a well-formed tree is a directory. *)
Lemma no_file_above_dir (fs : fsys) (d k : list string) (c : string) :
  wf fs -> fs !! d = Some Dir -> k `prefix_of` d -> fs !! k <> Some (File c).
Proof.
  intros Hwf Hd [t ->] Hk. destruct t as [|x t].
  - rewrite List.app_nil_r in Hd. congruence.
  - rewrite (wf_ancestor fs k (x :: t) Dir Hwf Hd) in Hk; [discriminate|discriminate].
Qed.

Lemma remove_inv (fs fs' : fsys) (path : string) :
  wf fs -> remove fs path = Ok fs' ->
  fs' = delete (resolve path) fs /\ resolve path <> [] /\
  exists n, fs !! resolve path = Some n /\
    (n = Dir -> forall q m, fs !! q = Some m -> q <> [] -> removelast q <> resolve path).
Proof.
  intros Hwf. unfold remove.
  destruct (walk_parent fs (resolve path)) as [[]|e]; [|discriminate].
  destruct (fs !! resolve path) as [[|c]|] eqn:Hp; [| |discriminate].
  - destruct (has_child fs (resolve path)) eqn:Hc; [discriminate|].
    destruct (bool_decide (resolve path = [])) eqn:Hr; [discriminate|]. simpl.
    intros H; simplify_eq. apply bool_decide_eq_false in Hr.
    split_and!; [done|done|]. exists Dir. split; [done|]. intros _ q m Hq Hq0 E.
    unfold has_child in Hc. apply bool_decide_eq_false in Hc. apply Hc.
    exists q. split_and!; [by apply elem_of_dom_2 in Hq|done|done].
  - intros H; simplify_eq. split_and!; [done| |].
    + intros E. rewrite E in Hp. destruct Hwf; congruence.
    + exists (File c). split; [done|discriminate].
Qed.

Lemma remove_wf (fs fs' : fsys) (path : string) :
  wf fs -> remove fs path = Ok fs' -> wf fs'.
Proof.
  intros Hwf H. apply remove_inv in H as (-> & Hne & n & Hp & Hdir); [|done].
  apply wf_delete; [done|done|]. destruct n as [|c].
  - by apply Hdir.
  - intros q m Hq Hq0. by apply (wf_file_no_child fs _ q c m).
Qed.

(** [os.RemoveAll] keeps a tree well formed: a node it keeps is not
    below the removed path, so neither is its parent, which it keeps. *)
Lemma remove_all_wf (fs : fsys) (path : string) : wf fs -> wf (remove_all fs path).
Proof.
  intros [Hroot Hwf]. unfold remove_all. split.
  - apply map_lookup_filter_Some_2; [done|simpl; by right].
  - intros q n Hq Hq0. apply map_lookup_filter_Some in Hq as [Hq Hk]. simpl in Hk.
    apply map_lookup_filter_Some_2; [by apply (Hwf q n)|]. simpl.
    destruct Hk as [Hk|]; [left|done]. intros Hpre. apply Hk.
    transitivity (removelast q); [done|]. exists [List.last q ""].
    by apply app_removelast_last.
Qed.

(** ** Temporary directories *)

Lemma mkdir_inv (fs fs' : fsys) (path : string) :
  wf fs -> mkdir fs path = Ok fs' ->
  fs' = <[resolve path := Dir]> fs /\ fs !! resolve path = None /\ resolve path <> [] /\
  fs !! removelast (resolve path) = Some Dir.
Proof.
  intros Hwf. unfold mkdir.
  destruct (walk_parent fs (resolve path)) as [[]|e] eqn:Hw; [|discriminate].
  destruct (fs !! resolve path) eqn:Hp; [discriminate|].
  case_decide as Hne; [discriminate|]. intros H; simplify_eq.
  split_and!; [done|done|done|]. by apply walk_parent_ok_iff.
Qed.

Lemma temp_dir_loop_ok (n : nat) (fs fs' : fsys) (dir pattern d : string) (sfx rest : list string)
  (e0 : PathError) :
  temp_dir_loop n fs dir pattern sfx e0 = (Ok (d, fs'), rest) -> mkdir fs d = Ok fs'.
Proof.
  revert sfx e0. induction n as [|n IH]; intros [|s sfx] e0 H; simpl in H; try discriminate.
  destruct (mkdir fs (dir +:+ "/" +:+ pattern +:+ s)) as [fs0|e] eqn:Hm.
  - simplify_eq. exact Hm.
  - destruct (pe_err e); try discriminate. by apply (IH sfx e).
Qed.

(** The name [ioutil.TempDir] tries with the suffix [s]. *)
Definition temp_name (dir pattern s : string) : string := dir +:+ "/" +:+ pattern +:+ s.

(** A suffix whose name [os.Mkdir] refuses because it exists. *)
Definition taken (fs : fsys) (dir pattern s : string) : Prop :=
  mkdir fs (temp_name dir pattern s) = Err (mkPathError "mkdir" (temp_name dir pattern s) EEXIST).

(** Enough tries: when every suffix before [s] names an existing entry
    and [s] names a directory [os.Mkdir] can create, the loop returns
    that directory, having drawn exactly the suffixes up to [s]. *)
Lemma temp_dir_loop_first_free (n : nat) (fs fs' : fsys) (dir pattern s : string) (pre rest : list string)
  (e0 : PathError) :
  length pre < n -> Forall (taken fs dir pattern) pre ->
  mkdir fs (temp_name dir pattern s) = Ok fs' ->
  temp_dir_loop n fs dir pattern (pre ++ s :: rest) e0 = (Ok (temp_name dir pattern s, fs'), rest).
Proof.
  revert n e0. induction pre as [|p pre IH]; intros [|n] e0 Hlen Hpre Hs; simpl in *; try lia.
  - unfold temp_name in Hs. by rewrite Hs.
  - inversion Hpre as [|? ? He Hpre']; subst.
    unfold taken, temp_name in He. rewrite He. simpl. apply IH; [lia|done|done].
Qed.

(** The bound: when the first [n] suffixes all name existing entries,
    the loop gives up after drawing them, with the EEXIST error of the
    last name it tried. *)
Lemma temp_dir_loop_exhausted (n : nat) (fs : fsys) (dir pattern : string) (sfx : list string)
  (e0 : PathError) :
  1 <= n <= length sfx -> Forall (taken fs dir pattern) (take n sfx) ->
  temp_dir_loop n fs dir pattern sfx e0
  = (Err (mkPathError "mkdir" (temp_name dir pattern (List.last (take n sfx) "")) EEXIST), drop n sfx).
Proof.
  revert sfx e0. induction n as [|n IH]; intros [|p sfx] e0 Hlen Htk; simpl in *; try lia.
  inversion Htk as [|? ? He Htk']; subst. unfold taken, temp_name in He. rewrite He. simpl.
  destruct n as [|m]; [reflexivity|].
  destruct sfx as [|q sfx]; simpl in Hlen; [lia|].
  rewrite IH; [reflexivity|simpl; lia|done].
Qed.

(** A directory [ioutil.TempDir] returns is new, empty, and well placed. *)
Lemma temp_dir_ok (fs fs' : fsys) (dir pattern d : string) (sfx rest : list string) :
  wf fs -> temp_dir fs dir pattern sfx = (Ok (d, fs'), rest) ->
  fs' = <[resolve d := Dir]> fs /\ fs !! resolve d = None /\ resolve d <> [] /\
  fs !! removelast (resolve d) = Some Dir /\ wf fs'.
Proof.
  intros Hwf H. apply temp_dir_loop_ok, mkdir_inv in H as (-> & Hn & Hne & Hpar); [|done].
  split_and!; [done|done|done|done|]. apply wf_insert; [done|done|done|by left].
Qed.

(** Nothing lies below a path that does not exist. *)
Lemma nothing_below_missing (fs : fsys) (p q : list string) (n : node) :
  wf fs -> fs !! p = None -> fs !! q = Some n -> ~ p `prefix_of` q.
Proof.
  intros Hwf Hp Hq [t ->]. destruct t as [|x t].
  - rewrite List.app_nil_r in Hq. congruence.
  - rewrite (wf_ancestor fs p (x :: t) n Hwf Hq) in Hp; [discriminate|discriminate].
Qed.

(** [os.MkdirAll] of an existing directory changes nothing. *)
Lemma mkdir_all_existing (fs : fsys) (path : string) :
  wf fs -> fs !! resolve path = Some Dir -> mkdir_all fs path = Ok fs.
Proof.
  intros Hwf Hd. unfold mkdir_all.
  assert (H : forall cur rest, fs !! (cur ++ rest) = Some Dir -> mkdir_all_from fs cur rest = Ok fs).
  { intros cur rest. revert cur. induction rest as [|c r IH]; intros cur Hcr; [done|]. simpl.
    destruct r as [|y r].
    - by rewrite Hcr.
    - rewrite (wf_ancestor fs (cur ++ [c]) (y :: r) Dir Hwf); [|by rewrite <- List.app_assoc|discriminate].
      apply IH. by rewrite <- List.app_assoc. }
  by rewrite (H [] (resolve path) Hd).
Qed.

(** Right after [os.Mkdir] of a new directory, nothing lies below it. *)
Lemma fresh_dir_below (fs : fsys) (p q : list string) :
  wf fs -> fs !! p = None -> p `prefix_of` q -> q <> p -> (<[p := Dir]> fs) !! q = None.
Proof.
  intros Hwf Hp Hpq Hq. rewrite lookup_insert_ne by congruence.
  destruct (fs !! q) as [n|] eqn:E; [|done].
  exfalso. by apply (nothing_below_missing fs p q n).
Qed.

(** The walk to a path two or more levels below a new directory stops
    with ENOENT at the first missing level. *)
Lemma walk_below_fresh (fs : fsys) (p : list string) (c : string) (r : list string) :
  wf fs -> fs !! p = None -> p <> [] -> fs !! removelast p = Some Dir ->
  walk (<[p := Dir]> fs) [] (p ++ c :: r) = Err ENOENT.
Proof.
  intros Hwf Hp Hne Hpar. rewrite walk_app.
  rewrite (proj2 (walk_ok_iff _ [] p (wf_insert fs p Dir Hwf Hne Hpar (or_introl eq_refl)))).
  - simpl. rewrite fresh_dir_below; [done|done|done| |].
    + by exists [c].
    + intros E. apply (f_equal length) in E. rewrite length_app in E. simpl in E. lia.
  - right. apply lookup_insert_eq.
Qed.

End Fs.
