(* ===== verification/Paths.v ===== *)
(** * Prefix resolver ([util.Prefix], [util.GetPrefix], [util.IsPrefixed]
    and the derived paths)

    Process-wide state: the prefix, a string that is empty at start.
    Every derived path is the prefix followed by a fixed suffix; nothing
    is created on the filesystem by asking for a path.  Modelled from the
    specification (section 4.1): the implementation file of package util
    is not part of the sources. *)

From stdpp Require Import base strings list gmap.
From Stdlib Require Import ZArith Lia Ascii Morphisms.
From S2P Require Import Prelude Fs.

(** What the resolver promises the PID file manager: a PID file path
    whose directory is the run directory, and which is not the root. *)
Class PidLocation (S : Type) := {
  pid_file_of : S -> string;
  run_dir_of : S -> string;
  pid_file_in_run_dir : forall s, removelast (Fs.resolve (pid_file_of s)) = Fs.resolve (run_dir_of s);
  pid_file_not_root : forall s, Fs.resolve (pid_file_of s) <> []
}.

Module Paths.

Definition tool : string := "polly".

Record Resolver := mkResolver { prefix : string }.

(** At process start the prefix is the empty string. *)
Definition init : Resolver := mkResolver "".

(** [Prefix(p)]: last write wins, no validation. *)
Definition Prefix (p : string) (r : Resolver) : Resolver := mkResolver p.

Definition GetPrefix (r : Resolver) : string := prefix r.

(** Both [""] and ["/"] count as not prefixed. *)
Definition IsPrefixed (r : Resolver) : bool :=
  negb (String.eqb (prefix r) "" || String.eqb (prefix r) "/").

Definition EtcDirPath (r : Resolver) : string := prefix r +:+ "/etc/" +:+ tool.
Definition EtcFilePath (r : Resolver) (f : string) : string := EtcDirPath r +:+ "/" +:+ f.
Definition RunDirPath (r : Resolver) : string := prefix r +:+ "/var/run/" +:+ tool.
Definition LogDirPath (r : Resolver) : string := prefix r +:+ "/var/log/" +:+ tool.
Definition LogFilePath (r : Resolver) (f : string) : string := LogDirPath r +:+ "/" +:+ f.
Definition LibDirPath (r : Resolver) : string := prefix r +:+ "/var/lib/" +:+ tool.
Definition LibFilePath (r : Resolver) (f : string) : string := LibDirPath r +:+ "/" +:+ f.
Definition BinDirPath (r : Resolver) : string := prefix r +:+ "/usr/bin".
Definition BinFilePath (r : Resolver) : string := BinDirPath r +:+ "/" +:+ tool.
Definition PidFilePath (r : Resolver) : string := RunDirPath r +:+ "/" +:+ tool +:+ ".pid".

(** The directories the installer creates and the uninstaller removes
    (the persisted layout of section 6 of the specification). *)
Definition install_dirs (r : Resolver) : list string :=
  [EtcDirPath r; RunDirPath r; LogDirPath r; LibDirPath r; BinDirPath r].

(** ** Prefixes that name the same directory *)

Definition same_dir (a b : string) : Prop := Fs.resolve a = Fs.resolve b.

#[global] Instance same_dir_equiv : Equivalence same_dir.
Proof. split; repeat intro; unfold same_dir in *; congruence. Qed.

(** Resolvers are equivalent when their prefixes name the same directory. *)
Definition res_equiv (r1 r2 : Resolver) : Prop := same_dir (prefix r1) (prefix r2).

#[global] Instance res_equiv_equiv : Equivalence res_equiv.
Proof. unfold res_equiv. split; repeat intro; [reflexivity|by symmetry|etransitivity; eauto]. Qed.

(** ** Resolution of the derived paths *)

Section Derived.
Variable r : Resolver.
Let P := Fs.resolve (prefix r).

Lemma resolve_EtcDirPath : Fs.resolve (EtcDirPath r) = P ++ ["etc"; "polly"].
Proof. exact (Fs.resolve_slash (prefix r) "etc/polly"). Qed.
Lemma resolve_RunDirPath : Fs.resolve (RunDirPath r) = P ++ ["var"; "run"; "polly"].
Proof. exact (Fs.resolve_slash (prefix r) "var/run/polly"). Qed.
Lemma resolve_LogDirPath : Fs.resolve (LogDirPath r) = P ++ ["var"; "log"; "polly"].
Proof. exact (Fs.resolve_slash (prefix r) "var/log/polly"). Qed.
Lemma resolve_LibDirPath : Fs.resolve (LibDirPath r) = P ++ ["var"; "lib"; "polly"].
Proof. exact (Fs.resolve_slash (prefix r) "var/lib/polly"). Qed.
Lemma resolve_BinDirPath : Fs.resolve (BinDirPath r) = P ++ ["usr"; "bin"].
Proof. exact (Fs.resolve_slash (prefix r) "usr/bin"). Qed.

Lemma resolve_BinFilePath : Fs.resolve (BinFilePath r) = P ++ ["usr"; "bin"; "polly"].
Proof.
  transitivity (Fs.resolve (BinDirPath r) ++ Fs.resolve "polly");
    [exact (Fs.resolve_slash (BinDirPath r) "polly")|].
  rewrite resolve_BinDirPath. by rewrite <- List.app_assoc.
Qed.

Lemma resolve_PidFilePath : Fs.resolve (PidFilePath r) = P ++ ["var"; "run"; "polly"; "polly.pid"].
Proof.
  transitivity (Fs.resolve (RunDirPath r) ++ Fs.resolve "polly.pid");
    [exact (Fs.resolve_slash (RunDirPath r) "polly.pid")|].
  rewrite resolve_RunDirPath. by rewrite <- List.app_assoc.
Qed.

Lemma resolve_file_in (dir f : string) : Fs.resolve (dir +:+ "/" +:+ f) = Fs.resolve dir ++ Fs.resolve f.
Proof. exact (Fs.resolve_slash dir f). Qed.

End Derived.

#[global] Hint Rewrite resolve_EtcDirPath resolve_RunDirPath resolve_LogDirPath
  resolve_LibDirPath resolve_BinDirPath resolve_BinFilePath resolve_PidFilePath
  resolve_file_in : polly_rw.

(** The derived paths depend on the prefix only through the directory it
    names. *)
Ltac solve_derived_proper :=
  intros ?? E; unfold res_equiv, same_dir in *; autorewrite with polly_rw; by rewrite E.

#[global] Instance EtcDirPath_proper : Proper (res_equiv ==> same_dir) EtcDirPath.
Proof. solve_derived_proper. Qed.
#[global] Instance RunDirPath_proper : Proper (res_equiv ==> same_dir) RunDirPath.
Proof. solve_derived_proper. Qed.
#[global] Instance LogDirPath_proper : Proper (res_equiv ==> same_dir) LogDirPath.
Proof. solve_derived_proper. Qed.
#[global] Instance LibDirPath_proper : Proper (res_equiv ==> same_dir) LibDirPath.
Proof. solve_derived_proper. Qed.
#[global] Instance BinDirPath_proper : Proper (res_equiv ==> same_dir) BinDirPath.
Proof. solve_derived_proper. Qed.
#[global] Instance BinFilePath_proper : Proper (res_equiv ==> same_dir) BinFilePath.
Proof. solve_derived_proper. Qed.
#[global] Instance PidFilePath_proper : Proper (res_equiv ==> same_dir) PidFilePath.
Proof. solve_derived_proper. Qed.
#[global] Instance EtcFilePath_proper : Proper (res_equiv ==> same_dir ==> same_dir) EtcFilePath.
Proof. intros ?? E ?? F. unfold res_equiv, same_dir, EtcFilePath in *. autorewrite with polly_rw. by rewrite E, F. Qed.
#[global] Instance LogFilePath_proper : Proper (res_equiv ==> same_dir ==> same_dir) LogFilePath.
Proof. intros ?? E ?? F. unfold res_equiv, same_dir, LogFilePath in *. autorewrite with polly_rw. by rewrite E, F. Qed.
#[global] Instance LibFilePath_proper : Proper (res_equiv ==> same_dir ==> same_dir) LibFilePath.
Proof. intros ?? E ?? F. unfold res_equiv, same_dir, LibFilePath in *. autorewrite with polly_rw. by rewrite E, F. Qed.

#[global] Program Instance resolver_pid_location : PidLocation Resolver := {|
  pid_file_of := PidFilePath;
  run_dir_of := RunDirPath
|}.
Next Obligation.
  intros r. rewrite resolve_PidFilePath, resolve_RunDirPath.
  rewrite (List.app_assoc _ ["var"; "run"; "polly"] ["polly.pid"]). apply removelast_last.
Qed.
Next Obligation.
  intros r. rewrite resolve_PidFilePath. intros E. apply app_eq_nil in E. by destruct E.
Qed.

(** ** Properties of the resolver *)

(** After [Prefix(s)], [GetPrefix()] returns [s] verbatim, and
    [IsPrefixed()] holds exactly when [s] is neither [""] nor ["/"]. *)
Theorem Prefix_spec (s : string) (r : Resolver) :
  GetPrefix (Prefix s r) = s /\
  (IsPrefixed (Prefix s r) = true <-> s <> "" /\ s <> "/").
Proof.
  split; [done|]. unfold IsPrefixed, Prefix. simpl.
  destruct (String.eqb_spec s ""), (String.eqb_spec s "/"); simpl; naive_solver.
Qed.

(** Every derived path is the prefix's directory followed by its fixed
    components: [etc/polly], [var/run/polly], [var/log/polly],
    [var/lib/polly], [usr/bin], the binary [usr/bin/polly] and the PID file
    [var/run/polly/polly.pid]; and each [...FilePath(f)] is its directory
    followed by [f]. *)
Theorem derived_paths_layout (r : Resolver) (f : string) :
  let P := Fs.resolve (prefix r) in
  Fs.resolve (EtcDirPath r) = P ++ ["etc"; "polly"] /\
  Fs.resolve (RunDirPath r) = P ++ ["var"; "run"; "polly"] /\
  Fs.resolve (LogDirPath r) = P ++ ["var"; "log"; "polly"] /\
  Fs.resolve (LibDirPath r) = P ++ ["var"; "lib"; "polly"] /\
  Fs.resolve (BinDirPath r) = P ++ ["usr"; "bin"] /\
  Fs.resolve (BinFilePath r) = P ++ ["usr"; "bin"; "polly"] /\
  Fs.resolve (PidFilePath r) = P ++ ["var"; "run"; "polly"; "polly.pid"] /\
  Fs.resolve (EtcFilePath r f) = Fs.resolve (EtcDirPath r) ++ Fs.resolve f /\
  Fs.resolve (LogFilePath r f) = Fs.resolve (LogDirPath r) ++ Fs.resolve f /\
  Fs.resolve (LibFilePath r f) = Fs.resolve (LibDirPath r) ++ Fs.resolve f.
Proof.
  unfold EtcFilePath, LogFilePath, LibFilePath.
  split_and!; by autorewrite with polly_rw.
Qed.

(** When the resolver is not prefixed, every derived path names the
    same file as with the default (empty) prefix: [""] and ["/"] both mean
    the filesystem root. *)
Theorem not_prefixed_default (r : Resolver) :
  IsPrefixed r = false ->
  res_equiv r init /\
  same_dir (EtcDirPath r) (EtcDirPath init) /\ same_dir (RunDirPath r) (RunDirPath init) /\
  same_dir (LogDirPath r) (LogDirPath init) /\ same_dir (LibDirPath r) (LibDirPath init) /\
  same_dir (BinDirPath r) (BinDirPath init) /\ same_dir (BinFilePath r) (BinFilePath init) /\
  same_dir (PidFilePath r) (PidFilePath init).
Proof.
  intros H. assert (E : res_equiv r init).
  { unfold IsPrefixed in H. apply negb_false_iff, orb_true_iff in H.
    unfold res_equiv, same_dir. by destruct H as [H|H]; apply String.eqb_eq in H; rewrite H. }
  split; [done|]. by split_and!; rewrite E.
Qed.

Lemma not_prefixed_default_witness :
  IsPrefixed (mkResolver "/") = false /\
  same_dir (PidFilePath (mkResolver "/")) (PidFilePath init).
Proof.
  split; [reflexivity|]. apply (not_prefixed_default (mkResolver "/")). reflexivity.
Defined.

(** Two resolvers use the same PID file exactly when their prefixes
    name the same directory. *)
Theorem pid_file_iff_prefix (r1 r2 : Resolver) :
  same_dir (PidFilePath r1) (PidFilePath r2) <-> res_equiv r1 r2.
Proof.
  split; [|by intros ->].
  unfold same_dir, res_equiv. rewrite !resolve_PidFilePath. apply app_inv_tail.
Qed.

Definition install_suffixes : list (list string) :=
  [["etc"; "polly"]; ["var"; "run"; "polly"]; ["var"; "log"; "polly"];
   ["var"; "lib"; "polly"]; ["usr"; "bin"]].

Lemma resolve_install_dirs (r : Resolver) :
  Fs.resolve <$> install_dirs r = (fun s => Fs.resolve (prefix r) ++ s) <$> install_suffixes.
Proof. unfold install_dirs. simpl. by autorewrite with polly_rw. Qed.

Lemma install_suffixes_disjoint (i j : nat) (s1 s2 : list string) :
  install_suffixes !! i = Some s1 -> install_suffixes !! j = Some s2 -> i <> j ->
  ~ s1 `prefix_of` s2.
Proof.
  intros Hi Hj Hij.
  pose proof (lookup_lt_Some _ _ _ Hi) as Li. pose proof (lookup_lt_Some _ _ _ Hj) as Lj.
  simpl in Li, Lj.
  destruct i as [|[|[|[|[|i]]]]]; try lia; destruct j as [|[|[|[|[|j]]]]]; try lia;
    simpl in Hi, Hj; simplify_eq; try lia;
    intros [k Hk]; simplify_eq.
Qed.

(** No install directory contains another one: removing one of them
    with everything below it leaves the others in place. *)
Theorem install_dirs_disjoint (r : Resolver) (i j : nat) (d1 d2 : string) :
  install_dirs r !! i = Some d1 -> install_dirs r !! j = Some d2 -> i <> j ->
  ~ Fs.resolve d1 `prefix_of` Fs.resolve d2.
Proof.
  intros Hi Hj Hij Hp.
  assert (Ri : (Fs.resolve <$> install_dirs r) !! i = Some (Fs.resolve d1)) by
    (rewrite list_lookup_fmap, Hi; done).
  assert (Rj : (Fs.resolve <$> install_dirs r) !! j = Some (Fs.resolve d2)) by
    (rewrite list_lookup_fmap, Hj; done).
  rewrite resolve_install_dirs, list_lookup_fmap in Ri, Rj.
  destruct (install_suffixes !! i) as [s1|] eqn:E1; simpl in Ri; [|discriminate].
  destruct (install_suffixes !! j) as [s2|] eqn:E2; simpl in Rj; [|discriminate].
  injection Ri as Ri. injection Rj as Rj. rewrite <- Ri, <- Rj in Hp.
  apply prefix_app_inv in Hp.
  exact (install_suffixes_disjoint i j s1 s2 E1 E2 Hij Hp).
Qed.

Lemma install_dirs_disjoint_witness :
  install_dirs (mkResolver "/tmp/x") !! 1 = Some "/tmp/x/var/run/polly" /\
  install_dirs (mkResolver "/tmp/x") !! 2 = Some "/tmp/x/var/log/polly" /\
  ~ Fs.resolve "/tmp/x/var/run/polly" `prefix_of` Fs.resolve "/tmp/x/var/log/polly".
Proof.
  split_and!; [reflexivity|reflexivity|].
  apply (install_dirs_disjoint (mkResolver "/tmp/x") 1 2); [reflexivity|reflexivity|lia].
Defined.

Example EtcDirPath_tmp_xyz : EtcDirPath (Prefix "/tmp/xyz" init) = "/tmp/xyz/etc/polly".
Proof. reflexivity. Qed.

Example PidFilePath_tmp_xyz :
  PidFilePath (Prefix "/tmp/xyz" init) = "/tmp/xyz/var/run/polly/polly.pid".
Proof. reflexivity. Qed.

End Paths.
