(* ===== verification/PidFile.v ===== *)
(** * PID file manager ([util.WritePidFile], [util.ReadPidFile])

    The PID file is [<run dir>/polly.pid] and holds the decimal text of a
    process id.  The manager is written against the [PidLocation]
    interface of the resolver: its theorems use only that the PID file
    sits in the run directory.  Modelled from the specification (section
    4.2): the implementation file of package util is not part of the
    sources. *)

From stdpp Require Import base strings list gmap.
From Stdlib Require Import ZArith Lia Ascii.
From S2P Require Import Prelude GoInt Fs Paths.

Module PidFile.

(** The process as the manager sees it: the resolver state, the
    filesystem and the value [os.Getpid()] returns. *)
Record World (S : Type) := mkWorld {
  w_loc : S;
  w_fs : Fs.fsys;
  w_pid : Z
}.
Arguments mkWorld {S} _ _ _.
Arguments w_loc {S} _.
Arguments w_fs {S} _.
Arguments w_pid {S} _.

Definition set_fs {S} (w : World S) (fs : Fs.fsys) : World S :=
  mkWorld (w_loc w) fs (w_pid w).

(** The errors [ReadPidFile] returns: the filesystem's, or the parse's. *)
Inductive PidError :=
| ErrFs (e : Fs.PathError)
| ErrParse (e : GoInt.NumError).

Section Manager.
Context {S : Type} `{L : PidLocation S}.

(** [WritePidFile(pid)]: a negative [pid] stands for the calling
    process; the decimal text replaces the file's content. *)
Definition WritePidFile (pid : Z) (w : World S) : result (World S) Fs.PathError :=
  let pid := if (pid <? 0)%Z then w_pid w else pid in
  match Fs.write_file (w_fs w) (pid_file_of (w_loc w)) (GoInt.format_int pid) with
  | Ok fs' => Ok (set_fs w fs')
  | Err e => Err e
  end.

(** [ReadPidFile()]: read the file, then parse its content. *)
Definition ReadPidFile (w : World S) : result Z PidError :=
  match Fs.read_file (w_fs w) (pid_file_of (w_loc w)) with
  | Err e => Err (ErrFs e)
  | Ok s => map_err ErrParse (GoInt.parse_int s)
  end.

(** The caller's [os.Remove(PidFilePath())] on clean shutdown. *)
Definition RemovePidFile (w : World S) : result (World S) Fs.PathError :=
  match Fs.remove (w_fs w) (pid_file_of (w_loc w)) with
  | Ok fs' => Ok (set_fs w fs')
  | Err e => Err e
  end.

End Manager.

(** ** Behaviour of the two operations *)

Section ManagerProps.
Context {S : Type} `{L : PidLocation S}.

Definition pid_path (w : World S) : list string := Fs.resolve (pid_file_of (w_loc w)).
Definition run_path (w : World S) : list string := Fs.resolve (run_dir_of (w_loc w)).

(** The value [WritePidFile(pid)] records. *)
Definition effective_pid (pid : Z) (w : World S) : Z := if (pid <? 0)%Z then w_pid w else pid.

(** With its run directory in place and no directory at its own path,
    the PID file is written. *)
Lemma WritePidFile_ok (pid : Z) (w : World S) :
  Fs.wf (w_fs w) -> w_fs w !! run_path w = Some Fs.Dir -> w_fs w !! pid_path w <> Some Fs.Dir ->
  WritePidFile pid w =
    Ok (set_fs w (<[pid_path w := Fs.File (GoInt.format_int (effective_pid pid w))]> (w_fs w))).
Proof.
  intros Hwf Hrun Hd. unfold WritePidFile, pid_path, run_path, effective_pid in *.
  rewrite Fs.write_file_ok; [done|done|apply pid_file_not_root| |done].
  by rewrite pid_file_in_run_dir.
Qed.

Lemma WritePidFile_inv (pid : Z) (w w' : World S) :
  WritePidFile pid w = Ok w' ->
  Fs.write_file (w_fs w) (pid_file_of (w_loc w)) (GoInt.format_int (effective_pid pid w))
    = Ok (w_fs w') /\ w_loc w' = w_loc w /\ w_pid w' = w_pid w.
Proof.
  unfold WritePidFile, effective_pid.
  destruct (Fs.write_file _ _ _) as [fs'|e]; intros H; simplify_eq; done.
Qed.

Lemma ReadPidFile_file (w : World S) (c : string) :
  Fs.wf (w_fs w) -> w_fs w !! pid_path w = Some (Fs.File c) ->
  ReadPidFile w = map_err ErrParse (GoInt.parse_int c).
Proof. intros Hwf Hp. unfold ReadPidFile. by rewrite (Fs.read_file_file _ _ c Hwf Hp). Qed.

(** Write then read: the value written is the value read back, provided
    it is a Go [int] at least 0. *)
Lemma write_then_read (pid : Z) (w : World S) :
  Fs.wf (w_fs w) -> w_fs w !! run_path w = Some Fs.Dir -> w_fs w !! pid_path w <> Some Fs.Dir ->
  (0 <= effective_pid pid w <= GoInt.max_int)%Z ->
  exists w', WritePidFile pid w = Ok w' /\ ReadPidFile w' = Ok (effective_pid pid w).
Proof.
  intros Hwf Hrun Hd Hr. eexists. split; [by apply WritePidFile_ok|].
  rewrite ReadPidFile_file with (c := GoInt.format_int (effective_pid pid w)).
  - by rewrite GoInt.parse_format_roundtrip.
  - apply Fs.wf_insert; [done|apply pid_file_not_root| |by right].
    unfold run_path, pid_path in *. by rewrite pid_file_in_run_dir.
  - apply lookup_insert_eq.
Qed.

End ManagerProps.

Section ManagerClaims.
Context {S : Type} `{L : PidLocation S}.

Lemma effective_pid_nonneg (n : Z) (w : World S) : (0 <= n)%Z -> effective_pid n w = n.
Proof. intros Hn. unfold effective_pid. destruct (Z.ltb_spec n 0); [lia|done]. Qed.

Lemma effective_pid_neg (n : Z) (w : World S) : (n < 0)%Z -> effective_pid n w = w_pid w.
Proof. intros Hn. unfold effective_pid. destruct (Z.ltb_spec n 0); [done|lia]. Qed.

(** With the run directory in place, [WritePidFile(N)] succeeds and a
    following [ReadPidFile()] returns [N], for every Go [int] [N >= 0]. *)
Theorem WritePidFile_ReadPidFile (n : Z) (w : World S) :
  Fs.wf (w_fs w) -> w_fs w !! run_path w = Some Fs.Dir -> w_fs w !! pid_path w <> Some Fs.Dir ->
  (0 <= n <= GoInt.max_int)%Z ->
  exists w', WritePidFile n w = Ok w' /\ ReadPidFile w' = Ok n.
Proof.
  intros Hwf Hrun Hd Hn.
  destruct (write_then_read n w Hwf Hrun Hd) as (w' & H1 & H2);
    [rewrite effective_pid_nonneg; lia|].
  exists w'. by rewrite effective_pid_nonneg in H2 by lia.
Qed.

(** [WritePidFile] of a negative value records the calling process:
    [ReadPidFile()] then returns [os.Getpid()]. *)
Theorem WritePidFile_self (n : Z) (w : World S) :
  Fs.wf (w_fs w) -> w_fs w !! run_path w = Some Fs.Dir -> w_fs w !! pid_path w <> Some Fs.Dir ->
  (n < 0)%Z -> (0 <= w_pid w <= GoInt.max_int)%Z ->
  exists w', WritePidFile n w = Ok w' /\ ReadPidFile w' = Ok (w_pid w).
Proof.
  intros Hwf Hrun Hd Hn Hp.
  destruct (write_then_read n w Hwf Hrun Hd) as (w' & H1 & H2);
    [by rewrite effective_pid_neg|].
  exists w'. by rewrite effective_pid_neg in H2.
Qed.

(** When the run directory is a regular file, [WritePidFile] returns
    the filesystem's ENOTDIR error and changes nothing. *)
Theorem WritePidFile_parent_file (n : Z) (w : World S) (c : string) :
  Fs.wf (w_fs w) -> w_fs w !! run_path w = Some (Fs.File c) ->
  WritePidFile n w = Err (Fs.mkPathError "open" (pid_file_of (w_loc w)) Fs.ENOTDIR).
Proof.
  intros Hwf Hrun. unfold WritePidFile, Fs.write_file, Fs.walk_parent, run_path in *.
  rewrite pid_file_in_run_dir. by rewrite (Fs.walk_to_file _ _ c Hwf Hrun).
Qed.

(** When there is no PID file and no regular file on the way to it,
    [ReadPidFile()] fails with the not-found error. *)
Theorem ReadPidFile_not_found (w : World S) :
  w_fs w !! pid_path w = None ->
  (forall k c, k `prefix_of` run_path w -> w_fs w !! k <> Some (Fs.File c)) ->
  ReadPidFile w = Err (ErrFs (Fs.mkPathError "open" (pid_file_of (w_loc w)) Fs.ENOENT)).
Proof.
  intros Hnone Hnf. unfold ReadPidFile, Fs.read_file.
  destruct (Fs.walk_parent _ _) as [[]|e] eqn:Hw.
  - unfold pid_path in Hnone. by rewrite Hnone.
  - unfold Fs.walk_parent in Hw. rewrite pid_file_in_run_dir in Hw.
    apply Fs.walk_no_file in Hw as ->; [done|]. intros k c _ Hk. by apply Hnf.
Qed.

(** A PID file whose content does not parse makes [ReadPidFile()]
    fail with the parse error, not with a value. *)
Theorem ReadPidFile_parse_error (w : World S) (c : string) (ne : GoInt.NumError) :
  Fs.wf (w_fs w) -> w_fs w !! pid_path w = Some (Fs.File c) -> GoInt.parse_int c = Err ne ->
  ReadPidFile w = Err (ErrParse ne).
Proof. intros Hwf Hp Hc. by rewrite (ReadPidFile_file w c Hwf Hp), Hc. Qed.

(** A successful [WritePidFile] keeps the filesystem well formed,
    leaves the prefix and the process alone, and changes no path but the
    PID file's. *)
Theorem WritePidFile_frame (n : Z) (w w' : World S) :
  Fs.wf (w_fs w) -> WritePidFile n w = Ok w' ->
  Fs.wf (w_fs w') /\ w_loc w' = w_loc w /\ w_pid w' = w_pid w /\
  forall q, q <> pid_path w -> w_fs w' !! q = w_fs w !! q.
Proof.
  intros Hwf H. apply WritePidFile_inv in H as (Hw & Hloc & Hpid).
  split_and!; [by eapply Fs.write_file_wf|done|done|].
  apply Fs.write_file_inv in Hw as (-> & _). intros q Hq.
  rewrite lookup_insert_ne; [done|]. unfold pid_path in Hq. congruence.
Qed.

End ManagerClaims.

(** ** Concrete worlds for the witnesses *)

Definition fs_with_run : Fs.fsys :=
  {[ [] := Fs.Dir; ["var"] := Fs.Dir; ["var"; "run"] := Fs.Dir; ["var"; "run"; "polly"] := Fs.Dir ]}.

Definition world_run : World Paths.Resolver := mkWorld Paths.init fs_with_run 4242.

Definition fs_run_is_file : Fs.fsys :=
  {[ [] := Fs.Dir; ["var"] := Fs.Dir; ["var"; "run"] := Fs.Dir; ["var"; "run"; "polly"] := Fs.File "" ]}.

Definition fs_hello : Fs.fsys :=
  <[ ["var"; "run"; "polly"; "polly.pid"] := Fs.File "hello" ]> fs_with_run.

Lemma WritePidFile_ReadPidFile_witness :
  exists w', WritePidFile 31337 world_run = Ok w' /\ ReadPidFile w' = Ok 31337%Z.
Proof.
  apply (WritePidFile_ReadPidFile 31337 world_run).
  - apply (bool_decide_unpack _). vm_compute. exact I.
  - vm_compute. reflexivity.
  - vm_compute. discriminate.
  - unfold GoInt.max_int. lia.
Defined.

Lemma WritePidFile_self_witness :
  exists w', WritePidFile (-1) world_run = Ok w' /\ ReadPidFile w' = Ok 4242%Z.
Proof.
  apply (WritePidFile_self (-1) world_run).
  - apply (bool_decide_unpack _). vm_compute. exact I.
  - vm_compute. reflexivity.
  - vm_compute. discriminate.
  - lia.
  - simpl. unfold GoInt.max_int. lia.
Defined.

Lemma WritePidFile_parent_file_witness :
  WritePidFile 7 (mkWorld Paths.init fs_run_is_file 4242)
  = Err (Fs.mkPathError "open" "/var/run/polly/polly.pid" Fs.ENOTDIR).
Proof.
  rewrite (WritePidFile_parent_file 7 (mkWorld Paths.init fs_run_is_file 4242) "").
  - reflexivity.
  - apply (bool_decide_unpack _). vm_compute. exact I.
  - vm_compute. reflexivity.
Defined.

Lemma ReadPidFile_not_found_witness :
  ReadPidFile world_run = Err (ErrFs (Fs.mkPathError "open" "/var/run/polly/polly.pid" Fs.ENOENT)).
Proof.
  rewrite (ReadPidFile_not_found world_run).
  - reflexivity.
  - vm_compute. reflexivity.
  - intros k c. apply Fs.no_file_above_dir.
    + apply (bool_decide_unpack _). vm_compute. exact I.
    + vm_compute. reflexivity.
Defined.

Lemma ReadPidFile_parse_error_witness :
  ReadPidFile (mkWorld Paths.init fs_hello 4242)
  = Err (ErrParse (GoInt.mkNumError "Atoi" "hello" GoInt.ErrSyntax)).
Proof.
  apply (ReadPidFile_parse_error (mkWorld Paths.init fs_hello 4242) "hello").
  - apply (bool_decide_unpack _). vm_compute. exact I.
  - vm_compute. reflexivity.
  - vm_compute. reflexivity.
Defined.

Lemma WritePidFile_frame_witness :
  exists w', WritePidFile 99 world_run = Ok w' /\ Fs.wf (w_fs w') /\
             w_fs w' !! ["var"; "run"] = Some Fs.Dir.
Proof.
  assert (Hwf : Fs.wf (w_fs world_run)) by (apply (bool_decide_unpack _); vm_compute; exact I).
  destruct (WritePidFile 99 world_run) as [w'|e] eqn:E; [|vm_compute in E; discriminate].
  destruct (WritePidFile_frame 99 world_run w' Hwf E) as (Hwf' & _ & _ & Hq).
  exists w'. split_and!; [reflexivity|exact Hwf'|].
  rewrite Hq; [reflexivity|vm_compute; discriminate].
Defined.

(** ** The PID file as a two-state machine

    Section 4.2 of the specification: the file is absent or present with
    a value; [WritePidFile] moves to present from either state and the
    caller's delete moves from present to absent. *)

Inductive pid_state := Absent | Present (n : Z).

Inductive spec_step : pid_state -> pid_state -> Prop :=
| spec_write (s : pid_state) (n : Z) : (0 <= n <= GoInt.max_int)%Z -> spec_step s (Present n)
| spec_delete (n : Z) : spec_step (Present n) Absent.

(** The calls that change the PID file: [WritePidFile(pid)] with a Go
    [int], and the caller's removal. *)
Inductive op := OpWrite (pid : Z) | OpRemove.

Definition valid_op (o : op) : Prop :=
  match o with OpWrite pid => (pid <= GoInt.max_int)%Z | OpRemove => True end.

Section Machine.
Context {S : Type} `{L : PidLocation S}.

(** The state a world represents; [None] for content the machine never
    produces (a directory, or text that does not parse). *)
Definition abs (w : World S) : option pid_state :=
  match w_fs w !! pid_path w with
  | None => Some Absent
  | Some Fs.Dir => None
  | Some (Fs.File c) =>
      match GoInt.parse_int c with Ok n => Some (Present n) | Err _ => None end
  end.

Definition exec (o : op) (w : World S) : result (World S) Fs.PathError :=
  match o with
  | OpWrite pid => WritePidFile pid w
  | OpRemove => RemovePidFile w
  end.

(** A sequence of calls; a failing call returns its error and leaves the
    world as it was. *)
Fixpoint run (ops : list op) (w : World S) : World S :=
  match ops with
  | [] => w
  | o :: os => match exec o w with Ok w' => run os w' | Err _ => run os w end
  end.

(** The representation invariant. *)
Definition pid_inv (w : World S) : Prop :=
  Fs.wf (w_fs w) /\ (0 <= w_pid w <= GoInt.max_int)%Z /\ abs w <> None.

Lemma abs_after_write (pid : Z) (w w' : World S) :
  WritePidFile pid w = Ok w' -> (0 <= effective_pid pid w <= GoInt.max_int)%Z ->
  abs w' = Some (Present (effective_pid pid w)).
Proof.
  intros H Hr. apply WritePidFile_inv in H as (Hw & Hloc & _).
  apply Fs.write_file_inv in Hw as (Hfs & _).
  unfold abs, pid_path. rewrite Hloc, Hfs, lookup_insert_eq.
  by rewrite GoInt.parse_format_roundtrip.
Qed.

Lemma effective_pid_range (pid : Z) (w : World S) :
  (0 <= w_pid w <= GoInt.max_int)%Z -> (pid <= GoInt.max_int)%Z ->
  (0 <= effective_pid pid w <= GoInt.max_int)%Z.
Proof. unfold effective_pid. destruct (Z.ltb_spec pid 0); lia. Qed.

Lemma RemovePidFile_inv (w w' : World S) :
  Fs.wf (w_fs w) -> RemovePidFile w = Ok w' ->
  w_fs w' = delete (pid_path w) (w_fs w) /\ w_loc w' = w_loc w /\ w_pid w' = w_pid w /\
  exists n, w_fs w !! pid_path w = Some n.
Proof.
  intros Hwf. unfold RemovePidFile. destruct (Fs.remove _ _) as [fs'|e] eqn:Hr; [|discriminate].
  intros H; simplify_eq. apply Fs.remove_inv in Hr as (-> & _ & n & Hn & _); [|done].
  split_and!; [done|done|done|]. by exists n.
Qed.

(** Every successful call is a step of the specification machine. *)
Lemma exec_step (o : op) (w w' : World S) (a : pid_state) :
  pid_inv w -> valid_op o -> abs w = Some a -> exec o w = Ok w' ->
  pid_inv w' /\ exists a', spec_step a a' /\ abs w' = Some a'.
Proof.
  intros (Hwf & Hpid & _) Hvalid Ha Hexec. destruct o as [pid|]; simpl in Hexec, Hvalid.
  - pose proof (effective_pid_range pid w Hpid Hvalid) as Hr.
    pose proof (abs_after_write _ _ _ Hexec Hr) as Ha'.
    destruct (WritePidFile_inv pid w w' Hexec) as (Hw & _ & Hpid').
    pose proof (Fs.write_file_wf _ _ _ _ Hwf Hw) as Hwf'.
    split; [split; [done|split; [by rewrite Hpid'|by rewrite Ha']]|].
    eexists. split; [apply spec_write; exact Hr|done].
  - destruct (RemovePidFile_inv w w' Hwf Hexec) as (Hfs & Hloc & Hpid' & n & Hn).
    assert (Habs' : abs w' = Some Absent).
    { unfold abs, pid_path. by rewrite Hfs, Hloc, lookup_delete_eq. }
    unfold abs in Ha. rewrite Hn in Ha. destruct n as [|c]; [discriminate|].
    destruct (GoInt.parse_int c) as [m|]; [|discriminate]. simplify_eq.
    split; [split; [|split; [by rewrite Hpid'|by rewrite Habs']]|eauto using spec_delete].
    unfold RemovePidFile in Hexec. destruct (Fs.remove _ _) eqn:Hr; [|discriminate].
    simplify_eq. by apply Fs.remove_wf in Hr.
Qed.

End Machine.

Section MachineClaims.
Context {S : Type} `{L : PidLocation S}.

Lemma run_step (ops : list op) (w : World S) (a : pid_state) :
  pid_inv w -> Forall valid_op ops -> abs w = Some a ->
  pid_inv (run ops w) /\ exists a', abs (run ops w) = Some a' /\ rtc spec_step a a'.
Proof.
  revert w a. induction ops as [|o os IH]; intros w a Hinv Hops Ha; simpl.
  - split; [done|]. exists a. split; [done|apply rtc_refl].
  - inversion Hops as [|? ? Ho Hos]; subst.
    destruct (exec o w) as [w'|e] eqn:He.
    + destruct (exec_step o w w' a Hinv Ho Ha He) as (Hinv' & a' & Hst & Ha').
      destruct (IH w' a' Hinv' Hos Ha') as (Hinv'' & a'' & Ha'' & Hrtc).
      split; [done|]. exists a''. split; [done|]. eapply rtc_l; eauto.
    + by apply IH.
Qed.

(** Every sequence of [WritePidFile] calls and removals is mirrored
    by a run of the two-state machine of the specification, and keeps the
    representation invariant. *)
Theorem run_refines (ops : list op) (w : World S) :
  pid_inv w -> Forall valid_op ops ->
  pid_inv (run ops w) /\
  exists a0 a1, abs w = Some a0 /\ abs (run ops w) = Some a1 /\ rtc spec_step a0 a1.
Proof.
  intros Hinv Hops. destruct (abs w) as [a0|] eqn:Ha0; [|by destruct Hinv as (_ & _ & ?)].
  destruct (run_step ops w a0 Hinv Hops Ha0) as (Hinv' & a1 & Ha1 & Hrtc).
  split; [done|]. by exists a0, a1.
Qed.

(** What [ReadPidFile] returns in a world of the invariant: the value of
    the abstract state, a filesystem error when it is absent, never a
    parse error. *)
Lemma read_matches_abs (w : World S) :
  pid_inv w ->
  match ReadPidFile w with
  | Ok n => abs w = Some (Present n)
  | Err (ErrFs _) => abs w = Some Absent
  | Err (ErrParse _) => False
  end.
Proof.
  intros (Hwf & _ & Habs). unfold abs in *.
  destruct (w_fs w !! pid_path w) as [[|c]|] eqn:Hp; [done| |].
  - rewrite (ReadPidFile_file w c Hwf Hp).
    destruct (GoInt.parse_int c) as [n|]; [done|done].
  - unfold ReadPidFile, Fs.read_file. unfold pid_path in Hp.
    destruct (Fs.walk_parent _ _); [by rewrite Hp|done].
Qed.

(** After any sequence of writes and removals from a world of the
    invariant, [ReadPidFile()] returns the value of the machine's state,
    fails with a filesystem error only when the machine is in [Absent], and
    never fails to parse. *)
Theorem run_ReadPidFile (ops : list op) (w : World S) :
  pid_inv w -> Forall valid_op ops ->
  match ReadPidFile (run ops w) with
  | Ok n => abs (run ops w) = Some (Present n)
  | Err (ErrFs _) => abs (run ops w) = Some Absent
  | Err (ErrParse _) => False
  end.
Proof.
  intros Hinv Hops. apply read_matches_abs.
  destruct (abs w) as [a0|] eqn:Ha0; [|by destruct Hinv as (_ & _ & ?)].
  by destruct (run_step ops w a0 Hinv Hops Ha0) as (? & _).
Qed.

End MachineClaims.

Definition demo_ops : list op := [OpWrite 5; OpRemove; OpWrite (-1)].

Lemma world_run_inv : pid_inv world_run.
Proof.
  split; [apply (bool_decide_unpack _); vm_compute; exact I|].
  split; [unfold GoInt.max_int; simpl; lia|]. vm_compute. discriminate.
Qed.

Lemma demo_ops_valid : Forall valid_op demo_ops.
Proof.
  unfold demo_ops. repeat (apply List.Forall_cons; [simpl; unfold GoInt.max_int; lia || exact I|]).
  apply List.Forall_nil.
Qed.

Lemma run_refines_witness :
  pid_inv (run demo_ops world_run) /\
  exists a0 a1, abs world_run = Some a0 /\ abs (run demo_ops world_run) = Some a1 /\
                rtc spec_step a0 a1.
Proof. apply (run_refines demo_ops world_run); [apply world_run_inv|apply demo_ops_valid]. Defined.

Lemma run_ReadPidFile_witness :
  ReadPidFile (run demo_ops world_run) = Ok 4242%Z /\
  abs (run demo_ops world_run) = Some (Present 4242).
Proof.
  pose proof (run_ReadPidFile demo_ops world_run world_run_inv demo_ops_valid) as H.
  assert (E : ReadPidFile (run demo_ops world_run) = Ok 4242%Z) by (vm_compute; reflexivity).
  rewrite E in H. by split.
Defined.

End PidFile.
