(* ===== verification/Version.v ===== *)
(** * [TestPrintVersion] and the version text of package [core/version]

    [util.PrintVersion(w)] writes six lines: the path of the running
    binary, then the [SemVer], [Arch], [Branch], [ShaLong] and the epoch
    formatted by [version.EpochToRfc1123] (specification, section 6; the
    implementation files are not among the sources).  The formatter is
    described only as "a formatter", so the theorems hold for every
    function from the epoch text to a timestamp.  [TestPrintVersion]
    touches neither the prefix nor the filesystem: its check is modelled
    here on the values it reads of the process ([VWorld]), and the
    suite of [UtilTests] runs it on the process through a map from the
    process to those values.  Whether it passes depends on the path
    [PrintVersion] writes, which the specification leaves open: no
    theorem is claimed about it. *)

From stdpp Require Import base strings list.
From Stdlib Require Import ZArith Lia Ascii.
From S2P Require Import Prelude GoInt.

Module Version.

(** The package variables of [core/version]. *)
Record VersionVars := mkVersionVars {
  Arch : string;
  Branch : string;
  ShaLong : string;
  Epoch : string;
  SemVer : string
}.

(** A line feed. *)
Definition nl : string := String (ascii_of_nat 10) EmptyString.

Section Print.
Variable EpochToRfc1123 : string -> string.

(** [util.PrintVersion]: the binary's path and the version variables,
    one ["Key: value"] line each, in the order of section 6. *)
Definition PrintVersion (binary : string) (v : VersionVars) : string :=
  "Binary: " +:+ binary +:+ nl +:+
  "SemVer: " +:+ SemVer v +:+ nl +:+
  "OsArch: " +:+ Arch v +:+ nl +:+
  "Branch: " +:+ Branch v +:+ nl +:+
  "Commit: " +:+ ShaLong v +:+ nl +:+
  "Formed: " +:+ EpochToRfc1123 (Epoch v) +:+ nl.

(** What [TestPrintVersion] reads of the process: the absolute path of
    the test binary as [gotil.GetThisPathParts] gives it, the path
    [PrintVersion] writes on its [Binary] line (the specification does
    not say how [PrintVersion] obtains it, so it is a value of its own),
    the string [gotil.RandomString(32)] returns, and [time.Now().Unix()]. *)
Record VWorld := mkVWorld {
  vw_exe : string;
  vw_binary : string;
  vw_rand32 : string;
  vw_now : Z
}.

(** [func TestPrintVersion(t *testing.T)]: [None] when it passes, the
    [t.Fatalf] message otherwise. *)
Definition TestPrintVersion (w : VWorld) : option string :=
  let v := mkVersionVars "Linux-x86_64" "master" (vw_rand32 w) (GoInt.format_int (vw_now w)) "1.0.0" in
  let thisAbsPath := vw_exe w in
  let epochStr := EpochToRfc1123 (Epoch v) in
  let vs := PrintVersion (vw_binary w) v in
  let evs := "Binary: " +:+ thisAbsPath +:+ nl +:+ "SemVer: " +:+ SemVer v +:+ nl +:+
             "OsArch: " +:+ Arch v +:+ nl +:+ "Branch: " +:+ Branch v +:+ nl +:+
             "Commit: " +:+ ShaLong v +:+ nl +:+ "Formed: " +:+ epochStr +:+ nl in
  if String.eqb vs evs then None
  else Some ("nexpectedVersionString=" +:+ evs +:+ nl +:+ nl +:+ "versionString=" +:+ vs +:+ nl).

End Print.

(** The text begins with the binary's path and holds the commit. *)
Example PrintVersion_example :
  PrintVersion (fun e => "epoch " +:+ e) "/tmp/util.test"
    (mkVersionVars "Linux-x86_64" "master" "abc" "17" "1.0.0")
  = "Binary: /tmp/util.test" +:+ nl +:+ "SemVer: 1.0.0" +:+ nl +:+ "OsArch: Linux-x86_64" +:+ nl +:+
    "Branch: master" +:+ nl +:+ "Commit: abc" +:+ nl +:+ "Formed: epoch 17" +:+ nl.
Proof. reflexivity. Qed.

End Version.
