(* ===== verification/UtilTests.v ===== *)
(** * The test suite of package util ([src/util/util_test.go])

    Each Go test is a computation over the process: the util package's
    prefix, the filesystem, the process id, the random stream behind
    [ioutil.TempDir], the clock, and the package variables [r10] and
    [tmpPrefixDirs] of the test file.  [t.Fatal] and [t.Fatalf] end the
    test with a message.  The tests run against the specification's
    resolver and PID manager ([Paths], [PidFile]); the routines no
    description gives ([StdOutAndLogFile], [Install], ...) are the
    parameters [Ext] of the suite.  [TestMain] runs the ten tests in
    file order through [m_Run] ([m.Run()]) and removes the recorded
    prefixes; the file shows what each test does on every process,
    what [TestMain] reports and what it leaves on the filesystem. *)

From stdpp Require Import base strings list gmap.
From Stdlib Require Import ZArith Lia Ascii.
From S2P Require Import Prelude GoInt Fs Paths PidFile Version.

Module UtilTests.

(** The process state a test sees. *)
Record TWorld := mkTW {
  tw_res : Paths.Resolver;     (** util's prefix *)
  tw_fs : Fs.fsys;
  tw_pid : Z;                  (** [os.Getpid()] *)
  tw_tmp : string;             (** [os.TempDir()] *)
  tw_rand : list string;       (** suffixes [ioutil.TempDir] will draw *)
  tw_now : Z;                  (** [time.Now().Unix()] *)
  tw_r10 : string;             (** [var r10 string] *)
  tw_tmpdirs : list string     (** [var tmpPrefixDirs []string] *)
}.

(** A test either goes on with a value or has stopped in [t.Fatal]. *)
Inductive status (A : Type) := Cont (a : A) | Fatal (msg : string).
Arguments Cont {A} a.
Arguments Fatal {A} msg.

Definition T (A : Type) : Type := TWorld -> status A * TWorld.

#[global] Instance T_ret : MRet T := fun A a w => (Cont a, w).
#[global] Instance T_bind : MBind T := fun A B k m w =>
  match m w with
  | (Cont a, w') => k a w'
  | (Fatal msg, w') => (Fatal msg, w')
  end.

Definition fatal {A} (msg : string) : T A := fun w => (Fatal msg, w).
Definition gets {A} (f : TWorld -> A) : T A := fun w => (Cont (f w), w).
Definition modify (f : TWorld -> TWorld) : T unit := fun w => (Cont tt, f w).

(** [if c { t.Fatalf(msg) }] *)
Definition fatal_if (c : bool) (msg : string) : T unit := if c then fatal msg else mret tt.

(** Whether a test ended without [t.Fatal]. *)
Definition passed {A} (s : status A) : bool :=
  match s with Cont _ => true | Fatal _ => false end.

(** ** The util package seen from a test *)

Definition to_world (w : TWorld) : PidFile.World Paths.Resolver :=
  PidFile.mkWorld (tw_res w) (tw_fs w) (tw_pid w).

Definition set_fs (fs : Fs.fsys) (w : TWorld) : TWorld :=
  mkTW (tw_res w) fs (tw_pid w) (tw_tmp w) (tw_rand w) (tw_now w) (tw_r10 w) (tw_tmpdirs w).
Definition set_res (r : Paths.Resolver) (w : TWorld) : TWorld :=
  mkTW r (tw_fs w) (tw_pid w) (tw_tmp w) (tw_rand w) (tw_now w) (tw_r10 w) (tw_tmpdirs w).
Definition set_rand (l : list string) (w : TWorld) : TWorld :=
  mkTW (tw_res w) (tw_fs w) (tw_pid w) (tw_tmp w) l (tw_now w) (tw_r10 w) (tw_tmpdirs w).
Definition set_tmpdirs (l : list string) (w : TWorld) : TWorld :=
  mkTW (tw_res w) (tw_fs w) (tw_pid w) (tw_tmp w) (tw_rand w) (tw_now w) (tw_r10 w) l.
Definition set_r10 (s : string) (w : TWorld) : TWorld :=
  mkTW (tw_res w) (tw_fs w) (tw_pid w) (tw_tmp w) (tw_rand w) (tw_now w) s (tw_tmpdirs w).

Definition Prefix (p : string) : T unit := modify (fun w => set_res (Paths.Prefix p (tw_res w)) w).
Definition IsPrefixed : T bool := gets (fun w => Paths.IsPrefixed (tw_res w)).
Definition GetPrefix : T string := gets (fun w => Paths.GetPrefix (tw_res w)).
Definition PidFilePath : T string := gets (fun w => Paths.PidFilePath (tw_res w)).

(** [err := util.WritePidFile(pid)]: the error, or [None] for nil. *)
Definition WritePidFile (pid : Z) : T (option Fs.PathError) := fun w =>
  match PidFile.WritePidFile pid (to_world w) with
  | Ok w' => (Cont None, set_fs (PidFile.w_fs w') w)
  | Err e => (Cont (Some e), w)
  end.

Definition ReadPidFile : T (result Z PidFile.PidError) := fun w =>
  (Cont (PidFile.ReadPidFile (to_world w)), w).

(** [gotil.WriteStringToFile(text, path)] with its error ignored. *)
Definition WriteStringToFile (text path : string) : T unit := fun w =>
  match Fs.write_file (tw_fs w) path text with
  | Ok fs' => (Cont tt, set_fs fs' w)
  | Err _ => (Cont tt, w)
  end.

Definition os_MkdirAll (path : string) : T unit := fun w =>
  match Fs.mkdir_all (tw_fs w) path with
  | Ok fs' => (Cont tt, set_fs fs' w)
  | Err _ => (Cont tt, w)
  end.

(** [ioutil.TempDir("", pattern)]: the directory is [os.TempDir()]. *)
Definition TempDir (pattern : string) : T (result string Fs.PathError) := fun w =>
  match Fs.temp_dir (tw_fs w) (tw_tmp w) pattern (tw_rand w) with
  | (Ok (name, fs'), rest) => (Cont (Ok name), set_rand rest (set_fs fs' w))
  | (Err e, rest) => (Cont (Err e), set_rand rest w)
  end.

(** ** The tests *)

(** A double quote, for the messages that contain one. *)
Definition quote : string := String (ascii_of_nat 34) EmptyString.

(** [func newPrefixDir(testName string, t *testing.T) string] *)
Definition newPrefixDir (testName : string) : T string :=
  r ← TempDir ("polly-util_test-" +:+ testName);
  match r with
  | Err e => fatal (Fs.Error e)
  | Ok tmpDir =>
      Prefix tmpDir;;
      os_MkdirAll tmpDir;;
      modify (fun w => set_tmpdirs (tw_tmpdirs w ++ [tmpDir]) w);;
      mret tmpDir
  end.

(** [if IsPrefixed() { t.Fatalf("is prefixed %s", GetPrefix()) }] *)
Definition fatal_if_prefixed : T unit :=
  b ← IsPrefixed; p ← GetPrefix; fatal_if b ("is prefixed " +:+ p).

(** [func TestPrefix(t *testing.T)] *)
Definition TestPrefix : T unit :=
  fatal_if_prefixed;;
  Prefix "";;
  fatal_if_prefixed;;
  Prefix "/";;
  fatal_if_prefixed;;
  tmpDir ← newPrefixDir "TestHomeDir";
  Prefix tmpDir;;
  b ← IsPrefixed; p ← GetPrefix;
  fatal_if (negb b) ("is not prefixed " +:+ p);;
  p ← GetPrefix;
  fatal_if (negb (String.eqb p tmpDir)) ("prefix != " +:+ tmpDir +:+ ", == " +:+ p).

(** [if got != exp { t.Fatalf(...) }] *)
Definition expect_path (got exp : string) (msg : string) : T unit :=
  fatal_if (negb (String.eqb got exp)) msg.

Definition path_of (f : Paths.Resolver -> string) : T string := gets (fun w => f (tw_res w)).

(** [func TestPrefixAndDirs(t *testing.T)] *)
Definition TestPrefixAndDirs : T unit :=
  tmpDir ← newPrefixDir "TestPrefixAndDirs";
  etcDirPath ← path_of Paths.EtcDirPath;
  let expEtcDirPath := tmpDir +:+ "/etc/polly" in
  expect_path etcDirPath expEtcDirPath
    ("EtcDirPath() == " +:+ etcDirPath +:+ ", != " +:+ expEtcDirPath);;
  etcDirFilePath ← path_of (fun r => Paths.EtcFilePath r "etcFile");
  let expEtcFilePath := etcDirPath +:+ "/" +:+ "etcFile" in
  expect_path expEtcFilePath etcDirFilePath
    ("EtcFilePath(" +:+ quote +:+ "etcFile" +:+ quote +:+ ") == " +:+ etcDirFilePath
       +:+ ", != " +:+ expEtcFilePath);;
  runDirPath ← path_of Paths.RunDirPath;
  let expRunDirPath := tmpDir +:+ "/var/run/polly" in
  expect_path runDirPath expRunDirPath
    ("RunDirPath() == " +:+ runDirPath +:+ ", != " +:+ expRunDirPath);;
  logDirPath ← path_of Paths.LogDirPath;
  let expLogDirPath := tmpDir +:+ "/var/log/polly" in
  expect_path logDirPath expLogDirPath
    ("LogDirPath() == " +:+ logDirPath +:+ ", != " +:+ expLogDirPath);;
  logDirFilePath ← path_of (fun r => Paths.LogFilePath r "logFile");
  let expLogFilePath := logDirPath +:+ "/" +:+ "logFile" in
  expect_path expLogFilePath logDirFilePath
    ("LogFilePath(" +:+ quote +:+ "logFile" +:+ quote +:+ ") == " +:+ logDirFilePath
       +:+ ", != " +:+ expLogFilePath);;
  libDirPath ← path_of Paths.LibDirPath;
  let expLibDirPath := tmpDir +:+ "/var/lib/polly" in
  expect_path libDirPath expLibDirPath
    ("LibDirPath() == " +:+ libDirPath +:+ ", != " +:+ expLibDirPath);;
  libDirFilePath ← path_of (fun r => Paths.LibFilePath r "libFile");
  let expLibFilePath := libDirPath +:+ "/" +:+ "libFile" in
  expect_path expLibFilePath libDirFilePath
    ("LibFilePath(" +:+ quote +:+ "libFile" +:+ quote +:+ ") == " +:+ libDirFilePath
       +:+ ", != " +:+ expLibFilePath);;
  binDirPath ← path_of Paths.BinDirPath;
  let expBinDirPath := tmpDir +:+ "/usr/bin" in
  expect_path binDirPath expBinDirPath
    ("BinDirPath() == " +:+ binDirPath +:+ ", != " +:+ expBinDirPath);;
  binDirFilePath ← path_of Paths.BinFilePath;
  let expBinFilePath := binDirPath +:+ "/" +:+ "polly" in
  expect_path expBinFilePath binDirFilePath
    ("BinFilePath(" +:+ quote +:+ "polly" +:+ quote +:+ ") == " +:+ binDirFilePath
       +:+ ", != " +:+ expBinFilePath);;
  pidFilePath ← path_of Paths.PidFilePath;
  let expPidFilePath := tmpDir +:+ "/var/run/polly/polly.pid" in
  expect_path expPidFilePath pidFilePath
    ("PidFilePath() == " +:+ pidFilePath +:+ ", != " +:+ expPidFilePath).

(** [if err = WritePidFile(pid); err != nil { t.Fatalf("error writing pidfile=%s", ...) }] *)
Definition write_or_fatal (pid : Z) : T unit :=
  err ← WritePidFile pid;
  match err with
  | Some _ => p ← PidFilePath; fatal ("error writing pidfile=" +:+ p)
  | None => mret tt
  end.

(** [if pidRead, err = ReadPidFile(); err != nil { t.Fatalf(...) }] *)
Definition read_or_fatal : T Z :=
  r ← ReadPidFile;
  match r with
  | Err _ => p ← PidFilePath; fatal ("error reading pidfile=" +:+ p)
  | Ok pidRead => mret pidRead
  end.

(** [if _, err = ReadPidFile(); err == nil { t.Fatal("error expected ...") }] *)
Definition expect_read_error : T unit :=
  r ← ReadPidFile; fatal_if (is_ok r) "error expected in reading pid file".

(** [func TestWriteReadCurrentPidFile(t *testing.T)] *)
Definition TestWriteReadCurrentPidFile : T unit :=
  newPrefixDir "TestWriteReadPidFile";;
  pid ← gets tw_pid;
  write_or_fatal (-1);;
  pidRead ← read_or_fatal;
  fatal_if (negb (Z.eqb pidRead pid))
    ("pidRead=" +:+ GoInt.format_int pidRead +:+ " != pid=" +:+ GoInt.format_int pid).

(** [func TestWriteReadCustomPidFile(t *testing.T)] *)
Definition TestWriteReadCustomPidFile : T unit :=
  newPrefixDir "TestWriteReadPidFile";;
  expect_read_error;;
  pidWritten ← gets tw_now;
  write_or_fatal pidWritten;;
  pidRead ← read_or_fatal;
  fatal_if (negb (Z.eqb pidRead pidWritten))
    ("pidRead=" +:+ GoInt.format_int pidRead +:+ " != pidWritten=" +:+ GoInt.format_int pidWritten).

(** [gotil.WriteStringToFile("hello", PidFilePath())] and the check that
    reading fails. *)
Definition hello_check : T unit :=
  p ← PidFilePath;
  WriteStringToFile "hello" p;;
  expect_read_error.

(** [func TestReadPidFileWithErrors(t *testing.T)] *)
Definition TestReadPidFileWithErrors : T unit :=
  newPrefixDir "TestWriteReadPidFile";;
  expect_read_error;;
  hello_check.

(** ** Running a test step by step *)

Lemma bind_cont {A B} (m : T A) (k : A -> T B) (w : TWorld) (a : A) (w' : TWorld) :
  m w = (Cont a, w') -> (m ≫= k) w = k a w'.
Proof. intros H. unfold mbind, T_bind. by rewrite H. Qed.

Lemma bind_fatal {A B} (m : T A) (k : A -> T B) (w : TWorld) (msg : string) (w' : TWorld) :
  m w = (Fatal msg, w') -> (m ≫= k) w = (Fatal msg, w').
Proof. intros H. unfold mbind, T_bind. by rewrite H. Qed.

Lemma expect_path_eq (x y msg : string) (w : TWorld) :
  x = y -> expect_path x y msg w = (Cont tt, w).
Proof. intros ->. unfold expect_path. by rewrite String.eqb_refl. Qed.

Lemma fatal_if_false (msg : string) (w : TWorld) : fatal_if false msg w = (Cont tt, w).
Proof. reflexivity. Qed.

Lemma fatal_if_true (msg : string) (w : TWorld) : fatal_if true msg w = (Fatal msg, w).
Proof. reflexivity. Qed.

(** Equal paths up to the grouping of the concatenations. *)
Ltac solve_path_eq :=
  cbv [Paths.EtcDirPath Paths.EtcFilePath Paths.RunDirPath Paths.LogDirPath Paths.LogFilePath
       Paths.LibDirPath Paths.LibFilePath Paths.BinDirPath Paths.BinFilePath Paths.PidFilePath
       Paths.prefix tw_res];
  rewrite <- ?string_app_assoc; reflexivity.

(** One step of a test: the first call of the sequence runs and returns. *)
Ltac tstep H :=
  match goal with
  | |- context [ (mbind ?k ?m) ?w ] =>
      first [ erewrite (bind_cont m k w _ _ H)
            | erewrite (bind_fatal m k w _ _ H) ]
  end.

Ltac tpure :=
  first [ reflexivity
        | apply expect_path_eq; solve_path_eq
        | apply fatal_if_false ].

(** A step whose call is pure: a [gets], a passing check. *)
Ltac tstep_pure :=
  match goal with
  | |- context [ (mbind ?k ?m) ?w ] => erewrite (bind_cont m k w _ _ ltac:(tpure))
  end.

Lemma newPrefixDir_ok (name : string) (w : TWorld) (d : string) (fs' : Fs.fsys) (rest : list string) :
  Fs.wf (tw_fs w) ->
  Fs.temp_dir (tw_fs w) (tw_tmp w) ("polly-util_test-" +:+ name) (tw_rand w) = (Ok (d, fs'), rest) ->
  newPrefixDir name w =
    (Cont d, mkTW (Paths.mkResolver d) fs' (tw_pid w) (tw_tmp w) rest (tw_now w) (tw_r10 w)
                  (tw_tmpdirs w ++ [d])).
Proof.
  intros Hwf Ht. unfold newPrefixDir, mbind, T_bind. unfold TempDir at 1. rewrite Ht. simpl.
  destruct (Fs.temp_dir_ok _ _ _ _ _ _ _ Hwf Ht) as (-> & Hn & Hne & _ & Hwf').
  unfold os_MkdirAll. simpl.
  rewrite Fs.mkdir_all_existing; [reflexivity|done|apply lookup_insert_eq].
Qed.

(** When [ioutil.TempDir] fails, [newPrefixDir] stops in [t.Fatal]. *)
Lemma newPrefixDir_err (name : string) (w : TWorld) (e : Fs.PathError) (rest : list string) :
  Fs.temp_dir (tw_fs w) (tw_tmp w) ("polly-util_test-" +:+ name) (tw_rand w) = (Err e, rest) ->
  newPrefixDir name w = (Fatal (Fs.Error e), set_rand rest w).
Proof. intros Ht. unfold newPrefixDir, mbind, T_bind. unfold TempDir at 1. by rewrite Ht. Qed.

(** The [newPrefixDir] step of a test, from the outcome of
    [ioutil.TempDir] on the world the test started with. *)
Ltac tstep_newPrefixDir Hwf Ht :=
  match goal with
  | |- context [ (mbind ?k (newPrefixDir ?name)) ?w0 ] =>
      erewrite (bind_cont _ k w0 _ _ (newPrefixDir_ok name w0 _ _ _ Hwf Ht))
  end.

(** The world the next step of the test runs on. *)
Ltac cur_world := match goal with |- context [ (mbind _ _) ?w ] => constr:(w) end.

(** A step given by a lemma about the current world. *)
Ltac tstep_on L := let w := cur_world in let t := L w in tstep t.

Ltac run_pure :=
  repeat tstep_pure;
  try first [ reflexivity
            | rewrite expect_path_eq by solve_path_eq; reflexivity
            | rewrite fatal_if_false; reflexivity ].



(** C10: whenever [ioutil.TempDir] gives it a directory, [TestPrefixAndDirs]
    passes: every derived path is the prefix followed by its suffix. *)
Theorem TestPrefixAndDirs_passes (w : TWorld) (d : string) (fs' : Fs.fsys) (rest : list string) :
  Fs.wf (tw_fs w) ->
  Fs.temp_dir (tw_fs w) (tw_tmp w) "polly-util_test-TestPrefixAndDirs" (tw_rand w) = (Ok (d, fs'), rest) ->
  fst (TestPrefixAndDirs w) = Cont tt.
Proof.
  intros Hwf Ht. unfold TestPrefixAndDirs.
  tstep_newPrefixDir Hwf Ht.
  run_pure.
Qed.

Lemma fatal_if_prefixed_ok (w : TWorld) :
  Paths.IsPrefixed (tw_res w) = false -> fatal_if_prefixed w = (Cont tt, w).
Proof. intros H. unfold fatal_if_prefixed, mbind, T_bind. simpl. by rewrite H. Qed.

(** A prefix that resolves to a directory other than the root is not
    [""] nor ["/"], so the resolver reports it as prefixed. *)
Lemma IsPrefixed_nonroot (r : Paths.Resolver) :
  Fs.resolve (Paths.prefix r) <> [] -> Paths.IsPrefixed r = true.
Proof.
  intros Hd. unfold Paths.IsPrefixed.
  destruct (String.eqb_spec (Paths.prefix r) "") as [E|E], (String.eqb_spec (Paths.prefix r) "/") as [F|F];
    try done; exfalso; apply Hd; [by rewrite E|by rewrite E|by rewrite F].
Qed.

(** C11: run first, on the initial prefix, [TestPrefix] passes whenever
    [ioutil.TempDir] gives it a directory. *)
Theorem TestPrefix_passes (w : TWorld) (d : string) (fs' : Fs.fsys) (rest : list string) :
  Paths.IsPrefixed (tw_res w) = false -> Fs.wf (tw_fs w) ->
  Fs.temp_dir (tw_fs w) (tw_tmp w) "polly-util_test-TestHomeDir" (tw_rand w) = (Ok (d, fs'), rest) ->
  fst (TestPrefix w) = Cont tt.
Proof.
  intros Hinit Hwf Ht. unfold TestPrefix.
  tstep (fatal_if_prefixed_ok w Hinit). do 4 tstep_pure.
  tstep_newPrefixDir Hwf Ht.
  destruct (Fs.temp_dir_ok _ _ _ _ _ _ _ Hwf Ht) as (_ & _ & Hne & _ & _).
  do 3 tstep_pure. rewrite IsPrefixed_nonroot by exact Hne.
  do 2 tstep_pure. cbn [tw_res set_res Paths.GetPrefix Paths.Prefix Paths.prefix].
  by rewrite String.eqb_refl.
Qed.

(** ** The PID file under a new prefix *)

Section FreshPrefix.
Variables (fs : Fs.fsys) (d : string) (pid : Z).
Hypotheses (Hwf : Fs.wf fs) (Hnew : fs !! Fs.resolve d = None) (Hne : Fs.resolve d <> [])
           (Hpar : fs !! removelast (Fs.resolve d) = Some Fs.Dir).

Let r := Paths.mkResolver d.
Let fs' := <[Fs.resolve d := Fs.Dir]> fs.

Lemma walk_parent_pid_fresh :
  Fs.walk_parent fs' (Fs.resolve (Paths.PidFilePath r)) = Err Fs.ENOENT.
Proof.
  unfold Fs.walk_parent. rewrite Paths.resolve_PidFilePath, removelast_app by discriminate.
  simpl. by apply Fs.walk_below_fresh.
Qed.

(** Under a new prefix the run directory does not exist: the PID file can
    be neither written nor read. *)
Lemma write_file_pid_fresh (c : string) :
  Fs.write_file fs' (Paths.PidFilePath r) c
  = Err (Fs.mkPathError "open" (Paths.PidFilePath r) Fs.ENOENT).
Proof. unfold Fs.write_file. by rewrite walk_parent_pid_fresh. Qed.

Lemma WritePidFile_fresh (n : Z) :
  PidFile.WritePidFile n (PidFile.mkWorld r fs' pid)
  = Err (Fs.mkPathError "open" (Paths.PidFilePath r) Fs.ENOENT).
Proof. unfold PidFile.WritePidFile. simpl. by rewrite write_file_pid_fresh. Qed.

Lemma ReadPidFile_fresh :
  PidFile.ReadPidFile (PidFile.mkWorld r fs' pid)
  = Err (PidFile.ErrFs (Fs.mkPathError "open" (Paths.PidFilePath r) Fs.ENOENT)).
Proof. unfold PidFile.ReadPidFile, Fs.read_file. simpl. by rewrite walk_parent_pid_fresh. Qed.

End FreshPrefix.

(** ** The PID tests under the specification *)

Lemma write_or_fatal_fails (pid : Z) (w : TWorld) (e : Fs.PathError) :
  PidFile.WritePidFile pid (to_world w) = Err e ->
  write_or_fatal pid w = (Fatal ("error writing pidfile=" +:+ Paths.PidFilePath (tw_res w)), w).
Proof. intros H. unfold write_or_fatal, mbind, T_bind, WritePidFile. simpl. by rewrite H. Qed.

Lemma expect_read_error_ok (w : TWorld) (e : PidFile.PidError) :
  PidFile.ReadPidFile (to_world w) = Err e -> expect_read_error w = (Cont tt, w).
Proof. intros H. unfold expect_read_error, mbind, T_bind, ReadPidFile. simpl. by rewrite H. Qed.

Lemma WriteStringToFile_fails (text path : string) (w : TWorld) (e : Fs.PathError) :
  Fs.write_file (tw_fs w) path text = Err e -> WriteStringToFile text path w = (Cont tt, w).
Proof. intros H. unfold WriteStringToFile. by rewrite H. Qed.

(** ** The PID checks when the run directory exists *)

Lemma WriteStringToFile_ok (text path : string) (w : TWorld) (fs' : Fs.fsys) :
  Fs.write_file (tw_fs w) path text = Ok fs' -> WriteStringToFile text path w = (Cont tt, set_fs fs' w).
Proof. intros H. unfold WriteStringToFile. by rewrite H. Qed.

Lemma write_or_fatal_ok (pid : Z) (w : TWorld) (w1 : PidFile.World Paths.Resolver) :
  PidFile.WritePidFile pid (to_world w) = Ok w1 ->
  write_or_fatal pid w = (Cont tt, set_fs (PidFile.w_fs w1) w).
Proof. intros H. unfold write_or_fatal, mbind, T_bind, WritePidFile. rewrite H. reflexivity. Qed.

Lemma read_or_fatal_ok (w : TWorld) (n : Z) :
  PidFile.ReadPidFile (to_world w) = Ok n -> read_or_fatal w = (Cont n, w).
Proof. intros H. unfold read_or_fatal, mbind, T_bind, ReadPidFile. rewrite H. reflexivity. Qed.

(** The test's write then read gives back the value [WritePidFile]
    records, and leaves the PID file holding its decimal text. *)
Lemma write_read_effective (n : Z) (w : TWorld) :
  Fs.wf (tw_fs w) -> tw_fs w !! Fs.resolve (Paths.RunDirPath (tw_res w)) = Some Fs.Dir ->
  tw_fs w !! Fs.resolve (Paths.PidFilePath (tw_res w)) <> Some Fs.Dir ->
  (0 <= PidFile.effective_pid n (to_world w) <= GoInt.max_int)%Z ->
  (write_or_fatal n;; read_or_fatal) w
  = (Cont (PidFile.effective_pid n (to_world w)),
     set_fs (<[Fs.resolve (Paths.PidFilePath (tw_res w)) :=
                Fs.File (GoInt.format_int (PidFile.effective_pid n (to_world w)))]> (tw_fs w)) w).
Proof.
  intros Hwf Hrun Hd Hr.
  destruct (PidFile.write_then_read (L := Paths.resolver_pid_location) n (to_world w) Hwf Hrun Hd Hr) as (w1 & H1 & H2).
  rewrite (bind_cont _ _ w _ _ (write_or_fatal_ok n w w1 H1)).
  rewrite (PidFile.WritePidFile_ok (L := Paths.resolver_pid_location) n (to_world w) Hwf Hrun Hd) in H1. injection H1 as <-.
  apply read_or_fatal_ok. exact H2.
Qed.

(** C1: with the run directory in place, lines 161-167 of the tests,
    [WritePidFile(N)] then [ReadPidFile()], pass and read back [N] for
    every Go [int] [N >= 0]; the PID file then holds the decimal text of
    [N]. *)
Theorem write_read_roundtrip (n : Z) (w : TWorld) :
  Fs.wf (tw_fs w) -> tw_fs w !! Fs.resolve (Paths.RunDirPath (tw_res w)) = Some Fs.Dir ->
  tw_fs w !! Fs.resolve (Paths.PidFilePath (tw_res w)) <> Some Fs.Dir ->
  (0 <= n <= GoInt.max_int)%Z ->
  (write_or_fatal n;; read_or_fatal) w
  = (Cont n, set_fs (<[Fs.resolve (Paths.PidFilePath (tw_res w)) :=
                         Fs.File (GoInt.format_int n)]> (tw_fs w)) w).
Proof.
  intros Hwf Hrun Hd Hn. pose proof (write_read_effective n w Hwf Hrun Hd) as H.
  rewrite PidFile.effective_pid_nonneg in H by lia. by apply H.
Qed.

(** C2: with the run directory in place, [WritePidFile(-1)] (any
    negative value) then [ReadPidFile()] pass and read back
    [os.Getpid()]: the check of [TestWriteReadCurrentPidFile]. *)
Theorem write_read_self (n : Z) (w : TWorld) :
  Fs.wf (tw_fs w) -> tw_fs w !! Fs.resolve (Paths.RunDirPath (tw_res w)) = Some Fs.Dir ->
  tw_fs w !! Fs.resolve (Paths.PidFilePath (tw_res w)) <> Some Fs.Dir ->
  (n < 0)%Z -> (0 <= tw_pid w <= GoInt.max_int)%Z ->
  (write_or_fatal n;; read_or_fatal) w
  = (Cont (tw_pid w), set_fs (<[Fs.resolve (Paths.PidFilePath (tw_res w)) :=
                                  Fs.File (GoInt.format_int (tw_pid w))]> (tw_fs w)) w).
Proof.
  intros Hwf Hrun Hd Hn Hp. pose proof (write_read_effective n w Hwf Hrun Hd) as H.
  rewrite PidFile.effective_pid_neg in H by done. by apply H.
Qed.

(** C6: with the run directory in place, the last lines of
    [TestReadPidFileWithErrors] check what they mean to: ["hello"] lands
    in the PID file and [ReadPidFile()] fails with [strconv]'s syntax
    error, so the check passes through the parse error. *)
Theorem hello_check_parse_error (w : TWorld) :
  Fs.wf (tw_fs w) -> tw_fs w !! Fs.resolve (Paths.RunDirPath (tw_res w)) = Some Fs.Dir ->
  tw_fs w !! Fs.resolve (Paths.PidFilePath (tw_res w)) <> Some Fs.Dir ->
  exists w', hello_check w = (Cont tt, w') /\
    PidFile.ReadPidFile (to_world w')
    = Err (PidFile.ErrParse (GoInt.mkNumError "Atoi" "hello" GoInt.ErrSyntax)).
Proof.
  intros Hwf Hrun Hd.
  assert (Hne : Fs.resolve (Paths.PidFilePath (tw_res w)) <> []) by exact (pid_file_not_root (tw_res w)).
  assert (Hpar : removelast (Fs.resolve (Paths.PidFilePath (tw_res w)))
                 = Fs.resolve (Paths.RunDirPath (tw_res w))) by exact (pid_file_in_run_dir (tw_res w)).
  rewrite <- Hpar in Hrun.
  pose proof (Fs.write_file_ok _ _ "hello" Hwf Hne Hrun Hd) as Hw.
  set (w' := set_fs (<[Fs.resolve (Paths.PidFilePath (tw_res w)) := Fs.File "hello"]> (tw_fs w)) w).
  assert (Hr : PidFile.ReadPidFile (to_world w')
               = Err (PidFile.ErrParse (GoInt.mkNumError "Atoi" "hello" GoInt.ErrSyntax))).
  { apply (PidFile.ReadPidFile_parse_error (L := Paths.resolver_pid_location) _ "hello");
      [by apply (Fs.write_file_wf _ _ _ _ Hwf Hw)|apply lookup_insert_eq|reflexivity]. }
  exists w'. split; [|exact Hr].
  unfold hello_check. tstep_pure.
  tstep (WriteStringToFile_ok "hello" _ w _ Hw).
  by apply (expect_read_error_ok w' _ Hr).
Qed.

(** C13: when the run directory is a regular file, the test's
    [WritePidFile] check stops with "error writing pidfile", leaving the
    process as it was: the write fails with a filesystem error, not a
    crash. *)
Theorem write_or_fatal_run_file (n : Z) (w : TWorld) (c : string) :
  Fs.wf (tw_fs w) -> tw_fs w !! Fs.resolve (Paths.RunDirPath (tw_res w)) = Some (Fs.File c) ->
  write_or_fatal n w = (Fatal ("error writing pidfile=" +:+ Paths.PidFilePath (tw_res w)), w).
Proof.
  intros Hwf Hrun.
  exact (write_or_fatal_fails n w _ (PidFile.WritePidFile_parent_file (L := Paths.resolver_pid_location) n (to_world w) c Hwf Hrun)).
Qed.

(** Under the specification's PID manager, which does not create
    the run directory, [TestWriteReadCurrentPidFile] fails for every
    world: [newPrefixDir] creates only the prefix directory, so
    [WritePidFile(-1)] finds no [var/run/polly] below it. *)
Lemma TestWriteReadCurrentPidFile_fails (w : TWorld) (d : string) (fs' : Fs.fsys) (rest : list string) :
  Fs.wf (tw_fs w) ->
  Fs.temp_dir (tw_fs w) (tw_tmp w) "polly-util_test-TestWriteReadPidFile" (tw_rand w) = (Ok (d, fs'), rest) ->
  fst (TestWriteReadCurrentPidFile w)
  = Fatal ("error writing pidfile=" +:+ Paths.PidFilePath (Paths.mkResolver d)).
Proof.
  intros Hwf Ht. destruct (Fs.temp_dir_ok _ _ _ _ _ _ _ Hwf Ht) as (Hfs & Hnew & Hne & Hpar & _).
  unfold TestWriteReadCurrentPidFile. tstep_newPrefixDir Hwf Ht. subst fs'.
  tstep_pure.
  tstep_on ltac:(fun w1 => constr:(write_or_fatal_fails (-1) w1 _
                                     (WritePidFile_fresh (tw_fs w) d (tw_pid w) Hwf Hnew Hne Hpar (-1)))).
  reflexivity.
Qed.

(** Whatever [ioutil.TempDir] does, [TestWriteReadCurrentPidFile] does
    not pass: it stops in [newPrefixDir] or in its [WritePidFile] check. *)
Lemma TestWriteReadCurrentPidFile_never_passes (w : TWorld) :
  Fs.wf (tw_fs w) -> passed (fst (TestWriteReadCurrentPidFile w)) = false.
Proof.
  intros Hwf.
  destruct (Fs.temp_dir (tw_fs w) (tw_tmp w) ("polly-util_test-" +:+ "TestWriteReadPidFile") (tw_rand w))
    as [[[d fs']|e] rest] eqn:Ht.
  - by rewrite (TestWriteReadCurrentPidFile_fails w d fs' rest Hwf Ht).
  - unfold TestWriteReadCurrentPidFile. by rewrite (bind_fatal _ _ w _ _ (newPrefixDir_err _ w e rest Ht)).
Qed.

(** C4: for the same reason [TestWriteReadCustomPidFile] fails for every
    world, after its first check (no PID file yet) has passed. *)
Theorem TestWriteReadCustomPidFile_fails (w : TWorld) (d : string) (fs' : Fs.fsys) (rest : list string) :
  Fs.wf (tw_fs w) ->
  Fs.temp_dir (tw_fs w) (tw_tmp w) "polly-util_test-TestWriteReadPidFile" (tw_rand w) = (Ok (d, fs'), rest) ->
  fst (TestWriteReadCustomPidFile w)
  = Fatal ("error writing pidfile=" +:+ Paths.PidFilePath (Paths.mkResolver d)).
Proof.
  intros Hwf Ht. destruct (Fs.temp_dir_ok _ _ _ _ _ _ _ Hwf Ht) as (Hfs & Hnew & Hne & Hpar & _).
  unfold TestWriteReadCustomPidFile. tstep_newPrefixDir Hwf Ht. subst fs'.
  tstep_on ltac:(fun w1 => constr:(expect_read_error_ok w1 _
                                     (ReadPidFile_fresh (tw_fs w) d (tw_pid w) Hwf Hnew Hne Hpar))).
  tstep_pure.
  tstep_on ltac:(fun w1 => constr:(write_or_fatal_fails (tw_now w) w1 _
                                     (WritePidFile_fresh (tw_fs w) d (tw_pid w) Hwf Hnew Hne Hpar (tw_now w)))).
  reflexivity.
Qed.

(** C5: [TestReadPidFileWithErrors] passes, but not through the parse
    error it means to check: writing "hello" fails silently for want of
    the run directory, and both reads fail with not-found. *)
Theorem TestReadPidFileWithErrors_not_found (w : TWorld) (d : string) (fs' : Fs.fsys) (rest : list string) :
  Fs.wf (tw_fs w) ->
  Fs.temp_dir (tw_fs w) (tw_tmp w) "polly-util_test-TestWriteReadPidFile" (tw_rand w) = (Ok (d, fs'), rest) ->
  exists w1, TestReadPidFileWithErrors w = (Cont tt, w1) /\
    PidFile.ReadPidFile (to_world w1)
    = Err (PidFile.ErrFs (Fs.mkPathError "open" (Paths.PidFilePath (Paths.mkResolver d)) Fs.ENOENT)).
Proof.
  intros Hwf Ht. destruct (Fs.temp_dir_ok _ _ _ _ _ _ _ Hwf Ht) as (Hfs & Hnew & Hne & Hpar & _).
  eexists. split.
  - unfold TestReadPidFileWithErrors. tstep_newPrefixDir Hwf Ht. subst fs'.
    tstep_on ltac:(fun w1 => constr:(expect_read_error_ok w1 _
                                     (ReadPidFile_fresh (tw_fs w) d (tw_pid w) Hwf Hnew Hne Hpar))).
    unfold hello_check. tstep_pure.
    tstep_on ltac:(fun w1 => constr:(WriteStringToFile_fails "hello" _ w1 _
                                       (write_file_pid_fresh (tw_fs w) d Hwf Hnew Hne Hpar "hello"))).
    match goal with |- expect_read_error ?w1 = _ =>
      apply (expect_read_error_ok w1 _ (ReadPidFile_fresh (tw_fs w) d (tw_pid w) Hwf Hnew Hne Hpar)) end.
  - subst fs'. apply (ReadPidFile_fresh (tw_fs w) d (tw_pid w) Hwf Hnew Hne Hpar).
Qed.

Lemma fatal_if_prefixed_fails (w : TWorld) :
  Paths.IsPrefixed (tw_res w) = true ->
  fatal_if_prefixed w = (Fatal ("is prefixed " +:+ Paths.GetPrefix (tw_res w)), w).
Proof. intros H. unfold fatal_if_prefixed, mbind, T_bind. simpl. by rewrite H. Qed.

(** C20: [ioutil.TempDir] terminates with a directory as soon as the
    random stream reaches a free name within its 10000 tries: when every
    earlier suffix names an existing entry and [os.Mkdir] can create the
    name of [s], [newPrefixDir] returns that directory, makes it the
    prefix and records it in [tmpPrefixDirs]. *)
Theorem newPrefixDir_first_free (name s : string) (pre rest : list string) (w : TWorld) (fs' : Fs.fsys) :
  Fs.wf (tw_fs w) -> tw_rand w = pre ++ s :: rest -> length pre < 10000 ->
  Forall (Fs.taken (tw_fs w) (tw_tmp w) ("polly-util_test-" +:+ name)) pre ->
  Fs.mkdir (tw_fs w) (Fs.temp_name (tw_tmp w) ("polly-util_test-" +:+ name) s) = Ok fs' ->
  let d := Fs.temp_name (tw_tmp w) ("polly-util_test-" +:+ name) s in
  newPrefixDir name w = (Cont d, mkTW (Paths.mkResolver d) fs' (tw_pid w) (tw_tmp w) rest (tw_now w)
                                      (tw_r10 w) (tw_tmpdirs w ++ [d])).
Proof.
  intros Hwf Hr Hlen Hpre Hs d. apply newPrefixDir_ok; [done|].
  unfold Fs.temp_dir. rewrite Hr. by apply Fs.temp_dir_loop_first_free.
Qed.

(** C21: the bound of [ioutil.TempDir]: when the first 10000 suffixes of
    the stream all name existing entries, [newPrefixDir] stops in
    [t.Fatal] with the error of the last [os.Mkdir], EEXIST on the name
    of the 10000th suffix, whatever the later suffixes are. *)
Theorem newPrefixDir_exhausted (name : string) (w : TWorld) :
  10000 <= length (tw_rand w) ->
  Forall (Fs.taken (tw_fs w) (tw_tmp w) ("polly-util_test-" +:+ name)) (take 10000 (tw_rand w)) ->
  newPrefixDir name w
  = (Fatal (Fs.Error (Fs.mkPathError "mkdir"
                        (Fs.temp_name (tw_tmp w) ("polly-util_test-" +:+ name)
                           (List.last (take 10000 (tw_rand w)) "")) Fs.EEXIST)),
     set_rand (drop 10000 (tw_rand w)) w).
Proof.
  intros Hlen Htk. apply newPrefixDir_err. unfold Fs.temp_dir.
  apply Fs.temp_dir_loop_exhausted; [split; [apply Nat.leb_le; reflexivity|done]|done].
Qed.

(** C12: [TestPrefix] depends on running first: after any test that
    called [newPrefixDir], its first check fails, since the prefix is
    package state that no test restores. *)
Theorem TestPrefix_after_newPrefixDir (name : string) (w : TWorld) (d : string) (fs' : Fs.fsys)
  (rest : list string) :
  Fs.wf (tw_fs w) ->
  Fs.temp_dir (tw_fs w) (tw_tmp w) ("polly-util_test-" +:+ name) (tw_rand w) = (Ok (d, fs'), rest) ->
  fst ((newPrefixDir name;; TestPrefix) w) = Fatal ("is prefixed " +:+ d).
Proof.
  intros Hwf Ht. destruct (Fs.temp_dir_ok _ _ _ _ _ _ _ Hwf Ht) as (_ & _ & Hne & _ & _).
  tstep_newPrefixDir Hwf Ht. unfold TestPrefix.
  tstep_on ltac:(fun w1 => constr:(fatal_if_prefixed_fails w1 (IsPrefixed_nonroot (Paths.mkResolver d) Hne))).
  reflexivity.
Qed.

(** ** [TestStdOutAndLogFile], against any [StdOutAndLogFile]

    The code of [StdOutAndLogFile(name) (io.Writer, error)] is not among
    the sources and the specification does not describe it: it is a
    parameter, a call on the process returning a writer ([None] for a
    [nil] one) or an error, with the error's text [Error]. *)
Section StdOut.
Context {Writer E : Type}.
Variable Error : E -> string.
Variable StdOutAndLogFile : string -> TWorld -> result (option Writer) E * TWorld.

Definition call_StdOutAndLogFile (name : string) : T (result (option Writer) E) := fun w =>
  let (r, w') := StdOutAndLogFile name w in (Cont r, w').

(** [func TestStdOutAndLogFile(t *testing.T)] *)
Definition TestStdOutAndLogFile : T unit :=
  newPrefixDir "TestStdOutAndLogFile";;
  r ← call_StdOutAndLogFile "BadFile/";
  fatal_if (is_ok r) "error expected in created BadFile";;
  r ← call_StdOutAndLogFile "TestStdOutAndLogFile";
  match r with
  | Err e => fatal (Error e)
  | Ok out => fatal_if (bool_decide (out = None)) "out == nil"
  end.

End StdOut.

(** ** [TestMain]: the tests in file order, then the cleanup

    [m.Run()] runs the ten tests of the file in order on the same
    process; a test that stops in [t.Fatal] keeps what it did before.
    The routines the tests call whose code is not among the sources and
    which the specification does not describe are the parameters of the
    suite, gathered in [Ext]: [StdOutAndLogFile] with its error text,
    [version.EpochToRfc1123], what [TestPrintVersion] reads of the
    process, and [Install], [InstallChownRoot], [InstallDirChownRoot]
    as computations on the process ([Fatal] when one fails the test). *)

Record Ext (Writer E : Type) := mkExt {
  x_Error : E -> string;
  x_StdOutAndLogFile : string -> TWorld -> result (option Writer) E * TWorld;
  x_EpochToRfc1123 : string -> string;
  x_vworld : TWorld -> Version.VWorld;
  x_Install : T unit;
  x_InstallChownRoot : T unit;
  x_InstallDirChownRoot : string -> T unit
}.
Arguments mkExt {Writer E}.
Arguments x_Error {Writer E} _ _.
Arguments x_StdOutAndLogFile {Writer E} _ _ _.
Arguments x_EpochToRfc1123 {Writer E} _ _.
Arguments x_vworld {Writer E} _ _.
Arguments x_Install {Writer E} _ _.
Arguments x_InstallChownRoot {Writer E} _ _.
Arguments x_InstallDirChownRoot {Writer E} _ _ _.

Section Suite.
Context {Writer E : Type} (X : Ext Writer E).

(** [func TestPrintVersion(t *testing.T)] on the process: its
    [t.Fatalf] ends the test; it changes nothing the other tests read. *)
Definition TestPrintVersion : T unit := fun w =>
  match Version.TestPrintVersion (x_EpochToRfc1123 X) (x_vworld X w) with
  | None => (Cont tt, w)
  | Some msg => (Fatal msg, w)
  end.

(** [func TestInstall(t *testing.T)] *)
Definition TestInstall : T unit := x_Install X.
(** [func TestInstallChownRoot(t *testing.T)] *)
Definition TestInstallChownRoot : T unit := x_InstallChownRoot X.
(** [func TestInstallDirChownRoot(t *testing.T)] *)
Definition TestInstallDirChownRoot : T unit := x_InstallDirChownRoot X "--help".

Definition tests : list (string * T unit) :=
  [("TestPrefix", TestPrefix);
   ("TestPrefixAndDirs", TestPrefixAndDirs);
   ("TestStdOutAndLogFile", TestStdOutAndLogFile (x_Error X) (x_StdOutAndLogFile X));
   ("TestWriteReadCurrentPidFile", TestWriteReadCurrentPidFile);
   ("TestWriteReadCustomPidFile", TestWriteReadCustomPidFile);
   ("TestReadPidFileWithErrors", TestReadPidFileWithErrors);
   ("TestPrintVersion", TestPrintVersion);
   ("TestInstall", TestInstall);
   ("TestInstallChownRoot", TestInstallChownRoot);
   ("TestInstallDirChownRoot", TestInstallDirChownRoot)].

End Suite.

(** ** Every test keeps the filesystem well formed *)

Definition keeps_wf {A} (m : T A) : Prop :=
  forall w, Fs.wf (tw_fs w) -> Fs.wf (tw_fs (snd (m w))).

Create HintDb twf.

Lemma keeps_wf_bind {A B} (m : T A) (k : A -> T B) :
  keeps_wf m -> (forall a, keeps_wf (k a)) -> keeps_wf (m ≫= k).
Proof.
  intros Hm Hk w Hw. specialize (Hm w Hw). unfold mbind, T_bind.
  destruct (m w) as [[a|msg] w']; simpl in *; [by apply Hk|done].
Qed.

Lemma keeps_wf_fs {A} (m : T A) : (forall w, tw_fs (snd (m w)) = tw_fs w) -> keeps_wf m.
Proof. intros H w Hw. by rewrite H. Qed.

Lemma keeps_wf_ret {A} (a : A) : keeps_wf (mret a).
Proof. by apply keeps_wf_fs. Qed.
Lemma keeps_wf_fatal {A} (msg : string) : keeps_wf (fatal (A := A) msg).
Proof. by apply keeps_wf_fs. Qed.
Lemma keeps_wf_gets {A} (f : TWorld -> A) : keeps_wf (gets f).
Proof. by apply keeps_wf_fs. Qed.
Lemma keeps_wf_fatal_if (c : bool) (msg : string) : keeps_wf (fatal_if c msg).
Proof. apply keeps_wf_fs. intros w. by destruct c. Qed.
Lemma keeps_wf_Prefix (p : string) : keeps_wf (Prefix p).
Proof. by apply keeps_wf_fs. Qed.
Lemma keeps_wf_ReadPidFile : keeps_wf ReadPidFile.
Proof. by apply keeps_wf_fs. Qed.

Lemma keeps_wf_WritePidFile (pid : Z) : keeps_wf (WritePidFile pid).
Proof.
  intros w Hw. unfold WritePidFile.
  destruct (PidFile.WritePidFile pid (to_world w)) as [w'|e] eqn:E; [|done].
  apply PidFile.WritePidFile_inv in E as (E & _). exact (Fs.write_file_wf _ _ _ _ Hw E).
Qed.

Lemma keeps_wf_WriteStringToFile (text path : string) : keeps_wf (WriteStringToFile text path).
Proof.
  intros w Hw. unfold WriteStringToFile.
  destruct (Fs.write_file (tw_fs w) path text) as [fs'|e] eqn:E; [|done].
  exact (Fs.write_file_wf _ _ _ _ Hw E).
Qed.

Lemma keeps_wf_os_MkdirAll (path : string) : keeps_wf (os_MkdirAll path).
Proof.
  intros w Hw. unfold os_MkdirAll, Fs.mkdir_all.
  destruct (Fs.mkdir_all_from (tw_fs w) [] (Fs.resolve path)) as [fs'|e] eqn:E; [|done].
  exact (proj1 (Fs.mkdir_all_from_spec _ _ _ _ Hw (proj1 Hw) E)).
Qed.

Lemma keeps_wf_TempDir (pattern : string) : keeps_wf (TempDir pattern).
Proof.
  intros w Hw. unfold TempDir.
  destruct (Fs.temp_dir (tw_fs w) (tw_tmp w) pattern (tw_rand w)) as [[[d fs']|e] rest] eqn:E; [|done].
  exact (proj2 (proj2 (proj2 (proj2 (Fs.temp_dir_ok _ _ _ _ _ _ _ Hw E))))).
Qed.

#[local] Hint Resolve keeps_wf_ret keeps_wf_fatal keeps_wf_gets keeps_wf_fatal_if keeps_wf_Prefix
  keeps_wf_ReadPidFile keeps_wf_WritePidFile keeps_wf_WriteStringToFile keeps_wf_os_MkdirAll
  keeps_wf_TempDir : twf.

(** Through the binds, the [match]es on results and the [let]s of a test. *)
Ltac solve_keeps_wf :=
  repeat first
    [ apply keeps_wf_bind; [|intros ?]
    | match goal with |- keeps_wf (match ?x with _ => _ end) => destruct x end
    | progress cbv zeta
    | solve [eauto with twf]
    | match goal with |- keeps_wf (modify _) =>
        apply keeps_wf_fs; intros ?; reflexivity end ].

Lemma keeps_wf_newPrefixDir (name : string) : keeps_wf (newPrefixDir name).
Proof. unfold newPrefixDir. solve_keeps_wf. Qed.

#[local] Hint Resolve keeps_wf_newPrefixDir : twf.

(** The test bodies, for the lemmas that walk through them. *)
Ltac unfold_tests :=
  unfold TestPrefix, TestPrefixAndDirs, TestStdOutAndLogFile, TestWriteReadCurrentPidFile,
    TestWriteReadCustomPidFile, TestReadPidFileWithErrors, fatal_if_prefixed, expect_path,
    path_of, IsPrefixed, GetPrefix, PidFilePath, write_or_fatal, read_or_fatal,
    expect_read_error, hello_check.

Lemma keeps_wf_TestPrefix : keeps_wf TestPrefix.
Proof. unfold_tests. solve_keeps_wf. Qed.
Lemma keeps_wf_TestPrefixAndDirs : keeps_wf TestPrefixAndDirs.
Proof. unfold_tests. solve_keeps_wf. Qed.
(** The [StdOutAndLogFile] parameter keeps the filesystem well formed. *)
Definition stdout_keeps_wf {Writer E} (X : Ext Writer E) : Prop :=
  forall name, keeps_wf (call_StdOutAndLogFile (x_StdOutAndLogFile X) name).

Lemma keeps_wf_TestStdOutAndLogFile {Writer E} (X : Ext Writer E) :
  stdout_keeps_wf X -> keeps_wf (TestStdOutAndLogFile (x_Error X) (x_StdOutAndLogFile X)).
Proof. intros Hs. unfold_tests. solve_keeps_wf. Qed.

Fixpoint m_Run (ts : list (string * T unit)) (w : TWorld) : list (string * status unit) * TWorld :=
  match ts with
  | [] => ([], w)
  | (name, t) :: rest =>
      let (st, w') := t w in
      let (rs, w'') := m_Run rest w' in
      ((name, st) :: rs, w'')
  end.

(** [func TestMain(m *testing.M)]: the exit code, each test's outcome, and
    the process after the temporary prefixes are removed. *)
Definition TestMain {Writer E} (X : Ext Writer E) (rnd10 : string) (w : TWorld)
  : Z * list (string * status unit) * TWorld :=
  let w := set_r10 rnd10 w in
  let (results, w) := m_Run (tests X) w in
  let exitCode := if forallb (fun r => passed r.2) results then 0%Z else 1%Z in
  let w := fold_left (fun w d => set_fs (Fs.remove_all (tw_fs w) d) w) (tw_tmpdirs w) w in
  (exitCode, results, w).

(** The cleanup loop of [TestMain]: [os.RemoveAll] of every recorded
    prefix. *)
Definition cleanup (ds : list string) (w : TWorld) : TWorld :=
  fold_left (fun w d => set_fs (Fs.remove_all (tw_fs w) d) w) ds w.

Lemma cleanup_spec (ds : list string) (w : TWorld) :
  tw_tmpdirs (cleanup ds w) = tw_tmpdirs w /\
  forall q n, tw_fs (cleanup ds w) !! q = Some n ->
    tw_fs w !! q = Some n /\ forall d, d ∈ ds -> ~ Fs.resolve d `prefix_of` q \/ q = [].
Proof.
  unfold cleanup. revert w. induction ds as [|d ds IH]; intros w; simpl.
  - split; [done|]. intros q n Hq. split; [done|]. intros d Hd. by apply not_elem_of_nil in Hd.
  - destruct (IH (set_fs (Fs.remove_all (tw_fs w) d) w)) as [Ht Hq]. split; [done|].
    intros q n Hqn. destruct (Hq q n Hqn) as [H1 H2]. simpl in H1.
    unfold Fs.remove_all in H1. apply map_lookup_filter_Some in H1 as [H1 Hp]. simpl in Hp.
    split; [done|]. intros d' Hd'. apply elem_of_cons in Hd' as [->|Hd']; [done|by apply H2].
Qed.

(** C15: after [TestMain], whatever the tests did, nothing remains below
    any temporary prefix directory the tests recorded. *)
Theorem TestMain_removes_tmpdirs {Writer E} (X : Ext Writer E) (rnd10 : string) (w : TWorld) :
  let '(_, _, w') := TestMain X rnd10 w in
  forall d q n, d ∈ tw_tmpdirs w' -> tw_fs w' !! q = Some n ->
    Fs.resolve d `prefix_of` q -> q = [].
Proof.
  unfold TestMain. destruct (m_Run (tests X) (set_r10 rnd10 w)) as [results w1].
  fold (cleanup (tw_tmpdirs w1) w1).
  destruct (cleanup_spec (tw_tmpdirs w1) w1) as [Ht Hq].
  intros d q n Hd Hqn Hpre. rewrite Ht in Hd.
  destruct (Hq q n Hqn) as [_ H]. by destruct (H d Hd).
Qed.

(** C3: under the specification's PID manager the suite cannot pass:
    from every well-formed filesystem, and for every [StdOutAndLogFile]
    that keeps it well formed, [TestMain] exits with code 1, and
    [TestWriteReadCurrentPidFile] is among the failed tests.  The tests
    that run before it keep the filesystem well formed, so it starts
    where [TestWriteReadCurrentPidFile_never_passes] applies. *)
Theorem TestMain_exit_code {Writer E} (X : Ext Writer E) (rnd10 : string) (w : TWorld) :
  stdout_keeps_wf X -> Fs.wf (tw_fs w) ->
  let '(code, results, _) := TestMain X rnd10 w in
  code = 1%Z /\ exists msg, ("TestWriteReadCurrentPidFile", Fatal msg) ∈ results.
Proof.
  intros Hs Hwf. unfold TestMain, tests. cbn [m_Run].
  pose proof (keeps_wf_TestPrefix (set_r10 rnd10 w) Hwf) as Hw1.
  destruct (TestPrefix (set_r10 rnd10 w)) as [s1 w1]. simpl in Hw1.
  pose proof (keeps_wf_TestPrefixAndDirs w1 Hw1) as Hw2.
  destruct (TestPrefixAndDirs w1) as [s2 w2]. simpl in Hw2.
  pose proof (keeps_wf_TestStdOutAndLogFile X Hs w2 Hw2) as Hw3.
  destruct (TestStdOutAndLogFile _ _ w2) as [s3 w3]. simpl in Hw3.
  pose proof (TestWriteReadCurrentPidFile_never_passes w3 Hw3) as H4.
  destruct (TestWriteReadCurrentPidFile w3) as [s4 w4]. simpl in H4.
  destruct s4 as [[]|msg]; [discriminate|].
  destruct (TestWriteReadCustomPidFile w4) as [s5 w5].
  destruct (TestReadPidFileWithErrors w5) as [s6 w6].
  destruct (TestPrintVersion X w6) as [s7 w7].
  destruct (TestInstall X w7) as [s8 w8].
  destruct (TestInstallChownRoot X w8) as [s9 w9].
  destruct (TestInstallDirChownRoot X w9) as [s10 w10]. cbn.
  split; [by destruct (passed s1), (passed s2), (passed s3)|].
  exists msg. rewrite !elem_of_cons. auto.
Qed.

(** ** A concrete process: [/tmp] exists, the random stream is fixed *)

Definition fs_tmp : Fs.fsys := {[ [] := Fs.Dir; ["tmp"] := Fs.Dir ]}.

Definition tw0 : TWorld :=
  mkTW Paths.init fs_tmp 4242 "/tmp" ["11"; "22"; "33"; "44"; "55"] 1700000000 "" [].

Lemma fs_tmp_wf : Fs.wf fs_tmp.
Proof. apply (bool_decide_unpack _). vm_compute. exact I. Qed.

Lemma TestPrefix_passes_witness : fst (TestPrefix tw0) = Cont tt.
Proof.
  apply (TestPrefix_passes tw0 "/tmp/polly-util_test-TestHomeDir11"
           (<[["tmp"; "polly-util_test-TestHomeDir11"] := Fs.Dir]> fs_tmp) ["22"; "33"; "44"; "55"]).
  - reflexivity.
  - exact fs_tmp_wf.
  - vm_decide.
Defined.

Lemma TestPrefixAndDirs_passes_witness : fst (TestPrefixAndDirs tw0) = Cont tt.
Proof.
  apply (TestPrefixAndDirs_passes tw0 "/tmp/polly-util_test-TestPrefixAndDirs11"
           (<[["tmp"; "polly-util_test-TestPrefixAndDirs11"] := Fs.Dir]> fs_tmp) ["22"; "33"; "44"; "55"]).
  - exact fs_tmp_wf.
  - vm_decide.
Defined.

Lemma TestWriteReadCurrentPidFile_fails_witness :
  fst (TestWriteReadCurrentPidFile tw0)
  = Fatal ("error writing pidfile=" +:+ Paths.PidFilePath (Paths.mkResolver "/tmp/polly-util_test-TestWriteReadPidFile11")).
Proof.
  apply (TestWriteReadCurrentPidFile_fails tw0 "/tmp/polly-util_test-TestWriteReadPidFile11"
           (<[["tmp"; "polly-util_test-TestWriteReadPidFile11"] := Fs.Dir]> fs_tmp) ["22"; "33"; "44"; "55"]).
  - exact fs_tmp_wf.
  - vm_decide.
Defined.

Lemma TestWriteReadCustomPidFile_fails_witness :
  fst (TestWriteReadCustomPidFile tw0)
  = Fatal ("error writing pidfile=" +:+ Paths.PidFilePath (Paths.mkResolver "/tmp/polly-util_test-TestWriteReadPidFile11")).
Proof.
  apply (TestWriteReadCustomPidFile_fails tw0 "/tmp/polly-util_test-TestWriteReadPidFile11"
           (<[["tmp"; "polly-util_test-TestWriteReadPidFile11"] := Fs.Dir]> fs_tmp) ["22"; "33"; "44"; "55"]).
  - exact fs_tmp_wf.
  - vm_decide.
Defined.

Lemma TestReadPidFileWithErrors_not_found_witness :
  exists w1, TestReadPidFileWithErrors tw0 = (Cont tt, w1) /\
    PidFile.ReadPidFile (to_world w1)
    = Err (PidFile.ErrFs (Fs.mkPathError "open"
             (Paths.PidFilePath (Paths.mkResolver "/tmp/polly-util_test-TestWriteReadPidFile11")) Fs.ENOENT)).
Proof.
  apply (TestReadPidFileWithErrors_not_found tw0 "/tmp/polly-util_test-TestWriteReadPidFile11"
           (<[["tmp"; "polly-util_test-TestWriteReadPidFile11"] := Fs.Dir]> fs_tmp) ["22"; "33"; "44"; "55"]).
  - exact fs_tmp_wf.
  - vm_decide.
Defined.

Lemma TestPrefix_after_newPrefixDir_witness :
  fst ((newPrefixDir "TestPrefixAndDirs";; TestPrefix) tw0)
  = Fatal ("is prefixed " +:+ "/tmp/polly-util_test-TestPrefixAndDirs11").
Proof.
  apply (TestPrefix_after_newPrefixDir "TestPrefixAndDirs" tw0 "/tmp/polly-util_test-TestPrefixAndDirs11"
           (<[["tmp"; "polly-util_test-TestPrefixAndDirs11"] := Fs.Dir]> fs_tmp) ["22"; "33"; "44"; "55"]).
  - exact fs_tmp_wf.
  - vm_decide.
Defined.

(** A [StdOutAndLogFile] that refuses a name ending in a slash. *)
Definition stdout_slash (name : string) (w : TWorld) : result (option unit) string * TWorld :=
  if String.eqb name "BadFile/" then (Err "open BadFile/: is a directory", w) else (Ok (Some tt), w).

(** The routines of the suite's environment: the test binary at
    [/tmp/util.test], installers that change nothing. *)
Definition ext0 : Ext unit string :=
  mkExt (fun e => e) stdout_slash (fun e => "epoch " +:+ e)
    (fun w => Version.mkVWorld "/tmp/util.test" "/tmp/util.test" "0123456789abcdef0123456789abcdef"
                (tw_now w))
    (mret tt) (mret tt) (fun _ => mret tt).

Lemma ext0_keeps_wf : stdout_keeps_wf ext0.
Proof.
  intros name. apply keeps_wf_fs. intros w. cbn [x_StdOutAndLogFile ext0]. unfold call_StdOutAndLogFile, stdout_slash.
  by destruct (String.eqb name "BadFile/").
Qed.

Lemma TestMain_removes_tmpdirs_witness :
  let '(_, _, w') := TestMain ext0 "0123456789" tw0 in
  forall q n, tw_fs w' !! q = Some n ->
    Fs.resolve "/tmp/polly-util_test-TestHomeDir11" `prefix_of` q -> q = [].
Proof.
  pose proof (TestMain_removes_tmpdirs ext0 "0123456789" tw0) as H.
  destruct (TestMain ext0 "0123456789" tw0) as [[code results] w'] eqn:E.
  intros q n Hq Hp. apply (H "/tmp/polly-util_test-TestHomeDir11" q n); [|exact Hq|exact Hp].
  assert (Ht : tw_tmpdirs w' = tw_tmpdirs (snd (TestMain ext0 "0123456789" tw0))) by (rewrite E; reflexivity).
  rewrite Ht. vm_compute. left.
Defined.

(** A process whose run directory [/var/run/polly] exists, under the
    default prefix, and one where it is a regular file. *)
Definition tw_run : TWorld :=
  mkTW Paths.init PidFile.fs_with_run 4242 "/tmp" [] 1700000000 "" [].
Definition tw_run_file : TWorld :=
  mkTW Paths.init PidFile.fs_run_is_file 4242 "/tmp" [] 1700000000 "" [].

Lemma tw_run_wf : Fs.wf (tw_fs tw_run).
Proof. apply (bool_decide_unpack _). vm_compute. exact I. Qed.

Lemma write_read_roundtrip_witness :
  fst ((write_or_fatal 31337;; read_or_fatal) tw_run) = Cont 31337%Z.
Proof.
  rewrite (write_read_roundtrip 31337 tw_run tw_run_wf);
    [reflexivity|vm_compute; reflexivity|vm_compute; discriminate|unfold GoInt.max_int; lia].
Defined.

Lemma write_read_self_witness :
  fst ((write_or_fatal (-1);; read_or_fatal) tw_run) = Cont 4242%Z.
Proof.
  rewrite (write_read_self (-1) tw_run tw_run_wf);
    [reflexivity|vm_compute; reflexivity|vm_compute; discriminate|lia|simpl; unfold GoInt.max_int; lia].
Defined.

Lemma hello_check_parse_error_witness :
  exists w', hello_check tw_run = (Cont tt, w') /\
    PidFile.ReadPidFile (to_world w')
    = Err (PidFile.ErrParse (GoInt.mkNumError "Atoi" "hello" GoInt.ErrSyntax)).
Proof.
  apply (hello_check_parse_error tw_run tw_run_wf); [vm_compute; reflexivity|vm_compute; discriminate].
Defined.

Lemma write_or_fatal_run_file_witness :
  write_or_fatal 7 tw_run_file
  = (Fatal ("error writing pidfile=" +:+ "/var/run/polly/polly.pid"), tw_run_file).
Proof.
  apply (write_or_fatal_run_file 7 tw_run_file "");
    [apply (bool_decide_unpack _); vm_compute; exact I|vm_compute; reflexivity].
Defined.

Lemma TestMain_exit_code_witness :
  let '(code, results, _) := TestMain ext0 "0123456789" tw0 in
  code = 1%Z /\ exists msg, ("TestWriteReadCurrentPidFile", Fatal msg) ∈ results.
Proof. exact (TestMain_exit_code ext0 "0123456789" tw0 ext0_keeps_wf fs_tmp_wf). Defined.

(** [/tmp] already holds the directory of suffix ["11"]. *)
Definition tw_busy (rand : list string) : TWorld :=
  mkTW Paths.init (<[["tmp"; "polly-util_test-TestPrefix11"] := Fs.Dir]> fs_tmp) 4242 "/tmp" rand
    1700000000 "" [].

Lemma taken_11 : Fs.taken (tw_fs (tw_busy [])) "/tmp" ("polly-util_test-" +:+ "TestPrefix") "11".
Proof. vm_compute. reflexivity. Qed.

Lemma newPrefixDir_first_free_witness :
  fst (newPrefixDir "TestPrefix" (tw_busy ["11"; "22"; "33"]))
  = Cont "/tmp/polly-util_test-TestPrefix22".
Proof.
  rewrite (newPrefixDir_first_free "TestPrefix" "22" ["11"] ["33"] (tw_busy ["11"; "22"; "33"])
             (<[["tmp"; "polly-util_test-TestPrefix22"] := Fs.Dir]>
                (<[["tmp"; "polly-util_test-TestPrefix11"] := Fs.Dir]> fs_tmp))).
  - reflexivity.
  - apply (bool_decide_unpack _). vm_compute. exact I.
  - reflexivity.
  - apply Nat.ltb_lt. vm_compute. reflexivity.
  - apply List.Forall_cons; [exact taken_11|apply List.Forall_nil].
  - vm_decide.
Defined.

Lemma newPrefixDir_exhausted_witness :
  fst (newPrefixDir "TestPrefix" (tw_busy (replicate 10000 "11")))
  = Fatal (Fs.Error (Fs.mkPathError "mkdir" "/tmp/polly-util_test-TestPrefix11" Fs.EEXIST)).
Proof.
  rewrite (newPrefixDir_exhausted "TestPrefix" (tw_busy (replicate 10000 "11"))).
  - vm_compute. reflexivity.
  - cbn [tw_rand tw_busy]. rewrite length_replicate. apply Nat.le_refl.
  - apply Forall_take, Forall_replicate. exact taken_11.
Defined.

(** The whole suite on a process whose random stream gives each of the
    six [newPrefixDir] calls a name: exit code 1, the two PID
    round-trip tests fail, and the temporary prefixes are gone. *)
Example TestMain_tw0 :
  let '(code, results, w') := TestMain ext0 "0123456789"
                                (set_rand ["11"; "22"; "33"; "44"; "55"; "66"] tw0) in
  code = 1%Z /\
  map (fun r => passed r.2) results = [true; true; true; false; false; true; true; true; true; true] /\
  map_to_list (tw_fs w') = map_to_list fs_tmp.
Proof. vm_compute. split_and!; reflexivity. Qed.

End UtilTests.
