(* ===== verification/Pflag.v ===== *)
(** * The flag sets of spf13/pflag

    The part of pflag that [cmds_other.go] and cobra's dispatch use: a
    [FlagSet] holds its flags in definition order; [AddFlag] panics on a
    redefined name, a shorthand of more than one character or a reused
    shorthand; [AddFlagSet] adds the flags whose name is new, visiting
    the new set's flags sorted by name as [VisitAll] does; on the
    command line pflag's [parseArgs] sets flags from [--name=value],
    [--name value], [--name] for a bool, shorthand clusters such as
    [-vc value], and stops at [--]; a bool's text goes through
    [strconv.ParseBool].  Library
    behaviour, not repository code: the environment of the CLI. *)

From stdpp Require Import base strings list gmap sorting.
From Stdlib Require Import ZArith Lia Ascii.
From S2P Require Import Prelude.

Module Pflag.

Inductive FlagValue := FBool (b : bool) | FString (s : string).

Record Flag := mkFlag {
  f_name : string;
  f_shorthand : string;
  f_value : FlagValue;
  f_usage : string
}.

(** The flags of a set, in the order they were defined. *)
Record FlagSet := mkFlagSet { formal : list Flag }.

Definition empty_flags : FlagSet := mkFlagSet [].

Definition Lookup (fs : FlagSet) (name : string) : option Flag :=
  find (fun f => String.eqb (f_name f) name) (formal fs).

Definition shorthand_used (fs : FlagSet) (sh : string) : bool :=
  existsb (fun g => String.eqb (f_shorthand g) sh) (formal fs).

Inductive Panic :=
| FlagRedefined (name : string)
| ShorthandTooLong (sh : string)
| ShorthandReused (sh : string)
| ChildOfItself
| NilPointer.

(** [FlagSet.AddFlag]: a name defined twice panics, and so does a
    shorthand of more than one character or one already in use. *)
Definition AddFlag (fs : FlagSet) (f : Flag) : result FlagSet Panic :=
  match Lookup fs (f_name f) with
  | Some _ => Err (FlagRedefined (f_name f))
  | None =>
      match f_shorthand f with
      | EmptyString => Ok (mkFlagSet (formal fs ++ [f]))
      | String _ EmptyString =>
          if shorthand_used fs (f_shorthand f) then Err (ShorthandReused (f_shorthand f))
          else Ok (mkFlagSet (formal fs ++ [f]))
      | _ => Err (ShorthandTooLong (f_shorthand f))
      end
  end.

(** [FlagSet.AddFlagSet]: [newSet.VisitAll] adds, in the order it
    visits them, the flags whose name is not yet defined. *)
Fixpoint add_flags (fs : FlagSet) (l : list Flag) : result FlagSet Panic :=
  match l with
  | [] => Ok fs
  | f :: rest =>
      match Lookup fs (f_name f) with
      | Some _ => add_flags fs rest
      | None => let? fs' := AddFlag fs f in add_flags fs' rest
      end
  end.

(** [FlagSet.VisitAll]: the flags in lexicographical order of their
    names ([sortFlags], [SortFlags] being on by default), by bytes as
    Go compares strings. *)
Definition name_le (f g : Flag) : Prop := String.leb (f_name f) (f_name g) = true.
#[global] Instance name_le_dec : RelDecision name_le.
Proof. intros f g. unfold name_le. apply _. Defined.

Definition sorted_flags (fs : FlagSet) : list Flag := merge_sort name_le (formal fs).

Definition AddFlagSet (fs newSet : FlagSet) : result FlagSet Panic := add_flags fs (sorted_flags newSet).

(** [cmd.Flags().GetBool(name)], with [false] when the flag is missing or
    not a bool. *)
Definition GetBool (fs : FlagSet) (name : string) : bool :=
  match Lookup fs name with Some (mkFlag _ _ (FBool b) _) => b | _ => false end.

(** [strconv.ParseBool], the [Set] of a bool flag's value. *)
Definition ParseBool (t : string) : option bool :=
  if existsb (String.eqb t) ["1"; "t"; "T"; "TRUE"; "true"; "True"] then Some true
  else if existsb (String.eqb t) ["0"; "f"; "F"; "FALSE"; "false"; "False"] then Some false
  else None.

(** [Value.Set(text)]: a bool parses its text, a string takes it. *)
Definition value_set (v : FlagValue) (t : string) : option FlagValue :=
  match v with
  | FBool _ => FBool <$> ParseBool t
  | FString _ => Some (FString t)
  end.

(** [FlagSet.Set(name, text)]; [None] is pflag's error. *)
Definition set_flag (fs : FlagSet) (name t : string) : option FlagSet :=
  f ← Lookup fs name;
  x ← value_set (f_value f) t;
  Some (mkFlagSet ((fun g => if String.eqb (f_name g) name
                             then mkFlag (f_name g) (f_shorthand g) x (f_usage g) else g) <$> formal fs)).

(** [NoOptDefVal]: a bool flag given without a value is set to "true". *)
Definition NoOptDefVal (f : Flag) : option string :=
  match f_value f with FBool _ => Some "true" | FString _ => None end.

Definition LookupShort (fs : FlagSet) (c : ascii) : option Flag :=
  find (fun f => String.eqb (f_shorthand f) (String c EmptyString)) (formal fs).

(** Split ["name=value"] at its first '='. *)
Fixpoint split_eq (s : string) : string * option string :=
  match s with
  | EmptyString => (EmptyString, None)
  | String c rest =>
      if Ascii.eqb c "=" then (EmptyString, Some rest)
      else let '(n, v) := split_eq rest in (String c n, v)
  end.

(** [parseLongArg] on ["--" ++ body]: [--name=value], [--name] for a
    flag with a [NoOptDefVal], [--name value] otherwise.  The boolean
    says whether the next argument was taken as the value. *)
Definition parse_long (fs : FlagSet) (body : string) (next : option string) : option (FlagSet * bool) :=
  match body with
  | EmptyString => None
  | String c _ =>
      if Ascii.eqb c "-" || Ascii.eqb c "=" then None     (** bad flag syntax *)
      else
        let '(n, v) := split_eq body in
        f ← Lookup fs n;                                   (** unknown flag *)
        match v, NoOptDefVal f, next with
        | Some t, _, _ => fs' ← set_flag fs n t; Some (fs', false)
        | None, Some d, _ => fs' ← set_flag fs n d; Some (fs', false)
        | None, None, Some t => fs' ← set_flag fs n t; Some (fs', true)
        | None, None, None => None                         (** flag needs an argument *)
        end
  end.

(** [parseShortArg] on ["-" ++ shorthands]: each letter in turn is a
    shorthand; [-c=value], [-cvalue] and [-c value] give a value to a
    flag without [NoOptDefVal], and [-vc] sets [v] then goes on. *)
Fixpoint parse_shorts (fs : FlagSet) (shorthands : string) (next : option string)
  : option (FlagSet * bool) :=
  match shorthands with
  | EmptyString => Some (fs, false)
  | String c more =>
      f ← LookupShort fs c;                                (** unknown shorthand flag *)
      match more with
      | String e (String a v) =>
          if Ascii.eqb e "=" then fs' ← set_flag fs (f_name f) (String a v); Some (fs', false)
          else match NoOptDefVal f with
               | Some d => fs' ← set_flag fs (f_name f) d; parse_shorts fs' more next
               | None => fs' ← set_flag fs (f_name f) more; Some (fs', false)
               end
      | String _ EmptyString =>
          match NoOptDefVal f with
          | Some d => fs' ← set_flag fs (f_name f) d; parse_shorts fs' more next
          | None => fs' ← set_flag fs (f_name f) more; Some (fs', false)
          end
      | EmptyString =>
          match NoOptDefVal f, next with
          | Some d, _ => fs' ← set_flag fs (f_name f) d; Some (fs', false)
          | None, Some t => fs' ← set_flag fs (f_name f) t; Some (fs', true)
          | None, None => None
          end
      end
  end.

(** [FlagSet.parseArgs]: ["--"] ends the flags; an argument that does
    not start with '-', or is "-" itself, is positional and ignored by
    these commands. *)
Fixpoint parse_flags (fs : FlagSet) (args : list string) : option FlagSet :=
  match args with
  | [] => Some fs
  | s :: rest =>
      let step (r : option (FlagSet * bool)) :=
        match r with
        | None => None
        | Some (fs', taken) =>
            match rest with
            | t :: rest' => if taken then parse_flags fs' rest' else parse_flags fs' rest
            | [] => Some fs'
            end
        end in
      match s with
      | String c1 (String c2 body) =>
          if Ascii.eqb c1 "-" then
            if Ascii.eqb c2 "-" then
              match body with
              | EmptyString => Some fs
              | _ => step (parse_long fs body (head rest))
              end
            else step (parse_shorts fs (String c2 body) (head rest))
          else parse_flags fs rest
      | _ => parse_flags fs rest
      end
  end.

(** ** Flag sets that add without a panic *)

(** A flag whose name is new, whose shorthand is at most one character
    and not yet used, is appended. *)
Lemma AddFlag_ok (fs : FlagSet) (f : Flag) :
  Lookup fs (f_name f) = None -> String.length (f_shorthand f) <= 1 ->
  (f_shorthand f = "" \/ shorthand_used fs (f_shorthand f) = false) ->
  AddFlag fs f = Ok (mkFlagSet (formal fs ++ [f])).
Proof.
  intros Hn Hl Hs. unfold AddFlag. rewrite Hn.
  destruct (f_shorthand f) as [|c [|c' t]] eqn:E; simpl in Hl; [done| |lia].
  destruct Hs as [Hs|Hs]; [discriminate|]. by rewrite Hs.
Qed.

(** Names are distinct, shorthands are at most one character, and the
    non-empty shorthands are distinct. *)
Definition flags_ok (l : list Flag) : Prop :=
  NoDup (f_name <$> l) /\ Forall (fun f => String.length (f_shorthand f) <= 1) l /\
  NoDup (filter (fun sh => sh <> "") (f_shorthand <$> l)).

#[global] Instance flags_ok_dec (l : list Flag) : Decision (flags_ok l).
Proof. unfold flags_ok. apply _. Defined.

Lemma Lookup_None (l : list Flag) (n : string) :
  n ∉ f_name <$> l -> Lookup (mkFlagSet l) n = None.
Proof.
  unfold Lookup. simpl. induction l as [|f l IH]; intros Hn; [done|]. simpl.
  rewrite fmap_cons, not_elem_of_cons in Hn. destruct Hn as [Hf Hl].
  destruct (String.eqb_spec (f_name f) n); [congruence|]. by apply IH.
Qed.

Lemma shorthand_unused (l : list Flag) (sh : string) :
  sh ∉ f_shorthand <$> l -> shorthand_used (mkFlagSet l) sh = false.
Proof.
  unfold shorthand_used. simpl. induction l as [|f l IH]; intros Hn; [done|]. simpl.
  rewrite fmap_cons, not_elem_of_cons in Hn. destruct Hn as [Hf Hl].
  destruct (String.eqb_spec (f_shorthand f) sh); [congruence|]. by apply IH.
Qed.

Lemma flags_ok_app_l (l1 l2 : list Flag) : flags_ok (l1 ++ l2) -> flags_ok l1.
Proof.
  intros (Hn & Hl & Hs). rewrite fmap_app in Hn, Hs. rewrite filter_app in Hs.
  apply NoDup_app in Hn as (? & _ & _). apply NoDup_app in Hs as (? & _ & _).
  apply Forall_app in Hl as [? _]. done.
Qed.

(** Well-formedness does not depend on the order of the flags. *)
Lemma flags_ok_Permutation (l l' : list Flag) : l ≡ₚ l' -> flags_ok l -> flags_ok l'.
Proof. intros Hp (Hn & Hl & Hs). split_and!; by rewrite <- Hp. Qed.

Lemma sorted_flags_Permutation (fs : FlagSet) : sorted_flags fs ≡ₚ formal fs.
Proof. apply merge_sort_Permutation. Qed.

Lemma sorted_flags_singleton (f : Flag) : sorted_flags (mkFlagSet [f]) = [f].
Proof. reflexivity. Qed.

(** [AddFlagSet] of new flags that clash with nothing appends them all. *)
Lemma add_flags_ok (l0 l : list Flag) :
  flags_ok (l0 ++ l) -> add_flags (mkFlagSet l0) l = Ok (mkFlagSet (l0 ++ l)).
Proof.
  revert l0. induction l as [|f l IH]; intros l0 Hok; simpl; [by rewrite List.app_nil_r|].
  pose proof Hok as (Hn & Hl & Hs).
  rewrite fmap_app, fmap_cons in Hn. apply NoDup_app in Hn as (_ & Hnf & _).
  rewrite Lookup_None by (intros Hin; by apply (Hnf _ Hin), list_elem_of_here).
  rewrite AddFlag_ok.
  - simpl. rewrite (IH (l0 ++ [f])); [by rewrite <- List.app_assoc|].
    by rewrite <- List.app_assoc.
  - by apply Lookup_None; intros Hin; apply (Hnf _ Hin), list_elem_of_here.
  - apply Forall_app in Hl as [_ Hl]. by inversion Hl.
  - destruct (decide (f_shorthand f = "")) as [E|E]; [by left|right].
    apply shorthand_unused. intros Hin.
    rewrite fmap_app, fmap_cons, filter_app in Hs. apply NoDup_app in Hs as (_ & Hsf & _).
    apply (Hsf (f_shorthand f)).
    + by apply list_elem_of_filter.
    + simpl. rewrite filter_cons_True by done. apply list_elem_of_here.
Qed.

Lemma Lookup_None_iff (fs : FlagSet) (n : string) :
  Lookup fs n = None <-> n ∉ f_name <$> formal fs.
Proof.
  destruct fs as [l]. unfold Lookup. simpl. induction l as [|f l IH]; simpl.
  - split; [intros _; apply not_elem_of_nil|done].
  - rewrite not_elem_of_cons.
    destruct (String.eqb_spec (f_name f) n); [split; [discriminate|intros [? _]; congruence]|].
    rewrite IH. naive_solver.
Qed.

Lemma shorthand_used_false_iff (fs : FlagSet) (sh : string) :
  shorthand_used fs sh = false <-> sh ∉ f_shorthand <$> formal fs.
Proof.
  destruct fs as [l]. unfold shorthand_used. simpl. induction l as [|f l IH]; simpl.
  - split; [intros _; apply not_elem_of_nil|done].
  - rewrite not_elem_of_cons.
    destruct (String.eqb_spec (f_shorthand f) sh); [split; [discriminate|intros [? _]; congruence]|].
    rewrite IH. naive_solver.
Qed.

(** Exactly when [AddFlag] does not panic: a new name, a shorthand of at
    most one character, empty or unused. *)
Lemma AddFlag_is_ok (fs : FlagSet) (f : Flag) :
  is_ok (AddFlag fs f) = true <->
  f_name f ∉ f_name <$> formal fs /\ String.length (f_shorthand f) <= 1 /\
  (f_shorthand f = "" \/ f_shorthand f ∉ f_shorthand <$> formal fs).
Proof.
  unfold AddFlag. rewrite <- Lookup_None_iff, <- shorthand_used_false_iff.
  destruct (Lookup fs (f_name f)); [split; [discriminate|intros [? _]; discriminate]|].
  destruct (f_shorthand f) as [|a [|b t]]; simpl.
  - split; [intros _; split_and!; [done|lia|by left]|done].
  - destruct (shorthand_used fs (String a "")); simpl;
      split; intros; try done; try (split_and!; [done|lia|by right]).
    destruct H as (_ & _ & [H|H]); discriminate.
  - split; [discriminate|intros (_ & H & _); lia].
Qed.

(** ** Well-formed flag sets stay well formed *)

Lemma flags_ok_snoc (l : list Flag) (f : Flag) :
  flags_ok l -> f_name f ∉ f_name <$> l -> String.length (f_shorthand f) <= 1 ->
  (f_shorthand f = "" \/ f_shorthand f ∉ f_shorthand <$> l) -> flags_ok (l ++ [f]).
Proof.
  intros (Hn & Hl & Hs) Hf Hlen Hsh. split_and!.
  - rewrite fmap_app. apply NoDup_app. split_and!; [done| |by apply NoDup_singleton].
    intros x Hx ->%list_elem_of_singleton. done.
  - apply Forall_app. split; [done|by constructor].
  - rewrite fmap_app, filter_app. apply NoDup_app. split_and!; [done| |].
    + intros x Hx Hy. simpl in Hy. rewrite filter_cons in Hy.
      case_decide; [|by apply not_elem_of_nil in Hy].
      apply list_elem_of_singleton in Hy as ->. apply list_elem_of_filter in Hx as [_ Hx].
      destruct Hsh; done.
    + simpl. rewrite filter_cons. case_decide; [apply NoDup_singleton|apply NoDup_nil_2].
Qed.

(** pflag's checks are exactly what keeps a flag set well formed:
    whatever [AddFlag] returns is. *)
Lemma AddFlag_flags_ok (fs fs' : FlagSet) (f : Flag) :
  flags_ok (formal fs) -> AddFlag fs f = Ok fs' -> flags_ok (formal fs').
Proof.
  intros Hok E. assert (Hi : is_ok (AddFlag fs f) = true) by (by rewrite E).
  apply AddFlag_is_ok in Hi as (Hn & Hl & Hs).
  assert (fs' = mkFlagSet (formal fs ++ [f])) as ->
    by (unfold AddFlag in E; repeat case_match; by simplify_eq).
  by apply flags_ok_snoc.
Qed.

Lemma add_flags_flags_ok (fs fs' : FlagSet) (l : list Flag) :
  flags_ok (formal fs) -> add_flags fs l = Ok fs' -> flags_ok (formal fs').
Proof.
  revert fs. induction l as [|f l IH]; intros fs Hok E; simpl in E; [by simplify_eq|].
  destruct (Lookup fs (f_name f)); [by apply (IH fs)|].
  destruct (AddFlag fs f) as [fs1|] eqn:E1; [|discriminate]. simpl in E1.
  apply (IH fs1); [by apply (AddFlag_flags_ok fs _ f)|done].
Qed.

(** ** The command line, on two flags *)

(** A string flag [--config]/[-c] and a bool flag [--verbose]/[-v]:
    [-vc] sets [v] and gives [c] the next argument; [--] ends the
    flags. *)
Example parse_flags_cluster :
  let fs := mkFlagSet [mkFlag "config" "c" (FString "") ""; mkFlag "verbose" "v" (FBool false) ""] in
  parse_flags fs ["-vc"; "/etc/p.yml"; "--"; "--unknown"]
  = Some (mkFlagSet [mkFlag "config" "c" (FString "/etc/p.yml") ""; mkFlag "verbose" "v" (FBool true) ""]).
Proof. reflexivity. Qed.

(** [-c=x] and [-cx] give [c] the rest of the cluster; a bool takes
    only what [strconv.ParseBool] accepts. *)
Example parse_flags_short_values :
  let fs := mkFlagSet [mkFlag "config" "c" (FString "") ""; mkFlag "verbose" "v" (FBool false) ""] in
  (fun r => GetBool r "verbose") <$> parse_flags fs ["-c=x"; "--verbose=T"] = Some true /\
  (fun r => Lookup r "config") <$> parse_flags fs ["-cx"]
    = Some (Some (mkFlag "config" "c" (FString "x") "")) /\
  parse_flags fs ["--verbose=yes"] = None /\ parse_flags fs ["-x"] = None.
Proof. split_and!; reflexivity. Qed.

End Pflag.
