(* ===== verification/Cli.v ===== *)
(** * The CLI commands of [src/polly/cli/cmds_other.go]

    [initOtherCmds] allocates the [version], [env], [install] and
    [uninstall] commands, keeps a pointer to each in the [CLI] struct and
    adds each to the root command; [initOtherFlags] sets cobra's help flag
    globals, adds the persistent flags of the root and the local
    [--package] flag of [uninstall].  Commands are pointers: the store
    maps a pointer to its command, so the flag added through
    [c.uninstallCmd] is the one the root's child carries.  Cobra's
    [AddCommand] and a small part of its dispatch are modelled here, on
    the flag sets of [Pflag].  The file also holds the invariant that
    the store has no dangling pointer, the invariant that the tree is
    well typed (well-formed flag sets, each [CLI] pointer on a command
    with its own [Run] closure), the flat command table the built
    tree refines, and [c.cfgFile], the variable [StringVarP] binds to
    [--config]. *)

From stdpp Require Import base strings list gmap.
From Stdlib Require Import ZArith Lia Ascii.
From S2P Require Import Prelude Pflag.
Import Pflag.

Module Cli.

(** ** cobra *)

(** The [Run] closures of the four commands. *)
Inductive RunFn := RunVersion | RunEnv | RunInstall | RunUninstall.

Record Command := mkCommand {
  c_use : string;
  c_short : string;
  c_run : option RunFn;
  c_flags : FlagSet;          (** [Flags()]: local flags *)
  c_pflags : FlagSet;         (** [PersistentFlags()] *)
  c_parent : option nat;
  c_children : list nat
}.

Definition new_command (use short : string) (run : RunFn) : Command :=
  mkCommand use short (Some run) empty_flags empty_flags None [].

(** The fields of [type CLI struct] that this file uses. *)
Record CLI := mkCLI {
  cli_c : nat;                       (** [c.c], the root command *)
  cli_versionCmd : option nat;
  cli_envCmd : option nat;
  cli_installCmd : option nat;
  cli_uninstallCmd : option nat
}.

(** The process: the command store, cobra's help globals, and the
    configuration of the core ([c.p.Config]). *)
Record CliState := mkCliState {
  cs_store : gmap nat Command;
  cs_next : nat;
  cs_cli : CLI;
  cs_help_shorthand : string;        (** [cobra.HelpFlagShorthand] *)
  cs_help_usage : string;            (** [cobra.HelpFlagUsageFormatString] *)
  cs_env_vars : list string;         (** [c.p.Config.EnvVars()] *)
  cs_flag_sets : list FlagSet        (** [c.p.Config.FlagSets()] *)
}.

(** Code that may panic, over the process. *)
Definition CM (A : Type) : Type := CliState -> result (A * CliState) Panic.

#[global] Instance CM_ret : MRet CM := fun A a s => Ok (a, s).
#[global] Instance CM_bind : MBind CM := fun A B k m s =>
  match m s with
  | Ok (a, s') => k a s'
  | Err p => Err p
  end.

Definition panic {A} (p : Panic) : CM A := fun _ => Err p.
Definition get_cli : CM CLI := fun s => Ok (cs_cli s, s).

Definition set_store (st : gmap nat Command) (s : CliState) : CliState :=
  mkCliState st (cs_next s) (cs_cli s) (cs_help_shorthand s) (cs_help_usage s)
    (cs_env_vars s) (cs_flag_sets s).

Definition set_cli (c : CLI) : CM unit := fun s =>
  Ok (tt, mkCliState (cs_store s) (cs_next s) c (cs_help_shorthand s) (cs_help_usage s)
            (cs_env_vars s) (cs_flag_sets s)).

(** [&cobra.Command{...}]: a new pointer. *)
Definition alloc (cmd : Command) : CM nat := fun s =>
  let p := cs_next s in
  Ok (p, mkCliState (<[p := cmd]> (cs_store s)) (S p) (cs_cli s) (cs_help_shorthand s)
           (cs_help_usage s) (cs_env_vars s) (cs_flag_sets s)).

(** Dereference a pointer; [nil] panics. *)
Definition deref (p : option nat) : CM nat :=
  match p with Some x => mret x | None => panic NilPointer end.

Definition load (p : nat) : CM Command := fun s =>
  match cs_store s !! p with Some c => Ok (c, s) | None => Err NilPointer end.

Definition store (p : nat) (c : Command) : CM unit := fun s =>
  Ok (tt, set_store (<[p := c]> (cs_store s)) s).

(** [Command.AddCommand(cmd)]. *)
Definition AddCommand (parent child : nat) : CM unit :=
  if decide (parent = child) then panic ChildOfItself else
  ch ← load child;
  store child (mkCommand (c_use ch) (c_short ch) (c_run ch) (c_flags ch) (c_pflags ch)
                 (Some parent) (c_children ch));;
  pa ← load parent;
  store parent (mkCommand (c_use pa) (c_short pa) (c_run pa) (c_flags pa) (c_pflags pa)
                  (c_parent pa) (c_children pa ++ [child])).

(** A flag change on [Flags()] or [PersistentFlags()] of a command. *)
Definition lift_panic {A} (r : result A Panic) : CM A :=
  fun s => match r with Ok a => Ok (a, s) | Err p => Err p end.

Definition update_flags (p : nat) (local : bool) (f : FlagSet -> result FlagSet Panic) : CM unit :=
  c ← load p;
  fs' ← lift_panic (f (if local then c_flags c else c_pflags c));
  store p (mkCommand (c_use c) (c_short c) (c_run c)
             (if local then fs' else c_flags c) (if local then c_pflags c else fs')
             (c_parent c) (c_children c)).

(** ** [cmds_other.go] *)

Definition set_versionCmd (p : nat) (c : CLI) : CLI :=
  mkCLI (cli_c c) (Some p) (cli_envCmd c) (cli_installCmd c) (cli_uninstallCmd c).
Definition set_envCmd (p : nat) (c : CLI) : CLI :=
  mkCLI (cli_c c) (cli_versionCmd c) (Some p) (cli_installCmd c) (cli_uninstallCmd c).
Definition set_installCmd (p : nat) (c : CLI) : CLI :=
  mkCLI (cli_c c) (cli_versionCmd c) (cli_envCmd c) (Some p) (cli_uninstallCmd c).
Definition set_uninstallCmd (p : nat) (c : CLI) : CLI :=
  mkCLI (cli_c c) (cli_versionCmd c) (cli_envCmd c) (cli_installCmd c) (Some p).

(** [func (c *CLI) initOtherCmds()] *)
Definition initOtherCmds : CM unit :=
  v ← alloc (new_command "version" "Print the version" RunVersion);
  c ← get_cli; set_cli (set_versionCmd v c);;
  c ← get_cli; vp ← deref (cli_versionCmd c); AddCommand (cli_c c) vp;;
  e ← alloc (new_command "env" "Print the Polly environment" RunEnv);
  c ← get_cli; set_cli (set_envCmd e c);;
  c ← get_cli; ep ← deref (cli_envCmd c); AddCommand (cli_c c) ep;;
  i ← alloc (new_command "install" "Install Polly" RunInstall);
  c ← get_cli; set_cli (set_installCmd i c);;
  c ← get_cli; ip ← deref (cli_installCmd c); AddCommand (cli_c c) ip;;
  u ← alloc (new_command "uninstall" "Uninstall Polly" RunUninstall);
  c ← get_cli; set_cli (set_uninstallCmd u c);;
  c ← get_cli; up ← deref (cli_uninstallCmd c); AddCommand (cli_c c) up.

Definition set_help_globals (sh usage : string) : CM unit := fun s =>
  Ok (tt, mkCliState (cs_store s) (cs_next s) (cs_cli s) sh usage (cs_env_vars s) (cs_flag_sets s)).

Definition config_flag : Flag :=
  mkFlag "config" "c" (FString "") "The path to a custom Polly configuration file".
Definition verbose_flag : Flag :=
  mkFlag "verbose" "v" (FBool false) "Print verbose help information".
Definition package_flag : Flag :=
  mkFlag "package" "" (FBool false)
    "A flag indicating a package manager is performing the uninstallation".

(** [for _, fs := range c.p.Config.FlagSets() { ...AddFlagSet(fs) }] *)
Fixpoint add_flag_sets (root : nat) (l : list FlagSet) : CM unit :=
  match l with
  | [] => mret tt
  | fs :: rest => update_flags root false (fun pf => AddFlagSet pf fs);; add_flag_sets root rest
  end.

(** [func (c *CLI) initOtherFlags()] *)
Definition initOtherFlags : CM unit :=
  set_help_globals "?" "Help for %s";;
  c ← get_cli;
  update_flags (cli_c c) false (fun pf => AddFlag pf config_flag);;
  update_flags (cli_c c) false (fun pf => AddFlag pf verbose_flag);;
  fss ← (fun s => Ok (cs_flag_sets s, s));
  add_flag_sets (cli_c c) fss;;
  c ← get_cli; up ← deref (cli_uninstallCmd c);
  update_flags up true (fun f => AddFlag f package_flag).

(** [func (c *CLI) initOtherCmdsAndFlags()] *)
Definition initOtherCmdsAndFlags : CM unit := initOtherCmds;; initOtherFlags.

(** ** Running a command *)

(** What a [Run] closure does. *)
Inductive Effect :=
| PrintVersion                (** [util.PrintVersion(os.Stdout)] *)
| Println (s : string)        (** [fmt.Println(ev)] *)
| Install                     (** [install()] *)
| Uninstall (pkg : bool).     (** [uninstall(pkgManager)] *)

(** The [Run] closures of [initOtherCmds], on the command's parsed flags. *)
Definition run_closure (r : RunFn) (flags : FlagSet) (s : CliState) : list Effect :=
  match r with
  | RunVersion => [PrintVersion]
  | RunEnv => Println <$> cs_env_vars s
  | RunInstall => [Install]
  | RunUninstall => [Uninstall (GetBool flags "package")]
  end.

Definition find_child (st : gmap nat Command) (children : list nat) (name : string) : option Command :=
  find (fun c => String.eqb (c_use c) name) (omap (fun p => st !! p) children).

(** [c.c.Execute()] on [name :: args]: find the sub-command, parse its
    local and inherited persistent flags, run its closure.  [None] is
    cobra's "unknown command" or "unknown flag" error. *)
Definition dispatch (args : list string) (s : CliState) : option (RunFn * FlagSet) :=
  match args with
  | [] => None
  | name :: rest =>
      root ← cs_store s !! cli_c (cs_cli s);
      cmd ← find_child (cs_store s) (c_children root) name;
      run ← c_run cmd;
      flags ← parse_flags (mkFlagSet (formal (c_flags cmd) ++ formal (c_pflags cmd)
                                      ++ formal (c_pflags root))) rest;
      Some (run, flags)
  end.

Definition Execute (args : list string) (s : CliState) : option (list Effect) :=
  p ← dispatch args s; Some (run_closure p.1 p.2 s).

(** [&c.cfgFile], bound to [--config] by [StringVarP]: the flag's value
    is the variable, set to the default "" when the flag is defined and
    to the text given on the command line when it is parsed. *)
Definition cfgFile (flags : FlagSet) : string :=
  match Lookup flags "config" with
  | Some f => match f_value f with FString v => v | FBool _ => "" end
  | None => ""
  end.

(** [c.cfgFile] once [c.c.Execute()] has parsed the command line. *)
Definition Execute_cfgFile (args : list string) (s : CliState) : option string :=
  p ← dispatch args s; Some (cfgFile p.2).

(** ** Stepping through [CM] code *)

Lemma cm_bind_ok {A B} (m : CM A) (k : A -> CM B) (s : CliState) (a : A) (s' : CliState) :
  m s = Ok (a, s') -> (m ≫= k) s = k a s'.
Proof. intros H. unfold mbind, CM_bind. by rewrite H. Qed.

Lemma cm_bind_err {A B} (m : CM A) (k : A -> CM B) (s : CliState) (p : Panic) :
  m s = Err p -> (m ≫= k) s = Err p.
Proof. intros H. unfold mbind, CM_bind. by rewrite H. Qed.

Lemma AddCommand_ok (parent child : nat) (ch pa : Command) (s : CliState) :
  parent <> child -> cs_store s !! child = Some ch -> cs_store s !! parent = Some pa ->
  AddCommand parent child s =
    Ok (tt, set_store (<[parent := mkCommand (c_use pa) (c_short pa) (c_run pa) (c_flags pa)
                                    (c_pflags pa) (c_parent pa) (c_children pa ++ [child])]>
                      (<[child := mkCommand (c_use ch) (c_short ch) (c_run ch) (c_flags ch)
                                   (c_pflags ch) (Some parent) (c_children ch)]> (cs_store s))) s).
Proof.
  intros Hne Hc Hp. unfold AddCommand. rewrite decide_False by done.
  unfold mbind, CM_bind, load, store. simpl. rewrite Hc. simpl.
  rewrite lookup_insert_ne by congruence. rewrite Hp. reflexivity.
Qed.

Lemma update_flags_ok (p : nat) (local : bool) (f : FlagSet -> result FlagSet Panic)
  (c : Command) (fs' : FlagSet) (s : CliState) :
  cs_store s !! p = Some c -> f (if local then c_flags c else c_pflags c) = Ok fs' ->
  update_flags p local f s =
    Ok (tt, set_store (<[p := mkCommand (c_use c) (c_short c) (c_run c)
                                (if local then fs' else c_flags c) (if local then c_pflags c else fs')
                                (c_parent c) (c_children c)]> (cs_store s)) s).
Proof.
  intros Hc Hf. unfold update_flags, mbind, CM_bind, load, lift_panic, store. simpl.
  rewrite Hc. by rewrite Hf.
Qed.

Lemma update_flags_err (p : nat) (local : bool) (f : FlagSet -> result FlagSet Panic)
  (c : Command) (e : Panic) (s : CliState) :
  cs_store s !! p = Some c -> f (if local then c_flags c else c_pflags c) = Err e ->
  update_flags p local f s = Err e.
Proof.
  intros Hc Hf. unfold update_flags, mbind, CM_bind, load, lift_panic. simpl.
  rewrite Hc. by rewrite Hf.
Qed.

(** ** Initialisation of the command tree *)

(** Persistent flags of the root after [initOtherFlags]. *)
Definition root_pflags (fss : list FlagSet) : list Flag :=
  [config_flag; verbose_flag] ++ concat (sorted_flags <$> fss).

Lemma add_flag_sets_ok (root : nat) (c : Command) (acc : list Flag) (fss : list FlagSet) (s : CliState) :
  cs_store s !! root = Some c -> c_pflags c = mkFlagSet acc ->
  flags_ok (acc ++ concat (sorted_flags <$> fss)) ->
  add_flag_sets root fss s =
    Ok (tt, set_store (<[root := mkCommand (c_use c) (c_short c) (c_run c) (c_flags c)
                                   (mkFlagSet (acc ++ concat (sorted_flags <$> fss)))
                                   (c_parent c) (c_children c)]> (cs_store s)) s).
Proof.
  revert c acc s. induction fss as [|fs fss IH]; intros c acc s Hc Hpf Hok; simpl.
  - rewrite List.app_nil_r, <- Hpf. unfold mret, CM_ret. f_equal. f_equal.
    unfold set_store. destruct s; simpl in *. f_equal. rewrite insert_id; [done|].
    rewrite Hc. by destruct c.
  - rewrite fmap_cons in Hok. cbn [concat] in Hok. rewrite ?fmap_cons. cbn [concat].
    assert (Hadd : AddFlagSet (c_pflags c) fs = Ok (mkFlagSet (acc ++ sorted_flags fs))).
    { rewrite Hpf. apply add_flags_ok. rewrite List.app_assoc in Hok.
      by apply flags_ok_app_l in Hok. }
    rewrite (cm_bind_ok _ _ s tt _ (update_flags_ok root false _ c _ s Hc Hadd)).
    erewrite (IH _ (acc ++ sorted_flags fs));
      [|apply lookup_insert_eq|reflexivity|by rewrite <- List.app_assoc].
    unfold set_store. simpl. rewrite insert_insert_eq. by rewrite <- List.app_assoc.
Qed.

(** Store lookups after a series of [insert]s at distinct pointers. *)
Ltac lookup_simpl :=
  repeat first [ rewrite lookup_insert_eq | rewrite lookup_insert_ne by lia ].

(** Reduce the record projections and updates of the process state. *)
Ltac cs_simpl :=
  cbn [cs_store cs_next cs_cli cs_help_shorthand cs_help_usage cs_env_vars cs_flag_sets
       cli_c cli_versionCmd cli_envCmd cli_installCmd cli_uninstallCmd
       set_versionCmd set_envCmd set_installCmd set_uninstallCmd set_store
       c_use c_short c_run c_flags c_pflags c_parent c_children] in *.

(** One step of [CM] code: a call that returns, with its side
    conditions on the store discharged. *)
Ltac cstep_add p c s :=
  let Hne := fresh "Hne" in let Hc := fresh "Hc" in let Hp := fresh "Hp" in
  assert (Hne : p <> c) by (cs_simpl; lia);
  eassert (Hc : cs_store s !! c = Some _) by (cs_simpl; lookup_simpl; (eassumption || reflexivity));
  eassert (Hp : cs_store s !! p = Some _) by (cs_simpl; lookup_simpl; (eassumption || reflexivity)).

Ltac cstep :=
  match goal with
  | |- context [ (mbind ?k (AddCommand ?p ?c)) ?s ] =>
      cstep_add p c s;
      match goal with
      | Hne : p <> c, Hc : cs_store s !! c = Some ?ch, Hp : cs_store s !! p = Some ?pa |- _ =>
          rewrite (cm_bind_ok _ k s _ _ (AddCommand_ok p c ch pa s Hne Hc Hp)); clear Hne Hc Hp
      end
  | |- context [ (mbind ?k ?m) ?s ] => erewrite (cm_bind_ok m k s _ _ eq_refl)
  end; cs_simpl.

(** The commands [initOtherCmds] builds, with their parent. *)
Definition version_cmd (parent : nat) : Command :=
  mkCommand "version" "Print the version" (Some RunVersion) empty_flags empty_flags (Some parent) [].
Definition env_cmd (parent : nat) : Command :=
  mkCommand "env" "Print the Polly environment" (Some RunEnv) empty_flags empty_flags (Some parent) [].
Definition install_cmd (parent : nat) : Command :=
  mkCommand "install" "Install Polly" (Some RunInstall) empty_flags empty_flags (Some parent) [].
Definition uninstall_cmd (parent : nat) (flags : FlagSet) : Command :=
  mkCommand "uninstall" "Uninstall Polly" (Some RunUninstall) flags empty_flags (Some parent) [].

Section Init.
Variable s : CliState.
Variable root : Command.
Let c0 := cli_c (cs_cli s).
Let n := cs_next s.
Hypothesis Hfresh : forall p, p ∈ dom (cs_store s) -> p < cs_next s.
Hypothesis Hroot : cs_store s !! cli_c (cs_cli s) = Some root.

Lemma root_below_next : c0 < n.
Proof. apply Hfresh. by apply elem_of_dom_2 in Hroot. Qed.

Lemma initOtherCmds_ok :
  exists s1, initOtherCmds s = Ok (tt, s1) /\
  cs_cli s1 = mkCLI c0 (Some n) (Some (S n)) (Some (S (S n))) (Some (S (S (S n)))) /\
  cs_next s1 = S (S (S (S n))) /\
  cs_help_shorthand s1 = cs_help_shorthand s /\ cs_help_usage s1 = cs_help_usage s /\
  cs_env_vars s1 = cs_env_vars s /\ cs_flag_sets s1 = cs_flag_sets s /\
  cs_store s1 !! c0 = Some (mkCommand (c_use root) (c_short root) (c_run root) (c_flags root)
                             (c_pflags root) (c_parent root)
                             (c_children root ++ [n; S n; S (S n); S (S (S n))])) /\
  cs_store s1 !! n = Some (version_cmd c0) /\
  cs_store s1 !! S n = Some (env_cmd c0) /\
  cs_store s1 !! S (S n) = Some (install_cmd c0) /\
  cs_store s1 !! S (S (S n)) = Some (uninstall_cmd c0 empty_flags) /\
  (forall p, p <> c0 -> p < n -> cs_store s1 !! p = cs_store s !! p).
Proof.
  pose proof root_below_next as Hlt. unfold c0, n in *.
  eexists. split.
  { unfold initOtherCmds. repeat cstep.
    match goal with |- AddCommand ?p ?c ?s = _ =>
      cstep_add p c s;
      match goal with
      | Hne : p <> c, Hc : cs_store s !! c = Some ?ch, Hp : cs_store s !! p = Some ?pa |- _ =>
          rewrite (AddCommand_ok p c ch pa s Hne Hc Hp); reflexivity
      end
    end. }
  cbn. split_and!; try reflexivity; try (lookup_simpl; rewrite ?Hroot; simpl; rewrite <- ?List.app_assoc; reflexivity).
  intros p Hp Hpn. lookup_simpl. reflexivity.
Qed.

End Init.

Ltac cstep_upd f fs' Hlook Hf :=
  match goal with
  | |- context [ (mbind ?k (update_flags ?p ?l f)) ?s ] =>
      rewrite (cm_bind_ok _ k s _ _ (update_flags_ok p l f _ fs' s Hlook Hf))
  end; cs_simpl.

(** The first steps of [initOtherFlags], on a root without persistent
    flags: cobra's help globals, then [--config] and [--verbose] on the
    root; what remains is the flag-set loop and the [--package] flag. *)
Lemma initOtherFlags_head (t : CliState) (root : Command) :
  cs_store t !! cli_c (cs_cli t) = Some root -> c_pflags root = empty_flags ->
  initOtherFlags t =
    (add_flag_sets (cli_c (cs_cli t)) (cs_flag_sets t);;
     c ← get_cli; up ← deref (cli_uninstallCmd c); update_flags up true (fun f => AddFlag f package_flag))
    (mkCliState (<[cli_c (cs_cli t) := mkCommand (c_use root) (c_short root) (c_run root) (c_flags root)
                                        (mkFlagSet [config_flag; verbose_flag])
                                        (c_parent root) (c_children root)]> (cs_store t))
                (cs_next t) (cs_cli t) "?" "Help for %s" (cs_env_vars t) (cs_flag_sets t)).
Proof.
  intros Hroot Hpf.
  assert (E1 : AddFlag (c_pflags root) config_flag = Ok (mkFlagSet [config_flag]))
    by (rewrite Hpf; reflexivity).
  assert (E2 : AddFlag (mkFlagSet [config_flag]) verbose_flag
               = Ok (mkFlagSet [config_flag; verbose_flag])) by reflexivity.
  unfold initOtherFlags. do 2 cstep.
  cstep_upd (fun pf => AddFlag pf config_flag) (mkFlagSet [config_flag]) Hroot E1.
  cstep_upd (fun pf => AddFlag pf verbose_flag) (mkFlagSet [config_flag; verbose_flag])
    (lookup_insert_eq (M := gmap nat) (cs_store t) (cli_c (cs_cli t))
       (mkCommand (c_use root) (c_short root) (c_run root) (c_flags root)
          (mkFlagSet [config_flag]) (c_parent root) (c_children root))) E2.
  cstep. by rewrite insert_insert_eq.
Qed.

(** With configured flag sets that clash with nothing, the flag-set
    loop leaves the root with all its persistent flags; what remains is
    the [--package] flag through [c.uninstallCmd]. *)
Lemma initOtherFlags_body (t : CliState) (root : Command) :
  cs_store t !! cli_c (cs_cli t) = Some root -> c_pflags root = empty_flags ->
  flags_ok (root_pflags (cs_flag_sets t)) ->
  initOtherFlags t =
    (c ← get_cli; up ← deref (cli_uninstallCmd c); update_flags up true (fun f => AddFlag f package_flag))
    (mkCliState (<[cli_c (cs_cli t) := mkCommand (c_use root) (c_short root) (c_run root) (c_flags root)
                                        (mkFlagSet (root_pflags (cs_flag_sets t)))
                                        (c_parent root) (c_children root)]> (cs_store t))
                (cs_next t) (cs_cli t) "?" "Help for %s" (cs_env_vars t) (cs_flag_sets t)).
Proof.
  intros Hroot Hpf Hok. rewrite (initOtherFlags_head t root Hroot Hpf).
  match goal with |- (mbind ?k (add_flag_sets ?p ?l)) ?s = _ =>
    rewrite (cm_bind_ok _ k s _ _ (add_flag_sets_ok p _ [config_flag; verbose_flag] l s
                                    (lookup_insert_eq _ _ _) eq_refl Hok)) end.
  unfold set_store. cbn [cs_store cs_next cs_cli cs_help_shorthand cs_help_usage cs_env_vars cs_flag_sets].
  by rewrite insert_insert_eq.
Qed.

Section Flags.
Variables (t : CliState) (root ucmd : Command) (u : nat).
Let c0 := cli_c (cs_cli t).
Hypotheses (Hroot : cs_store t !! c0 = Some root) (Hpf : c_pflags root = empty_flags)
           (Hu : cli_uninstallCmd (cs_cli t) = Some u) (Hu0 : u <> c0)
           (Hucmd : cs_store t !! u = Some ucmd) (Hlf : c_flags ucmd = empty_flags)
           (Hok : flags_ok (root_pflags (cs_flag_sets t))).

Lemma initOtherFlags_ok :
  exists t', initOtherFlags t = Ok (tt, t') /\
  cs_cli t' = cs_cli t /\ cs_help_shorthand t' = "?" /\ cs_help_usage t' = "Help for %s" /\
  cs_env_vars t' = cs_env_vars t /\ cs_flag_sets t' = cs_flag_sets t /\
  cs_store t' !! c0 = Some (mkCommand (c_use root) (c_short root) (c_run root) (c_flags root)
                             (mkFlagSet (root_pflags (cs_flag_sets t))) (c_parent root) (c_children root)) /\
  cs_store t' !! u = Some (mkCommand (c_use ucmd) (c_short ucmd) (c_run ucmd) (mkFlagSet [package_flag])
                            (c_pflags ucmd) (c_parent ucmd) (c_children ucmd)) /\
  (forall p, p <> c0 -> p <> u -> cs_store t' !! p = cs_store t !! p).
Proof.
  rewrite (initOtherFlags_body t root Hroot Hpf Hok). eexists. split.
  - cstep. rewrite Hu. cstep.
    match goal with |- update_flags ?p true ?f ?s = _ =>
      rewrite (update_flags_ok p true f ucmd (mkFlagSet [package_flag]) s
                 ltac:(cs_simpl; rewrite !lookup_insert_ne by (unfold c0 in *; congruence); exact Hucmd)
                 ltac:(simpl; rewrite Hlf; reflexivity)) end.
    reflexivity.
  - cs_simpl. split_and!; try reflexivity.
    + rewrite lookup_insert_ne by (unfold c0 in *; congruence). by rewrite lookup_insert_eq.
    + by rewrite lookup_insert_eq.
    + intros p Hp Hpu. rewrite lookup_insert_ne by congruence.
      rewrite !lookup_insert_ne by (unfold c0 in *; congruence). reflexivity.
Qed.

End Flags.

(** A process whose CLI has a fresh root command: no sub-command and no
    persistent flag yet, every pointer below the allocation counter. *)
Definition cli_ready (s : CliState) : Prop :=
  (forall p, p ∈ dom (cs_store s) -> p < cs_next s) /\
  exists root, cs_store s !! cli_c (cs_cli s) = Some root /\
               c_pflags root = empty_flags /\ c_children root = [].

Lemma init_spec (s : CliState) :
  cli_ready s -> flags_ok (root_pflags (cs_flag_sets s)) ->
  exists s', initOtherCmdsAndFlags s = Ok (tt, s') /\
  let n := cs_next s in let c0 := cli_c (cs_cli s) in
  cs_cli s' = mkCLI c0 (Some n) (Some (S n)) (Some (S (S n))) (Some (S (S (S n)))) /\
  cs_help_shorthand s' = "?" /\ cs_help_usage s' = "Help for %s" /\
  cs_env_vars s' = cs_env_vars s /\
  (exists r, cs_store s' !! c0 = Some r /\ c_children r = [n; S n; S (S n); S (S (S n))] /\
             c_pflags r = mkFlagSet (root_pflags (cs_flag_sets s))) /\
  cs_store s' !! n = Some (version_cmd c0) /\
  cs_store s' !! S n = Some (env_cmd c0) /\
  cs_store s' !! S (S n) = Some (install_cmd c0) /\
  cs_store s' !! S (S (S n)) = Some (uninstall_cmd c0 (mkFlagSet [package_flag])) /\
  (forall p, p <> c0 -> p < n -> cs_store s' !! p = cs_store s !! p).
Proof.
  intros [Hfresh (root & Hroot & Hpf & Hch)] Hok.
  pose proof (root_below_next s root Hfresh Hroot) as Hlt.
  destruct (initOtherCmds_ok s root Hfresh Hroot)
    as (s1 & H1 & Hcli1 & Hnext1 & Hsh1 & Hus1 & Hev1 & Hfs1 & Hr1 & Hv1 & He1 & Hi1 & Hu1 & Hframe1).
  assert (Hroot1 : cs_store s1 !! cli_c (cs_cli s1) = Some (mkCommand (c_use root) (c_short root)
            (c_run root) (c_flags root) (c_pflags root) (c_parent root)
            (c_children root ++ [cs_next s; S (cs_next s); S (S (cs_next s)); S (S (S (cs_next s)))])))
    by (rewrite Hcli1; exact Hr1).
  destruct (initOtherFlags_ok s1 _ (uninstall_cmd (cli_c (cs_cli s)) empty_flags)
              (S (S (S (cs_next s)))) Hroot1 Hpf ltac:(by rewrite Hcli1)
              ltac:(rewrite Hcli1; simpl; lia) Hu1 eq_refl ltac:(by rewrite Hfs1))
    as (s2 & H2 & Hcli2 & Hsh2 & Hus2 & Hev2 & Hfs2 & Hr2 & Hu2 & Hothers).
  exists s2. split; [unfold initOtherCmdsAndFlags; by rewrite (cm_bind_ok _ _ _ _ _ H1)|].
  rewrite Hcli1 in Hcli2, Hr2, Hothers. simpl in Hr2, Hothers.
  split_and!; try congruence.
  - exists (mkCommand (c_use root) (c_short root) (c_run root) (c_flags root)
              (mkFlagSet (root_pflags (cs_flag_sets s1))) (c_parent root)
              (c_children root ++ [cs_next s; S (cs_next s); S (S (cs_next s)); S (S (S (cs_next s)))])).
    split_and!; [exact Hr2|by rewrite Hch|by rewrite Hfs1].
  - rewrite Hothers by lia. exact Hv1.
  - rewrite Hothers by lia. exact He1.
  - rewrite Hothers by lia. exact Hi1.
  - exact Hu2.
  - intros p Hp Hpn. rewrite Hothers by lia. by apply Hframe1.
Qed.

(** C7: from a fresh root command, and configuration flag sets whose
    flags clash neither with each other nor with [--config]/[-c] and
    [--verbose]/[-v], [initOtherCmdsAndFlags] returns without a panic;
    the CLI's four pointers name the root's four new children [version],
    [env], [install], [uninstall] in that order; the root carries the
    persistent flags [config], [verbose] and the configuration's; the
    [uninstall] child, reached through the root, carries the [package]
    flag set through [c.uninstallCmd]; cobra's help shorthand is "?". *)
Theorem initOtherCmdsAndFlags_tree (s : CliState) :
  cli_ready s -> flags_ok (root_pflags (cs_flag_sets s)) ->
  exists s', initOtherCmdsAndFlags s = Ok (tt, s') /\
  let n := cs_next s in let c0 := cli_c (cs_cli s) in
  cs_cli s' = mkCLI c0 (Some n) (Some (S n)) (Some (S (S n))) (Some (S (S (S n)))) /\
  cs_help_shorthand s' = "?" /\ cs_help_usage s' = "Help for %s" /\
  cs_env_vars s' = cs_env_vars s /\
  (exists r, cs_store s' !! c0 = Some r /\ c_children r = [n; S n; S (S n); S (S (S n))] /\
             c_pflags r = mkFlagSet (root_pflags (cs_flag_sets s))) /\
  cs_store s' !! n = Some (version_cmd c0) /\
  cs_store s' !! S n = Some (env_cmd c0) /\
  cs_store s' !! S (S n) = Some (install_cmd c0) /\
  cs_store s' !! S (S (S n)) = Some (uninstall_cmd c0 (mkFlagSet [package_flag])).
Proof.
  intros Hr Hok. destruct (init_spec s Hr Hok) as (s' & H & Hs). exists s'. split; [exact H|].
  cbv zeta in *. tauto.
Qed.

(** The children [initOtherCmds] gives the root [c0], in order. *)
Definition init_children (c0 : nat) : list Command :=
  [version_cmd c0; env_cmd c0; install_cmd c0; uninstall_cmd c0 (mkFlagSet [package_flag])].

(** Dispatch on the tree [initOtherCmdsAndFlags] builds: the first
    argument picks a child of the root by name, the rest is parsed
    against the child's flags and the root's persistent ones. *)
Lemma Execute_init (s : CliState) :
  cli_ready s -> flags_ok (root_pflags (cs_flag_sets s)) ->
  exists s', initOtherCmdsAndFlags s = Ok (tt, s') /\ cs_env_vars s' = cs_env_vars s /\
  forall name rest, dispatch (name :: rest) s' =
    cmd ← find (fun c => String.eqb (c_use c) name) (init_children (cli_c (cs_cli s)));
    run ← c_run cmd;
    flags ← parse_flags (mkFlagSet (formal (c_flags cmd) ++ formal (c_pflags cmd)
                                    ++ root_pflags (cs_flag_sets s))) rest;
    Some (run, flags).
Proof.
  intros Hready Hok.
  destruct (init_spec s Hready Hok)
    as (s' & Hinit & Hcli & _ & _ & Hev & (r & Hr & Hch & Hpf) & Hv & He & Hi & Hu & _).
  exists s'. split_and!; [done|done|]. intros name rest.
  unfold dispatch, find_child. rewrite Hcli. cbn [cli_c]. rewrite Hr. simpl.
  rewrite Hch. simpl. rewrite Hv, He, Hi, Hu. simpl. by rewrite Hpf.
Qed.

(** C25: start-up touches no other command: every command stored
    before [initOtherCmdsAndFlags], the root apart, is stored unchanged
    after it, and each of the four command pointers of the [CLI] struct
    names a command allocated by it, at a pointer that was free. *)
Theorem initOtherCmdsAndFlags_frame (s : CliState) :
  cli_ready s -> flags_ok (root_pflags (cs_flag_sets s)) ->
  exists s', initOtherCmdsAndFlags s = Ok (tt, s') /\
  (forall p c, p <> cli_c (cs_cli s) -> cs_store s !! p = Some c -> cs_store s' !! p = Some c) /\
  (forall q, q ∈ [cli_versionCmd (cs_cli s'); cli_envCmd (cs_cli s'); cli_installCmd (cs_cli s');
                  cli_uninstallCmd (cs_cli s')] ->
     exists x, q = Some x /\ cs_store s !! x = None /\ is_Some (cs_store s' !! x)).
Proof.
  intros Hready Hok. pose proof (proj1 Hready) as Hfresh.
  destruct (init_spec s Hready Hok)
    as (s' & Hinit & Hcli & _ & _ & _ & _ & Hv & He & Hi & Hu & Hframe).
  assert (Hnew : forall x, cs_next s <= x -> cs_store s !! x = None).
  { intros x Hx. destruct (cs_store s !! x) eqn:E; [|done].
    apply elem_of_dom_2, Hfresh in E. lia. }
  exists s'. split_and!; [done| |].
  - intros p c Hp Hc. rewrite Hframe; [done|done|]. apply Hfresh. by eapply elem_of_dom_2.
  - rewrite Hcli. simpl. intros q Hq. rewrite !elem_of_cons, elem_of_nil in Hq.
    destruct Hq as [->|[->|[->|[->|[]]]]]; eexists; (split; [reflexivity|split; [apply Hnew; lia|]]);
      [rewrite Hv|rewrite He|rewrite Hi|rewrite Hu]; by eexists.
Qed.

(** C8: after [initOtherCmdsAndFlags], [polly uninstall --package] calls
    [uninstall(true)], [polly uninstall] calls [uninstall(false)],
    [polly version] prints the version, [polly install] installs, and
    [polly env] prints each environment variable of the configuration. *)
Theorem Execute_after_init (s : CliState) :
  cli_ready s -> flags_ok (root_pflags (cs_flag_sets s)) ->
  exists s', initOtherCmdsAndFlags s = Ok (tt, s') /\
  Execute ["uninstall"; "--package"] s' = Some [Uninstall true] /\
  Execute ["uninstall"] s' = Some [Uninstall false] /\
  Execute ["version"] s' = Some [PrintVersion] /\
  Execute ["install"] s' = Some [Install] /\
  Execute ["env"] s' = Some (Println <$> cs_env_vars s).
Proof.
  intros Hready Hok. destruct (Execute_init s Hready Hok) as (s' & Hinit & Hev & Hex).
  exists s'. split; [done|]. unfold Execute. rewrite !Hex. simpl. rewrite Hev. split_and!; reflexivity.
Qed.

(** C16: [initOtherFlags] dereferences [c.uninstallCmd]: run before
    [initOtherCmds] has set it, it panics with a nil pointer, so the order
    of the two calls in [initOtherCmdsAndFlags] is required. *)
Theorem initOtherFlags_before_cmds (s : CliState) :
  cli_ready s -> flags_ok (root_pflags (cs_flag_sets s)) -> cli_uninstallCmd (cs_cli s) = None ->
  initOtherFlags s = Err NilPointer.
Proof.
  intros [_ (root & Hroot & Hpf & _)] Hok Hnil.
  rewrite (initOtherFlags_body s root Hroot Hpf Hok). cstep. rewrite Hnil. reflexivity.
Qed.

(** Adding one configured flag after [--config] and [--verbose]: no
    panic exactly when its name is one of theirs (pflag then skips it) or
    its shorthand is at most one character and neither [c] nor [v]. *)
Lemma add_one_flag (f : Flag) :
  is_ok (AddFlagSet (mkFlagSet [config_flag; verbose_flag]) (mkFlagSet [f])) = true <->
  f_name f = "config" \/ f_name f = "verbose" \/
  (String.length (f_shorthand f) <= 1 /\ f_shorthand f <> "c" /\ f_shorthand f <> "v").
Proof.
  unfold AddFlagSet. rewrite sorted_flags_singleton. cbn [add_flags formal].
  destruct (Lookup (mkFlagSet [config_flag; verbose_flag]) (f_name f)) eqn:L.
  - split; [intros _|done].
    destruct (decide (f_name f = "config")); [auto|]. destruct (decide (f_name f = "verbose")); [auto|].
    exfalso. rewrite (proj2 (Lookup_None_iff (mkFlagSet [config_flag; verbose_flag]) _)) in L; [discriminate|].
    cbn. rewrite !not_elem_of_cons. split_and!; [done|done|apply not_elem_of_nil].
  - apply Lookup_None_iff in L. cbn in L. rewrite !not_elem_of_cons in L.
    assert (E : forall r : result FlagSet Panic, is_ok (bind r (fun x => Ok x)) = is_ok r)
      by (by intros []).
    rewrite E, AddFlag_is_ok. cbn. rewrite !not_elem_of_cons.
    split.
    + intros (_ & Hl & [Hs|(Hc & Hv & _)]); right; right; [rewrite Hs; split_and!; [simpl; lia|discriminate|discriminate]|done].
    + pose proof (not_elem_of_nil (f_shorthand f)). pose proof (not_elem_of_nil (f_name f)).
      naive_solver.
Qed.

(** With one configured flag set, [initOtherCmdsAndFlags] panics
    exactly when adding that set to [--config] and [--verbose] does. *)
Lemma init_one_set (s : CliState) (fs : FlagSet) :
  cli_ready s -> cs_flag_sets s = [fs] ->
  match AddFlagSet (mkFlagSet [config_flag; verbose_flag]) fs with
  | Ok _ => exists s', initOtherCmdsAndFlags s = Ok (tt, s')
  | Err e => initOtherCmdsAndFlags s = Err e
  end.
Proof.
  intros [Hfresh (root & Hroot & Hpf & _)] Hfs.
  pose proof (root_below_next s root Hfresh Hroot) as Hlt.
  destruct (initOtherCmds_ok s root Hfresh Hroot)
    as (s1 & H1 & Hcli1 & _ & _ & _ & _ & Hfs1 & Hr1 & _ & _ & _ & Hu1 & _).
  unfold initOtherCmdsAndFlags. rewrite (cm_bind_ok _ _ _ _ _ H1).
  assert (Hr1' : cs_store s1 !! cli_c (cs_cli s1) = Some (mkCommand (c_use root) (c_short root)
            (c_run root) (c_flags root) (c_pflags root) (c_parent root)
            (c_children root ++ [cs_next s; S (cs_next s); S (S (cs_next s)); S (S (S (cs_next s)))])))
    by (rewrite Hcli1; exact Hr1).
  rewrite (initOtherFlags_head s1 _ Hr1' Hpf). rewrite Hcli1. cs_simpl.
  rewrite Hfs1, Hfs. cbn [add_flag_sets].
  destruct (AddFlagSet (mkFlagSet [config_flag; verbose_flag]) fs) as [fs'|e] eqn:E3.
  - eexists. match goal with |- context [ (mbind ?k (update_flags ?p false ?f ≫= ?k2)) ?s ] =>
      rewrite (cm_bind_ok _ k s _ _ (cm_bind_ok _ k2 s _ _ (update_flags_ok p false f _ fs' s (lookup_insert_eq _ _ _) E3))) end.
    cs_simpl. do 2 cstep.
    match goal with |- update_flags ?p true ?f ?s = _ =>
      rewrite (update_flags_ok p true f (uninstall_cmd (cli_c (cs_cli s)) empty_flags) (mkFlagSet [package_flag]) s) end;
      [reflexivity| |reflexivity].
    cs_simpl. rewrite !lookup_insert_ne by lia. exact Hu1.
  - match goal with |- context [ (?X ≫= ?k) ?s ] =>
      rewrite (cm_bind_err X k s _ (cm_bind_err _ _ s _
                 (update_flags_err _ false _ _ _ s (lookup_insert_eq _ _ _) E3))) end.
    reflexivity.
Qed.

(** C17: a configuration flag with a new name and the shorthand [v] of
    [--verbose] makes [initOtherCmdsAndFlags] panic with pflag's
    "shorthand reused". *)
Theorem init_shorthand_reused (s : CliState) (nm us : string) (val : FlagValue) :
  cli_ready s -> cs_flag_sets s = [mkFlagSet [mkFlag nm "v" val us]] ->
  nm <> "config" -> nm <> "verbose" ->
  initOtherCmdsAndFlags s = Err (ShorthandReused "v").
Proof.
  intros Hr Hfs Hc Hv. pose proof (init_one_set s _ Hr Hfs) as H.
  assert (E3 : AddFlagSet (mkFlagSet [config_flag; verbose_flag]) (mkFlagSet [mkFlag nm "v" val us])
               = Err (ShorthandReused "v")).
  { assert (L : Lookup (mkFlagSet [config_flag; verbose_flag]) nm = None).
    { apply Lookup_None. simpl. rewrite !not_elem_of_cons.
      split_and!; [done|done|apply not_elem_of_nil]. }
    unfold AddFlagSet. rewrite sorted_flags_singleton. unfold add_flags. cbn [formal f_name]. rewrite L. unfold AddFlag. cbn [f_name]. rewrite L.
    reflexivity. }
  by rewrite E3 in H.
Qed.

(** C14: [--package] is a local flag of [uninstall]: after
    [initOtherCmdsAndFlags], [version], [env] and [install] refuse
    [--package] as an unknown flag (unless the configuration defines a
    persistent [package] flag), [uninstall --package] calls
    [uninstall(true)], and the persistent [--verbose] and [--config=x]
    are accepted by every sub-command and change nothing it does. *)
Theorem package_flag_local (s : CliState) :
  cli_ready s -> flags_ok (root_pflags (cs_flag_sets s)) ->
  "package" ∉ f_name <$> root_pflags (cs_flag_sets s) ->
  exists s', initOtherCmdsAndFlags s = Ok (tt, s') /\
  (forall name, name ∈ ["version"; "env"; "install"] -> Execute [name; "--package"] s' = None) /\
  Execute ["uninstall"; "--package"] s' = Some [Uninstall true] /\
  (forall name x, name ∈ ["version"; "env"; "install"; "uninstall"] ->
     Execute [name; "--verbose"; "--config=" +:+ x] s' = Execute [name] s').
Proof.
  intros Hready Hok Hpkg. destruct (Execute_init s Hready Hok) as (s' & Hinit & Hev & Hex).
  assert (L : Lookup (mkFlagSet (root_pflags (cs_flag_sets s))) "package" = None)
    by (apply Lookup_None; exact Hpkg).
  exists s'. split_and!; [done| | |].
  - intros name Hn. rewrite !elem_of_cons, elem_of_nil in Hn. unfold Execute.
    destruct Hn as [->|[->|[->|[]]]]; rewrite Hex; cbn -[root_pflags Lookup]; by rewrite L.
  - unfold Execute. rewrite Hex. reflexivity.
  - intros name x Hn. rewrite !elem_of_cons, elem_of_nil in Hn. unfold Execute.
    destruct Hn as [->|[->|[->|[->|[]]]]]; rewrite !Hex; reflexivity.
Qed.

(** C23: the kinds of the flags [initOtherFlags] defines, seen on the
    command line after [initOtherCmdsAndFlags], for each of the four
    sub-commands: [--config]/[-c] is a string flag ([StringVarP]), so
    it takes the next argument, whatever it is, as its value and is
    refused without one; [--verbose]/[-v] is a bool flag ([BoolP]):
    given alone it is [true] and does not take the next argument, and a
    value [strconv.ParseBool] refuses is an error.  [uninstall]'s
    [--package] ([Bool]) takes the value [strconv.ParseBool] gives its
    text, and is an error where it gives none. *)
Theorem Execute_flag_kinds (s : CliState) :
  cli_ready s -> flags_ok (root_pflags (cs_flag_sets s)) ->
  exists s', initOtherCmdsAndFlags s = Ok (tt, s') /\
  (forall name, name ∈ ["version"; "env"; "install"; "uninstall"] ->
     (forall x, Execute_cfgFile [name; "--config"; x] s' = Some x) /\
     Execute [name; "--config"] s' = None /\
     (exists run flags, dispatch [name; "-v"] s' = Some (run, flags) /\ GetBool flags "verbose" = true) /\
     (forall x, Execute_cfgFile [name; "-v"; "-c"; x] s' = Some x) /\
     (forall t, ParseBool t = None -> Execute [name; "--verbose=" +:+ t] s' = None)) /\
  (forall t, ParseBool t = None -> Execute ["uninstall"; "--package=" +:+ t] s' = None) /\
  (forall t b, ParseBool t = Some b -> Execute ["uninstall"; "--package=" +:+ t] s' = Some [Uninstall b]).
Proof.
  intros Hready Hok. destruct (Execute_init s Hready Hok) as (s' & Hinit & Hev & Hex).
  exists s'. split_and!; [done| | |].
  - intros name Hn. rewrite !elem_of_cons, elem_of_nil in Hn.
    destruct Hn as [->|[->|[->|[->|[]]]]];
      (split_and!;
        [ intros x; unfold Execute_cfgFile; rewrite Hex; reflexivity
        | unfold Execute; rewrite Hex; reflexivity
        | do 2 eexists; rewrite Hex; split; reflexivity
        | intros x; unfold Execute_cfgFile; rewrite Hex; reflexivity
        | intros t Ht; unfold Execute; rewrite Hex, !string_app_cons, string_app_nil_l; cbn -[ParseBool]; by rewrite Ht ]).
  - intros t Ht. unfold Execute. rewrite Hex, !string_app_cons, string_app_nil_l. cbn -[ParseBool]. by rewrite Ht.
  - intros t b Ht. unfold Execute. rewrite Hex, !string_app_cons, string_app_nil_l. cbn -[ParseBool]. by rewrite Ht.
Qed.

(** [--package=true] or [--package=false], for each boolean. *)
Definition package_args (bs : list bool) : list string :=
  (fun b : bool => "--package=" +:+ (if b then "true" else "false")) <$> bs.

(** Setting the [package] flag to [b] on every flag of that name. *)
Definition set_package (b : bool) (g : Flag) : Flag :=
  if String.eqb (f_name g) "package" then mkFlag (f_name g) (f_shorthand g) (FBool b) (f_usage g) else g.

(** On a flag set whose first flag is a bool [package] without
    shorthand, one [--package=b] sets it to [b]. *)
Lemma parse_package_step (b0 b : bool) (u : string) (tail : list Flag) (rest : list string) :
  parse_flags (mkFlagSet (mkFlag "package" "" (FBool b0) u :: tail))
    (("--package=" +:+ (if b then "true" else "false")) :: rest)
  = parse_flags (mkFlagSet (mkFlag "package" "" (FBool b) u :: (set_package b <$> tail))) rest.
Proof. destruct b, rest; reflexivity. Qed.

(** So, over any sequence of them, the last one wins. *)
Lemma parse_package_args (b0 : bool) (u : string) (tail : list Flag) (bs : list bool) :
  exists tail', parse_flags (mkFlagSet (mkFlag "package" "" (FBool b0) u :: tail)) (package_args bs)
              = Some (mkFlagSet (mkFlag "package" "" (FBool (List.last bs b0)) u :: tail')).
Proof.
  revert b0 tail. induction bs as [|b bs IH]; intros b0 tail; [by exists tail|].
  rewrite last_cons_default. unfold package_args. rewrite fmap_cons, parse_package_step. apply IH.
Qed.

(** C24: the order of [--package] flags on the command line: after
    [initOtherCmdsAndFlags], [polly uninstall] followed by any sequence
    of [--package=true] and [--package=false] calls
    [uninstall(pkgManager)] with the last one given, and with [false],
    the flag's default, when there is none. *)
Theorem uninstall_package_last_wins (s : CliState) :
  cli_ready s -> flags_ok (root_pflags (cs_flag_sets s)) ->
  exists s', initOtherCmdsAndFlags s = Ok (tt, s') /\
  forall bs, Execute ("uninstall" :: package_args bs) s' = Some [Uninstall (List.last bs false)].
Proof.
  intros Hready Hok. destruct (Execute_init s Hready Hok) as (s' & Hinit & _ & Hex).
  exists s'. split; [done|]. intros bs. unfold Execute. rewrite Hex. simpl.
  destruct (parse_package_args false
              "A flag indicating a package manager is performing the uninstallation"
              (root_pflags (cs_flag_sets s)) bs) as [tail' Ht].
  unfold package_flag. rewrite Ht. reflexivity.
Qed.

(** C26: [--config] round-trips into [c.cfgFile]: after
    [initOtherCmdsAndFlags], for each of the four sub-commands and every
    text [x], [--config=x] and [-c x] leave [c.cfgFile] equal to [x],
    and without the flag it keeps [StringVarP]'s default "". *)
Theorem cfgFile_roundtrip (s : CliState) :
  cli_ready s -> flags_ok (root_pflags (cs_flag_sets s)) ->
  exists s', initOtherCmdsAndFlags s = Ok (tt, s') /\
  forall name x, name ∈ ["version"; "env"; "install"; "uninstall"] ->
    Execute_cfgFile [name; "--config=" +:+ x] s' = Some x /\
    Execute_cfgFile [name; "-c"; x] s' = Some x /\
    Execute_cfgFile [name] s' = Some "".
Proof.
  intros Hready Hok. destruct (Execute_init s Hready Hok) as (s' & Hinit & _ & Hex).
  exists s'. split; [done|]. intros name x Hname. unfold Execute_cfgFile. rewrite !Hex.
  rewrite !elem_of_cons, elem_of_nil in Hname.
  destruct Hname as [->|[->|[->|[->|[]]]]]; split_and!; reflexivity.
Qed.

(** C18: [initOtherFlags] is not idempotent: run again on the CLI that
    [initOtherCmdsAndFlags] built, it panics with pflag's "flag
    redefined: config". *)
Theorem initOtherFlags_twice (s : CliState) :
  cli_ready s -> flags_ok (root_pflags (cs_flag_sets s)) ->
  exists s', initOtherCmdsAndFlags s = Ok (tt, s') /\
             initOtherFlags s' = Err (FlagRedefined "config").
Proof.
  intros Hready Hok.
  destruct (init_spec s Hready Hok) as (s' & Hinit & Hcli & _ & _ & _ & (r & Hr & _ & Hpf) & _).
  exists s'. split; [done|].
  unfold initOtherFlags. do 2 cstep. rewrite Hcli. cbn [cli_c].
  match goal with |- (update_flags ?p false ?f ≫= ?k) ?t = _ =>
    exact (cm_bind_err _ k t _ (update_flags_err p false f r _ t Hr ltac:(rewrite Hpf; reflexivity))) end.
Qed.

(** ** No dangling pointer in the command tree

    Every child and parent pointer of a stored command names a stored
    command, and the allocation counter is above every stored pointer.
    Each primitive of [CM] keeps this, so every composition does. *)

Definition cmd_closed (D : gset nat) (c : Command) : Prop :=
  Forall (fun ch => ch ∈ D) (c_children c) /\
  match c_parent c with Some q => q ∈ D | None => True end.

#[global] Instance cmd_closed_dec (D : gset nat) (c : Command) : Decision (cmd_closed D c).
Proof. unfold cmd_closed. destruct (c_parent c); apply _. Defined.

Definition store_inv (s : CliState) : Prop :=
  set_Forall (fun p => p < cs_next s) (dom (cs_store s)) /\
  map_Forall (fun _ c => cmd_closed (dom (cs_store s)) c) (cs_store s).

#[global] Instance store_inv_dec (s : CliState) : Decision (store_inv s).
Proof. unfold store_inv. apply _. Defined.

Lemma cmd_closed_mono (D D' : gset nat) (c : Command) :
  D ⊆ D' -> cmd_closed D c -> cmd_closed D' c.
Proof.
  intros HD [Hch Hp]. split.
  - eapply Forall_impl; [exact Hch|]. intros ch Hin. by apply HD.
  - destruct (c_parent c); [by apply HD|done].
Qed.

(** Storing a closed command at an allocated pointer. *)
Lemma store_inv_insert (s : CliState) (p : nat) (c : Command) :
  store_inv s -> p ∈ dom (cs_store s) -> cmd_closed (dom (cs_store s)) c ->
  store_inv (set_store (<[p := c]> (cs_store s)) s).
Proof.
  intros [Hn Hc] Hp Hcl. apply elem_of_dom in Hp as [c0 Hp]. unfold store_inv, set_store. simpl.
  rewrite (dom_insert_lookup_L _ _ _ (mk_is_Some _ _ Hp)). split; [done|].
  by apply map_Forall_insert_2.
Qed.

(** [preserves I m]: whenever [m] returns, it returns a state where [I]
    holds if [I] held before. *)
Definition preserves (I : CliState -> Prop) {A} (m : CM A) : Prop :=
  forall s a s', I s -> m s = Ok (a, s') -> I s'.

(** Invariants that read only the command store and the allocation
    counter, and those that also read the [CLI] struct's pointers. *)
Class StoreOnly (I : CliState -> Prop) :=
  store_only : forall s s', cs_store s' = cs_store s -> cs_next s' = cs_next s -> I s -> I s'.
Class Framed (I : CliState -> Prop) :=
  framed : forall s s', cs_store s' = cs_store s -> cs_next s' = cs_next s ->
                        cs_cli s' = cs_cli s -> I s -> I s'.

#[global] Instance store_only_framed (I : CliState -> Prop) `{!StoreOnly I} : Framed I.
Proof. intros s s' Hs Hn _. by apply store_only. Qed.

#[global] Instance store_inv_store_only : StoreOnly store_inv.
Proof. intros s s' Hs Hn. unfold store_inv. by rewrite Hs, Hn. Qed.

Create HintDb cinv.

Section Preserves.
Context (I : CliState -> Prop).

Lemma preserves_bind {A B} (m : CM A) (k : A -> CM B) :
  preserves I m -> (forall a, preserves I (k a)) -> preserves I (m ≫= k).
Proof.
  intros Hm Hk s b s' Hs H. unfold mbind, CM_bind in H.
  destruct (m s) as [[a s1]|] eqn:E; [|discriminate]. eapply Hk; [|exact H]. by eapply Hm.
Qed.

(** Calls that leave the store, the counter and the [CLI] alone. *)
Lemma preserves_same `{!Framed I} {A} (m : CM A) :
  (forall s a s', m s = Ok (a, s') ->
     cs_store s' = cs_store s /\ cs_next s' = cs_next s /\ cs_cli s' = cs_cli s) ->
  preserves I m.
Proof. intros H s a s' Hs E. destruct (H _ _ _ E) as (? & ? & ?). by apply (framed s). Qed.

Ltac solve_same := intros ???; intros E; simplify_eq/=; auto.

Lemma preserves_ret `{!Framed I} {A} (a : A) : preserves I (mret a).
Proof. apply preserves_same. unfold mret, CM_ret. solve_same. Qed.
Lemma preserves_get_cli `{!Framed I} : preserves I get_cli.
Proof. apply preserves_same. unfold get_cli. solve_same. Qed.
Lemma preserves_deref `{!Framed I} (p : option nat) : preserves I (deref p).
Proof. apply preserves_same. unfold deref. destruct p; [unfold mret, CM_ret|unfold panic]; solve_same. Qed.
Lemma preserves_set_help_globals `{!Framed I} (sh usage : string) : preserves I (set_help_globals sh usage).
Proof. apply preserves_same. unfold set_help_globals. solve_same. Qed.
Lemma preserves_flag_sets `{!Framed I} : preserves I (fun s => Ok (cs_flag_sets s, s)).
Proof. apply preserves_same. solve_same. Qed.
Lemma preserves_set_cli `{!StoreOnly I} (c : CLI) : preserves I (set_cli c).
Proof. intros s a s' Hs E. unfold set_cli in E. simplify_eq/=. by apply (store_only s). Qed.

End Preserves.

#[local] Hint Resolve preserves_ret preserves_get_cli preserves_set_cli preserves_deref
  preserves_set_help_globals preserves_flag_sets : cinv.

Ltac solve_preserves :=
  repeat first [ solve [eauto with cinv typeclass_instances]
               | apply preserves_bind; [|intros ?] ].

(** What [AddCommand] and [update_flags] do when they return. *)
Lemma AddCommand_inv (parent child : nat) (s s' : CliState) (a : unit) :
  AddCommand parent child s = Ok (a, s') ->
  exists ch pa, parent <> child /\ cs_store s !! child = Some ch /\ cs_store s !! parent = Some pa /\
  s' = set_store (<[parent := mkCommand (c_use pa) (c_short pa) (c_run pa) (c_flags pa)
                                (c_pflags pa) (c_parent pa) (c_children pa ++ [child])]>
                  (<[child := mkCommand (c_use ch) (c_short ch) (c_run ch) (c_flags ch)
                               (c_pflags ch) (Some parent) (c_children ch)]> (cs_store s))) s.
Proof.
  intros E. unfold AddCommand in E. case_decide as Hne; [discriminate|].
  unfold mbind, CM_bind, load, store in E. simpl in E.
  destruct (cs_store s !! child) as [ch|] eqn:Hch; [|discriminate]. simpl in E.
  rewrite lookup_insert_ne in E by congruence.
  destruct (cs_store s !! parent) as [pa|] eqn:Hpa; [|discriminate]. simplify_eq/=.
  by exists ch, pa.
Qed.

Lemma update_flags_inv (p : nat) (local : bool) (f : FlagSet -> result FlagSet Panic)
  (s s' : CliState) (a : unit) :
  update_flags p local f s = Ok (a, s') ->
  exists c fs', cs_store s !! p = Some c /\ f (if local then c_flags c else c_pflags c) = Ok fs' /\
  s' = set_store (<[p := mkCommand (c_use c) (c_short c) (c_run c)
                           (if local then fs' else c_flags c) (if local then c_pflags c else fs')
                           (c_parent c) (c_children c)]> (cs_store s)) s.
Proof.
  unfold update_flags, mbind, CM_bind, load, lift_panic, store. simpl.
  destruct (cs_store s !! p) as [c|] eqn:Hp; [|discriminate]. simpl.
  destruct (f _) as [fs'|] eqn:Hf; [|discriminate]. intros E. simplify_eq/=. by exists c, fs'.
Qed.

(** A new command has no pointer yet. *)
Lemma preserves_alloc (use short : string) (run : RunFn) :
  preserves store_inv (alloc (new_command use short run)).
Proof.
  intros s a s' [Hn Hc] E. unfold alloc in E. simplify_eq/=. unfold store_inv. simpl.
  rewrite dom_insert_L. split.
  - apply set_Forall_union; [apply set_Forall_singleton; lia|].
    intros p Hp. specialize (Hn p Hp). simpl in Hn. lia.
  - apply map_Forall_insert_2; [split; [constructor|done]|].
    eapply map_Forall_impl; [exact Hc|]. intros i c. apply cmd_closed_mono. set_solver.
Qed.

(** [AddCommand] links two stored commands. *)
Lemma preserves_AddCommand (parent child : nat) : preserves store_inv (AddCommand parent child).
Proof.
  intros s a s' Hs E. apply AddCommand_inv in E as (ch & pa & Hne & Hch & Hpa & ->).
  pose proof Hs as [_ Hc].
  assert (Hpd : parent ∈ dom (cs_store s)) by (by apply elem_of_dom_2 in Hpa).
  assert (Hcd : child ∈ dom (cs_store s)) by (by apply elem_of_dom_2 in Hch).
  set (ch' := mkCommand (c_use ch) (c_short ch) (c_run ch) (c_flags ch) (c_pflags ch) (Some parent)
                (c_children ch)).
  set (pa' := mkCommand (c_use pa) (c_short pa) (c_run pa) (c_flags pa) (c_pflags pa)
                (c_parent pa) (c_children pa ++ [child])).
  assert (Hs1 : store_inv (set_store (<[child := ch']> (cs_store s)) s)).
  { apply store_inv_insert; [done|done|]. split; [exact (proj1 (Hc _ _ Hch))|exact Hpd]. }
  apply (store_inv_insert (set_store (<[child := ch']> (cs_store s)) s) parent pa' Hs1);
    simpl; rewrite (dom_insert_lookup_L _ _ _ (mk_is_Some _ _ Hch)); [exact Hpd|].
  destruct (Hc _ _ Hpa) as [Hpch Hpp]. split; [|exact Hpp].
  apply Forall_app; split; [exact Hpch|by constructor].
Qed.

(** A flag change keeps the command's pointers. *)
Lemma preserves_update_flags (p : nat) (local : bool) (f : FlagSet -> result FlagSet Panic) :
  preserves store_inv (update_flags p local f).
Proof.
  intros s a s' Hs E. apply update_flags_inv in E as (c & fs' & Hp & _ & ->).
  apply store_inv_insert; [done|by apply elem_of_dom_2 in Hp|].
  destruct (proj2 Hs _ _ Hp) as [Hch Hpar]. by split.
Qed.

#[local] Hint Resolve preserves_alloc preserves_AddCommand preserves_update_flags : cinv.

Lemma preserves_add_flag_sets (I : CliState -> Prop) (root : nat) (l : list FlagSet) :
  (forall fs, preserves I (update_flags root false (fun pf => AddFlagSet pf fs))) ->
  (forall a : unit, preserves I (mret a)) ->
  preserves I (add_flag_sets root l).
Proof.
  intros Hu Hr. induction l as [|fs l IH]; simpl; [apply Hr|].
  apply preserves_bind; [apply Hu|intros _; exact IH].
Qed.

#[local] Hint Resolve preserves_add_flag_sets : cinv.

(** ** Well-typed command trees

    Every flag set of every stored command is a well-formed pflag set
    (distinct names, one-character distinct shorthands), and each
    command pointer of the [CLI] struct names a stored command that runs
    its own closure: [c.versionCmd] prints the version, [c.envCmd] the
    environment, and so on. *)

Definition flags_inv (s : CliState) : Prop :=
  map_Forall (fun _ c => flags_ok (formal (c_flags c)) /\ flags_ok (formal (c_pflags c))) (cs_store s).

#[global] Instance RunFn_eq_dec : EqDecision RunFn.
Proof. solve_decision. Defined.

(** The pointer [p] names a stored command whose [Run] is [r]. *)
Definition runs_as (st : gmap nat Command) (p : option nat) (r : RunFn) : Prop :=
  (p ≫= fun x => st !! x ≫= c_run) = Some r.

Definition ptrs_typed (s : CliState) : Prop :=
  runs_as (cs_store s) (cli_versionCmd (cs_cli s)) RunVersion /\
  runs_as (cs_store s) (cli_envCmd (cs_cli s)) RunEnv /\
  runs_as (cs_store s) (cli_installCmd (cs_cli s)) RunInstall /\
  runs_as (cs_store s) (cli_uninstallCmd (cs_cli s)) RunUninstall.

Definition cli_typed (s : CliState) : Prop := flags_inv s /\ ptrs_typed s.

#[global] Instance flags_inv_dec (s : CliState) : Decision (flags_inv s).
Proof. unfold flags_inv. apply _. Defined.
#[global] Instance cli_typed_dec (s : CliState) : Decision (cli_typed s).
Proof. unfold cli_typed, ptrs_typed, runs_as. apply _. Defined.

#[global] Instance flags_inv_store_only : StoreOnly flags_inv.
Proof. intros s s' Hs _. unfold flags_inv. by rewrite Hs. Qed.
#[global] Instance ptrs_typed_framed : Framed ptrs_typed.
Proof. intros s s' Hs _ Hc. unfold ptrs_typed. by rewrite Hs, Hc. Qed.

(** A flag change that keeps well-formed sets well formed. *)
Definition keeps_flags_ok (f : FlagSet -> result FlagSet Panic) : Prop :=
  forall x y, flags_ok (formal x) -> f x = Ok y -> flags_ok (formal y).

Lemma keeps_flags_ok_AddFlag (fl : Flag) : keeps_flags_ok (fun pf => AddFlag pf fl).
Proof. intros x y. apply AddFlag_flags_ok. Qed.
Lemma keeps_flags_ok_AddFlagSet (fs : FlagSet) : keeps_flags_ok (fun pf => AddFlagSet pf fs).
Proof. intros x y. apply add_flags_flags_ok. Qed.

Lemma flags_inv_alloc (use short : string) (run : RunFn) :
  preserves flags_inv (alloc (new_command use short run)).
Proof.
  intros s a s' Hs E. unfold alloc in E. simplify_eq/=. unfold flags_inv. simpl.
  apply map_Forall_insert_2; [|done]. split; (split_and!; [constructor|constructor|constructor]).
Qed.

Lemma flags_inv_AddCommand (parent child : nat) : preserves flags_inv (AddCommand parent child).
Proof.
  intros s a s' Hs E. apply AddCommand_inv in E as (ch & pa & _ & Hch & Hpa & ->).
  unfold flags_inv, set_store. simpl.
  apply map_Forall_insert_2; [exact (Hs _ _ Hpa)|].
  apply map_Forall_insert_2; [exact (Hs _ _ Hch)|done].
Qed.

Lemma flags_inv_update_flags (p : nat) (local : bool) (f : FlagSet -> result FlagSet Panic) :
  keeps_flags_ok f -> preserves flags_inv (update_flags p local f).
Proof.
  intros Hf s a s' Hs E. apply update_flags_inv in E as (c & fs' & Hp & Hfs & ->).
  unfold flags_inv, set_store. simpl. apply map_Forall_insert_2; [|done].
  destruct (Hs _ _ Hp) as [Hl Hg]. destruct local; simpl; split; eauto.
Qed.

(** [AddCommand] and flag changes keep every command's [Run] closure
    and the [CLI] struct. *)
Lemma runs_as_insert (st : gmap nat Command) (p : nat) (c c' : Command) (q : option nat) (r : RunFn) :
  st !! p = Some c -> c_run c' = c_run c -> runs_as (<[p := c']> st) q r <-> runs_as st q r.
Proof.
  intros Hp Hr. unfold runs_as. destruct q as [x|]; simpl; [|done].
  destruct (decide (x = p)) as [->|Hne].
  - rewrite lookup_insert_eq, Hp. simpl. by rewrite Hr.
  - by rewrite lookup_insert_ne.
Qed.

Lemma ptrs_typed_AddCommand (parent child : nat) : preserves ptrs_typed (AddCommand parent child).
Proof.
  intros s a s' Hs E. apply AddCommand_inv in E as (ch & pa & Hne & Hch & Hpa & ->).
  unfold ptrs_typed in *. cbn [set_store cs_store cs_cli].
  rewrite !(runs_as_insert _ parent pa) by (rewrite ?lookup_insert_ne; auto).
  by rewrite !(runs_as_insert _ child ch).
Qed.

Lemma ptrs_typed_update_flags (p : nat) (local : bool) (f : FlagSet -> result FlagSet Panic) :
  preserves ptrs_typed (update_flags p local f).
Proof.
  intros s a s' Hs E. apply update_flags_inv in E as (c & fs' & Hp & _ & ->).
  unfold ptrs_typed in *. cbn [set_store cs_store cs_cli]. by rewrite !(runs_as_insert _ p c).
Qed.

#[local] Hint Resolve keeps_flags_ok_AddFlag keeps_flags_ok_AddFlagSet flags_inv_alloc
  flags_inv_AddCommand flags_inv_update_flags ptrs_typed_AddCommand ptrs_typed_update_flags : cinv.

(** [AddCommand] panics when the parent is the child or is not stored. *)
Lemma AddCommand_err (parent child : nat) (s : CliState) :
  parent = child \/ cs_store s !! parent = None -> exists p, AddCommand parent child s = Err p.
Proof.
  intros H. unfold AddCommand. case_decide as Heq; [eauto|]. destruct H as [|Hn]; [done|].
  unfold mbind, CM_bind, load, store. simpl.
  destruct (cs_store s !! child); simpl; [|eauto].
  rewrite lookup_insert_ne by congruence. rewrite Hn. eauto.
Qed.

(** Without a stored root command, [initOtherCmds] panics at its first
    [AddCommand]. *)
Lemma initOtherCmds_no_root (s : CliState) :
  cs_store s !! cli_c (cs_cli s) = None -> exists p, initOtherCmds s = Err p.
Proof.
  intros Hn. unfold initOtherCmds. do 5 cstep.
  match goal with |- exists _, (AddCommand ?p ?c ≫= ?k) ?t = _ =>
    destruct (AddCommand_err p c t) as [e He]; [|exists e; exact (cm_bind_err _ k t e He)] end.
  destruct (decide (cli_c (cs_cli s) = cs_next s)) as [|Hne]; [by left|right].
  cs_simpl. by rewrite lookup_insert_ne by congruence.
Qed.

(** C19: the bound pflag puts on shorthands, through
    [initOtherCmdsAndFlags]: with one configured flag, start-up returns
    without a panic exactly when the flag's name is [config] or
    [verbose] (pflag then drops the configured flag silently) or its
    shorthand has at most one character and is neither [c] nor [v]. *)
Theorem init_config_flag_shorthand (s : CliState) (f : Flag) :
  cli_ready s -> cs_flag_sets s = [mkFlagSet [f]] ->
  is_ok (initOtherCmdsAndFlags s) = true <->
  f_name f = "config" \/ f_name f = "verbose" \/
  (String.length (f_shorthand f) <= 1 /\ f_shorthand f <> "c" /\ f_shorthand f <> "v").
Proof.
  intros Hr Hfs. pose proof (init_one_set s _ Hr Hfs) as H. rewrite <- add_one_flag.
  destruct (AddFlagSet _ _); [by destruct H as (? & ->)|by rewrite H].
Qed.

(** C22: [initOtherCmdsAndFlags] builds a well-typed command tree:
    whenever it returns from a process without dangling pointers whose
    flag sets are well formed, every flag set of every command is a
    well-formed pflag set (distinct names, distinct one-character
    shorthands), and [c.versionCmd], [c.envCmd], [c.installCmd] and
    [c.uninstallCmd] each point to a stored command whose [Run] is the
    closure of that command, whatever the [CLI] pointers held before. *)
Theorem initOtherCmdsAndFlags_typed (s s' : CliState) :
  store_inv s -> flags_inv s -> initOtherCmdsAndFlags s = Ok (tt, s') -> cli_typed s'.
Proof.
  intros Hs Hf E. split.
  { assert (H : preserves flags_inv initOtherCmdsAndFlags).
    { unfold initOtherCmdsAndFlags, initOtherCmds, initOtherFlags. solve_preserves. }
    exact (H _ _ _ Hf E). }
  unfold initOtherCmdsAndFlags in E.
  destruct (cs_store s !! cli_c (cs_cli s)) as [root|] eqn:Hroot.
  - destruct (initOtherCmds_ok s root (proj1 Hs) Hroot)
      as (s1 & H1 & Hcli1 & _ & _ & _ & _ & _ & _ & Hv & He & Hi & Hu & _).
    rewrite (cm_bind_ok _ _ _ _ _ H1) in E.
    assert (Ht1 : ptrs_typed s1)
      by (unfold ptrs_typed, runs_as; rewrite Hcli1; simpl; by rewrite Hv, He, Hi, Hu).
    assert (H : preserves ptrs_typed initOtherFlags) by (unfold initOtherFlags; solve_preserves).
    exact (H _ _ _ Ht1 E).
  - destruct (initOtherCmds_no_root s Hroot) as [p Hp].
    by rewrite (cm_bind_err _ _ _ _ Hp) in E.
Qed.

(** ** The command table [cmds_other.go] promises

    What a user sees of the four commands, without pointers or a command
    tree: each name runs its closure on the flags it accepts, the
    persistent [--config], [--verbose] and configured flags for all, and
    [--package] for [uninstall] only. *)
Definition cli_table (env : list string) (fss : list FlagSet) (args : list string)
  : option (list Effect) :=
  match args with
  | [] => None
  | name :: rest =>
      if String.eqb "version" name then
        _ ← parse_flags (mkFlagSet (root_pflags fss)) rest; Some [PrintVersion]
      else if String.eqb "env" name then
        _ ← parse_flags (mkFlagSet (root_pflags fss)) rest; Some (Println <$> env)
      else if String.eqb "install" name then
        _ ← parse_flags (mkFlagSet (root_pflags fss)) rest; Some [Install]
      else if String.eqb "uninstall" name then
        flags ← parse_flags (mkFlagSet (package_flag :: root_pflags fss)) rest;
        Some [Uninstall (GetBool flags "package")]
      else None
  end.

#[local] Arguments String.eqb : simpl never.

(** C9: the command tree [initOtherCmdsAndFlags] builds refines the
    command table: for every argument list, cobra's dispatch through the
    root's children, their local and inherited flags and their [Run]
    closures gives what [cli_table] gives, errors included. *)
Theorem Execute_refines_table (s : CliState) :
  cli_ready s -> flags_ok (root_pflags (cs_flag_sets s)) ->
  exists s', initOtherCmdsAndFlags s = Ok (tt, s') /\
  forall args, Execute args s' = cli_table (cs_env_vars s) (cs_flag_sets s) args.
Proof.
  intros Hready Hok. destruct (Execute_init s Hready Hok) as (s' & Hinit & Hev & Hex).
  exists s'. split; [done|]. intros [|name rest]; [done|].
  unfold Execute. rewrite Hex. simpl. unfold run_closure. rewrite Hev. unfold cli_table.
  destruct (String.eqb "version" name);
    [|destruct (String.eqb "env" name);
      [|destruct (String.eqb "install" name); [|destruct (String.eqb "uninstall" name)]]];
    simpl; try destruct (parse_flags _ rest); reflexivity.
Qed.

(** ** A concrete process *)

(** A fresh root command at pointer 0 and a configuration with one flag
    set holding [--host]/[-H]. *)
Definition root0 : Command := mkCommand "polly" "Polly" None empty_flags empty_flags None [].
Definition host_flag : Flag := mkFlag "host" "H" (FString "") "The host to connect to".

Definition cli_state0 (fss : list FlagSet) : CliState :=
  mkCliState {[0 := root0]} 1 (mkCLI 0 None None None None) "h" "help for %s"
    ["POLLY_HOME"; "POLLY_DEBUG"] fss.

Lemma cli_state0_ready (fss : list FlagSet) : cli_ready (cli_state0 fss).
Proof.
  split; [|by exists root0].
  intros p Hp. cbn in Hp. rewrite dom_singleton_L, elem_of_singleton in Hp. simpl. lia.
Qed.

Lemma host_flags_ok : flags_ok (root_pflags [mkFlagSet [host_flag]]).
Proof. apply (bool_decide_unpack _ (dec := flags_ok_dec _)). vm_compute. reflexivity. Qed.

Lemma initOtherCmdsAndFlags_tree_witness :
  flags_ok (root_pflags [mkFlagSet [host_flag]]) /\
  exists s', initOtherCmdsAndFlags (cli_state0 [mkFlagSet [host_flag]]) = Ok (tt, s') /\
  cs_cli s' = mkCLI 0 (Some 1) (Some 2) (Some 3) (Some 4).
Proof.
  pose proof host_flags_ok as Hok. split; [exact Hok|].
  destruct (initOtherCmdsAndFlags_tree (cli_state0 [mkFlagSet [host_flag]])
              (cli_state0_ready _) Hok) as (s' & H & Hcli & _).
  exists s'. split; [exact H|exact Hcli].
Defined.

Lemma Execute_after_init_witness :
  exists s', initOtherCmdsAndFlags (cli_state0 [mkFlagSet [host_flag]]) = Ok (tt, s') /\
  Execute ["uninstall"; "--package"] s' = Some [Uninstall true] /\
  Execute ["env"] s' = Some [Println "POLLY_HOME"; Println "POLLY_DEBUG"].
Proof.
  destruct (Execute_after_init (cli_state0 [mkFlagSet [host_flag]]) (cli_state0_ready _)
              host_flags_ok) as (s' & H & Hu & _ & _ & _ & He).
  exists s'. split_and!; [exact H|exact Hu|exact He].
Defined.

Lemma initOtherFlags_before_cmds_witness :
  initOtherFlags (cli_state0 [mkFlagSet [host_flag]]) = Err NilPointer.
Proof.
  apply (initOtherFlags_before_cmds (cli_state0 [mkFlagSet [host_flag]]) (cli_state0_ready _));
    [exact host_flags_ok|reflexivity].
Defined.

Lemma init_shorthand_reused_witness :
  initOtherCmdsAndFlags (cli_state0 [mkFlagSet [mkFlag "vault" "v" (FBool false) "Use the vault"]])
  = Err (ShorthandReused "v").
Proof.
  apply (init_shorthand_reused _ "vault" "Use the vault" (FBool false) (cli_state0_ready _));
    [reflexivity|discriminate|discriminate].
Defined.

Lemma package_flag_local_witness :
  exists s', initOtherCmdsAndFlags (cli_state0 [mkFlagSet [host_flag]]) = Ok (tt, s') /\
  Execute ["install"; "--package"] s' = None /\
  Execute ["uninstall"; "--verbose"; "--config=/etc/polly.yml"] s' = Execute ["uninstall"] s'.
Proof.
  destruct (package_flag_local (cli_state0 [mkFlagSet [host_flag]]) (cli_state0_ready _)
              host_flags_ok
              ltac:(apply (bool_decide_unpack _); vm_compute; reflexivity))
    as (s' & H & Hi & _ & Hv).
  exists s'. split_and!; [exact H|apply Hi; vm_decide|apply Hv; vm_decide].
Defined.

Lemma Execute_flag_kinds_witness :
  exists s', initOtherCmdsAndFlags (cli_state0 [mkFlagSet [host_flag]]) = Ok (tt, s') /\
  Execute ["env"; "--config"] s' = None /\
  Execute ["env"; "--verbose=yes"] s' = None /\
  Execute ["uninstall"; "--package=T"] s' = Some [Uninstall true].
Proof.
  destruct (Execute_flag_kinds (cli_state0 [mkFlagSet [host_flag]]) (cli_state0_ready _)
              host_flags_ok)
    as (s' & H & Hn & _ & Hp).
  destruct (Hn "env" ltac:(vm_decide)) as (_ & Hc & _ & _ & Hv).
  exists s'. split_and!; [exact H|exact Hc|apply (Hv "yes"); reflexivity|apply (Hp "T"); reflexivity].
Defined.

Lemma uninstall_package_last_wins_witness :
  exists s', initOtherCmdsAndFlags (cli_state0 [mkFlagSet [host_flag]]) = Ok (tt, s') /\
  Execute ("uninstall" :: package_args [true; false]) s' = Some [Uninstall false].
Proof.
  destruct (uninstall_package_last_wins (cli_state0 [mkFlagSet [host_flag]]) (cli_state0_ready _)
              host_flags_ok) as (s' & H & Hl).
  exists s'. split; [exact H|exact (Hl [true; false])].
Defined.

Lemma initOtherCmdsAndFlags_frame_witness :
  exists s', initOtherCmdsAndFlags (cli_state0 [mkFlagSet [host_flag]]) = Ok (tt, s') /\
  cs_store (cli_state0 [mkFlagSet [host_flag]]) !! 1 = None /\ cli_versionCmd (cs_cli s') = Some 1.
Proof.
  destruct (initOtherCmdsAndFlags_frame (cli_state0 [mkFlagSet [host_flag]]) (cli_state0_ready _)
              host_flags_ok) as (s' & H & _ & Hq).
  exists s'. split; [exact H|].
  assert (Hc : cs_cli s' = mkCLI 0 (Some 1) (Some 2) (Some 3) (Some 4))
    by (vm_compute in H; injection H as <-; reflexivity).
  destruct (Hq _ (list_elem_of_here _ _)) as (x & Hx & Hfree & _).
  rewrite Hc in Hx |- *. injection Hx as <-. split; [exact Hfree|reflexivity].
Defined.

Lemma cfgFile_roundtrip_witness :
  exists s', initOtherCmdsAndFlags (cli_state0 [mkFlagSet [host_flag]]) = Ok (tt, s') /\
  Execute_cfgFile ["env"; "-c"; "/etc/polly/config.yml"] s' = Some "/etc/polly/config.yml".
Proof.
  destruct (cfgFile_roundtrip (cli_state0 [mkFlagSet [host_flag]]) (cli_state0_ready _) host_flags_ok)
    as (s' & H & Hc).
  exists s'. split; [exact H|].
  exact (proj1 (proj2 (Hc "env" "/etc/polly/config.yml" ltac:(apply list_elem_of_further, list_elem_of_here)))).
Defined.

Lemma initOtherFlags_twice_witness :
  exists s', initOtherCmdsAndFlags (cli_state0 [mkFlagSet [host_flag]]) = Ok (tt, s') /\
             initOtherFlags s' = Err (FlagRedefined "config").
Proof.
  exact (initOtherFlags_twice (cli_state0 [mkFlagSet [host_flag]]) (cli_state0_ready _)
           host_flags_ok).
Defined.

Lemma initOtherCmdsAndFlags_typed_witness :
  exists s', initOtherCmdsAndFlags (cli_state0 [mkFlagSet [host_flag]]) = Ok (tt, s') /\ cli_typed s'.
Proof.
  destruct (initOtherCmdsAndFlags (cli_state0 [mkFlagSet [host_flag]])) as [[[] s']|p] eqn:E;
    [|vm_compute in E; discriminate].
  exists s'. split; [reflexivity|].
  exact (initOtherCmdsAndFlags_typed (cli_state0 [mkFlagSet [host_flag]]) s'
           ltac:(vm_decide) ltac:(vm_decide) E).
Defined.

Lemma init_config_flag_shorthand_witness :
  is_ok (initOtherCmdsAndFlags (cli_state0 [mkFlagSet [mkFlag "debug" "dd" (FBool false) "Debug"]])) = false.
Proof.
  apply not_true_is_false. intros H.
  apply (init_config_flag_shorthand _ (mkFlag "debug" "dd" (FBool false) "Debug") (cli_state0_ready _)
           eq_refl) in H.
  destruct H as [H|[H|(H & _)]]; [discriminate|discriminate|simpl in H; lia].
Defined.

Lemma Execute_refines_table_witness :
  exists s', initOtherCmdsAndFlags (cli_state0 [mkFlagSet [host_flag]]) = Ok (tt, s') /\
  Execute ["uninstall"; "--host=example.org"; "--package"] s' = Some [Uninstall true].
Proof.
  destruct (Execute_refines_table (cli_state0 [mkFlagSet [host_flag]]) (cli_state0_ready _)
              host_flags_ok)
    as (s' & H & Ht).
  exists s'. split; [exact H|]. rewrite Ht. reflexivity.
Defined.

(** The whole run on the concrete process, by evaluation. *)
Example Execute_tw0 :
  (s' ← (match initOtherCmdsAndFlags (cli_state0 [mkFlagSet [host_flag]]) with
         | Ok (_, s') => Some s' | Err _ => None end);
   Execute ["uninstall"; "--host=example.org"] s') = Some [Uninstall false].
Proof. vm_compute. reflexivity. Qed.

End Cli.
